(** * TruthGuard: the content-analysis orchestration core

    A shallow embedding of the two agent selectors
    ([VerificationSystem.selectAgents] of the Telegram-bot module and
    [AgentSelector.determineActiveAgents] of the web front end), of the
    orchestrator [VerificationSystem.verifyContent], of the aggregator
    [calculateOverallResult] and of the session store with its retention
    sweep [cleanupOldVerifications], followed by the properties the
    specification states about them.

    Conventions of the embedding.
    - A JavaScript string is a [string]: a sequence of code units, each
      below 256 (the Latin-1 range); [toLowerCase] and the regular
      expression class [\s] are modelled on that range.
    - In the model of the orchestrator a JavaScript number that carries
      a confidence is an exact rational ([Q]), [NaN] being [None]: the
      rounding of doubles is left out there.  The aggregator is
      modelled a second time in the arithmetic of the code ([Double]):
      the confidences are IEEE-754 binary64 numbers, the primitive
      floats, whose operations the library specifies by those of
      [SpecFloat].  What the specification says about the mean of the
      confidences is stated on that model.  Times are integers
      (milliseconds, [Z]).
    - The [Map] that holds the sessions keeps insertion order, as the
      JavaScript [Map] does: it is an association list with unique keys.
    - An [async] function is cut at its [await]: the part that runs
      synchronously at the call, and the continuation that runs when the
      awaited promise settles.  Each part is atomic (one thread of
      control), and other calls may run between the two.
    - A regular expression is a backtracking matcher over the
      constructs the source uses; the [lastIndex] of a global expression
      that is kept between calls is explicit state.

    The further properties at the end cover more of the code: the
    analyzers of the source, the security utilities of the bot, the
    chat handlers and the web API with the validator it shares. *)

From Stdlib Require Import Floats.
From Stdlib Require Import ZArith QArith Qpower Qround Lqa Ascii String List Bool
  Lia.
From stdpp Require Import base tactics option list strings.
Import ListNotations.

Local Open Scope string_scope.
Local Open Scope list_scope.
Local Open Scope Z_scope.

(** ** JavaScript strings *)

Module JsString.

(** [String.prototype.toLowerCase] on one code unit of the Latin-1
    range: A-Z and the accented capitals U+00C0-U+00DE (the
    multiplication sign U+00D7 apart) move up by 32. *)
Definition toLowerCase_unit (c : ascii) : ascii :=
  let n := N_of_ascii c in
  if (((65 <=? n) && (n <=? 90))
      || ((192 <=? n) && (n <=? 222) && negb (n =? 215)))%N
  then ascii_of_N (n + 32) else c.

Fixpoint toLowerCase (s : string) : string :=
  match s with
  | EmptyString => EmptyString
  | String c s' => String (toLowerCase_unit c) (toLowerCase s')
  end.

(** [s.startsWith(k)] *)
Fixpoint startsWith (s k : string) {struct k} : bool :=
  match k, s with
  | EmptyString, _ => true
  | String _ _, EmptyString => false
  | String a k', String b s' => Ascii.eqb a b && startsWith s' k'
  end.

(** [s.includes(k)]: [k] starts at some position of [s]. *)
Fixpoint includes (s k : string) : bool :=
  startsWith s k
  || match s with
     | EmptyString => false
     | String _ s' => includes s' k
     end.

(** The class [\s] of a regular expression, on the Latin-1 range:
    tab, line feed, vertical tab, form feed, carriage return, space,
    no-break space. *)
Definition isRegexSpace (c : ascii) : bool :=
  let n := N_of_ascii c in
  (((9 <=? n) && (n <=? 13)) || (n =? 32) || (n =? 160))%N.

(** [n] code units dropped from the front. *)
Fixpoint dropUnits (n : nat) (s : string) : string :=
  match n, s with
  | O, _ => s
  | S _, EmptyString => EmptyString
  | S n', String _ s' => dropUnits n' s'
  end.

(** One or more code units outside [\s] start here: [[^\s]+]. *)
Definition nonSpaceHere (s : string) : bool :=
  match s with
  | EmptyString => false
  | String c _ => negb (isRegexSpace c)
  end.

(** [/https?:\/\/[^\s]+/] anchored at the front of [s]. *)
Definition urlHere (s : string) : bool :=
  (startsWith s "http://" && nonSpaceHere (dropUnits 7 s))
  || (startsWith s "https://" && nonSpaceHere (dropUnits 8 s)).

(** [s.match(/https?:\/\/[^\s]+/)] is not [null]. *)
Fixpoint matchesUrl (s : string) : bool :=
  urlHere s
  || match s with
     | EmptyString => false
     | String _ s' => matchesUrl s'
     end.

End JsString.

Import JsString.

(** ** Agent selection in the web front end
    ([assets/js/main.js], [AgentSelector]) *)

Module AgentSelector.

(** The keys of [AGENTS], in declaration order. *)
Definition AGENTS : list string :=
  ["news"; "fact"; "scam"; "phishing"; "image"; "video"].

(** [Object.entries(triggers)], in insertion order. *)
Definition triggers : list (string * list string) :=
  [ ("news", ["news"; "breaking"; "report"; "journalist"; "media";
              "press"; "headline"; "story"]);
    ("fact", ["research"; "study"; "scientist"; "professor";
              "university"; "published"; "data"; "statistics";
              "percent"; "%"; "climate"; "medical"; "health"]);
    ("scam", ["winner"; "lottery"; "prize"; "money"; "fee"; "transfer";
              "bank"; "account"; "urgent"; "limited time";
              "congratulations"; "claim"; "inheritance"]);
    ("phishing", ["click"; "link"; "http"; "www"; "login"; "password";
                  "secure"; "verify"; "account"; "suspended";
                  "expired"]);
    ("image", ["image"; "photo"; "picture"; "edited"; "photoshop";
               "fake photo"; "manipulated"]);
    ("video", ["video"; "footage"; "clip"; "deepfake"; "recorded";
               "filmed"]) ].

(** [activeAgents.includes(agentId)] *)
Definition Array_includes (l : list string) (x : string) : bool :=
  existsb (String.eqb x) l.

(** One turn of the loop over the triggers. *)
Definition trigger_step (contentLower : string)
    (activeAgents : list string) (entry : string * list string)
    : list string :=
  let '(agentId, keywords) := entry in
  if existsb (fun keyword => includes contentLower keyword) keywords
  then if negb (Array_includes activeAgents agentId)
       then activeAgents ++ [agentId]
       else activeAgents
  else activeAgents.

Definition determineActiveAgents (content : string) : list string :=
  let contentLower := toLowerCase content in
  (* Special case: URLs always trigger phishing detection *)
  let activeAgents :=
    if matchesUrl contentLower then ["phishing"] else [] in
  let activeAgents :=
    fold_left (trigger_step contentLower) triggers activeAgents in
  (* Fallback: general-purpose agents *)
  let activeAgents :=
    if (length activeAgents =? 0)%nat
    then activeAgents ++ ["news"; "fact"] else activeAgents in
  (* limit to 4 agents *)
  if (4 <? length activeAgents)%nat
  then firstn 4 activeAgents else activeAgents.

(** The same loop seen through which triggers matched: [flags] pairs
    every agent with the outcome of its [keywords.some(...)], and
    [flag_step] is [trigger_step] on such a pair. *)
Definition flags (contentLower : string)
    (triggers : list (string * list string)) : list (string * bool) :=
  map (fun entry =>
         (fst entry,
          existsb (fun keyword => includes contentLower keyword)
                  (snd entry)))
      triggers.

Definition flag_step (activeAgents : list string) (entry : string * bool)
    : list string :=
  if snd entry
  then if negb (Array_includes activeAgents (fst entry))
       then activeAgents ++ [fst entry]
       else activeAgents
  else activeAgents.

End AgentSelector.

(** ** JavaScript values, numbers and exceptions *)

(** The values a caller can hand over as [content] (what a JSON body
    can carry, and [undefined]). *)
Inductive jsval : Type :=
  | JUndefined
  | JNull
  | JBool (b : bool)
  | JNumber (q : option Q)          (* [None] is [NaN] *)
  | JString (s : string)
  | JObject.

(** [!v] is [false]: the value is truthy. *)
Definition truthy (v : jsval) : bool :=
  match v with
  | JUndefined | JNull => false
  | JBool b => b
  | JNumber None => false
  | JNumber (Some q) => negb (Qeq_bool q 0)
  | JString s => negb (String.eqb s "")
  | JObject => true
  end.

(** [typeof v === 'string'] *)
Definition typeof_string (v : jsval) : bool :=
  match v with JString _ => true | _ => false end.

Inductive exn : Type :=
  | Error (message : string)
  | TypeError (message : string).

Definition message (e : exn) : string :=
  match e with Error m | TypeError m => m end.

(** [Math.round]: the nearest integer, a tie going up. *)
Definition Math_round (x : Q) : Z := Qfloor (x + (1 # 2)).

(** [x > y] on numbers, [NaN] comparing false. *)
Definition js_gt (x : option Q) (y : Q) : bool :=
  match x with
  | Some q => negb (Qle_bool q y)
  | None => false
  end.

(** ** The records of the bot's verification module
    ([telegram-bot/modules/verification-system.js]).
    Fields that only serve the rendering (emoji, description,
    capabilities, titles, the summary sentence) are left out. *)

Module Agent.
Record agent : Type := mk
  { id : string;
    name : string;
    keywords : list string;
    processingTime : Z }.
End Agent.

Module Scenario.
Record scenario : Type := mk
  { id : string;
    content : string;
    expectedResult : string;
    confidence : Q;
    explanation : string }.
End Scenario.

(** What [generateAgentResponse] returns. *)
Module Response.
Record response : Type := mk
  { verdict : string;
    confidence : Q;
    evidence : list string;
    recommendations : list string }.
End Response.

(** What [processAgent] resolves to. *)
Module AgentResult.
Record agentResult : Type := mk
  { agent : string;
    name : string;
    verdict : string;
    confidence : Q;
    evidence : list string;
    recommendations : list string;
    processingTime : Z }.
End AgentResult.

Module Overall.
Record overall : Type := mk
  { verdict : string;
    confidence : option Z;        (* [None] is [NaN] *)
    riskLevel : string }.
End Overall.

(** What [verifyContent] resolves to and stores under [result]. *)
Module Result.
Record result : Type := mk
  { verificationId : string;
    content : string;
    timestamp : Z;
    agents : list Agent.agent;
    agentResults : list AgentResult.agentResult;
    overallResult : Overall.overall;
    processingTime : Z }.
End Result.

(** A value of [activeVerifications].  The object is rebuilt by
    spreading the previous one, which may be [undefined]: every key but
    [status] can be absent. *)
Module Verification.
Record verification : Type := mk
  { userId : option string;
    content : option string;
    agents : option (list Agent.agent);
    startTime : option Z;
    status : string;
    result : option Result.result;
    error : option string }.
End Verification.

(** ** The insertion-ordered [Map] *)

Module JsMap.
Section Ops.
Context {V : Type}.

Fixpoint get (m : list (string * V)) (k : string) : option V :=
  match m with
  | [] => None
  | (k', v) :: m' => if String.eqb k' k then Some v else get m' k
  end.

(** [set] keeps the position of a key that is present and appends a
    new one. *)
Fixpoint set (m : list (string * V)) (k : string) (v : V)
    : list (string * V) :=
  match m with
  | [] => [(k, v)]
  | (k', w) :: m' =>
      if String.eqb k' k then (k', v) :: m' else (k', w) :: set m' k v
  end.

Definition delete (m : list (string * V)) (k : string)
    : list (string * V) :=
  List.filter (fun kv => negb (String.eqb (fst kv) k)) m.

Definition keys (m : list (string * V)) : list string := map fst m.
End Ops.
End JsMap.


(** ** The bot's verification system *)

Module VerificationSystem.

Import JsMap.

(** The object state: [this.agents], [this.scenarios],
    [this.activeVerifications], [this.totalVerifications]. *)
Record system : Type := mkSystem
  { agents : list Agent.agent;
    scenarios : list Scenario.scenario;
    activeVerifications : list (string * Verification.verification);
    totalVerifications : Z }.

(** The array [loadAgents] assigns to [this.agents]. *)
Definition loadAgents : list Agent.agent :=
  [ Agent.mk "news" "News Verification Agent"
      ["breaking"; "news"; "report"; "journalist"; "headline"; "media";
       "press"] 3500;
    Agent.mk "fact" "Fact Verification Agent"
      ["study"; "research"; "scientist"; "data"; "percent"; "statistics";
       "academic"] 4200;
    Agent.mk "scam" "Scam Detection Agent"
      ["winner"; "lottery"; "money"; "urgent"; "fee"; "prize"; "cash";
       "inheritance"] 2800;
    Agent.mk "phishing" "Phishing Link Detector"
      ["click"; "link"; "login"; "account"; "verify"; "security";
       "password"; "update"] 3100;
    Agent.mk "image" "Image Forgery Detector"
      ["photo"; "image"; "picture"; "ai-generated"; "deepfake";
       "manipulated"] 5500;
    Agent.mk "video" "Video Forgery Detector"
      ["video"; "deepfake"; "ai-generated"; "manipulated"; "synthetic"]
      6800 ].

(** The array [loadScenarios] assigns to [this.scenarios]. *)
Definition loadScenarios : list Scenario.scenario :=
  [ Scenario.mk "medical_misinformation"
      "Breaking: Scientists discover cure for diabetes using AI technology!"
      "FALSE" 95
      "No credible sources found, contradicts medical research standards";
    Scenario.mk "phishing_attempt"
      "Your bank account compromised! Click: https://secure-bank-update.fake/login"
      "MALICIOUS" 96
      "Fraudulent domain, classic phishing patterns detected";
    Scenario.mk "legitimate_news"
      "NASA announces new Mars mission scheduled for 2026"
      "TRUE" 87
      "Verified by official sources, aligns with space program timeline";
    Scenario.mk "mixed_content"
      "Climate change causes 50% of wildfires! Learn more: https://climate-truth.info"
      "UNVERIFIED" 65
      "Climate connection valid, but statistics unverified and suspicious link";
    Scenario.mk "advance_fee_fraud"
      "Congratulations! You won $1M lottery. Send $500 processing fee to claim!"
      "SCAM" 99
      "Classic 419 scam pattern, no legitimate lottery requires upfront payment" ].

(** The object once the constructor and [initialize] have run. *)
Definition initialize : system :=
  {| agents := loadAgents;
     scenarios := loadScenarios;
     activeVerifications := [];
     totalVerifications := 0 |}.

(** *** Agent selection *)

(** [agent.keywords.some(keyword =>
      contentLower.includes(keyword.toLowerCase()))] *)
Definition hasKeyword (contentLower : string) (agent : Agent.agent) : bool :=
  existsb (fun keyword => includes contentLower (toLowerCase keyword))
          (Agent.keywords agent).

(** [this.agents.find(a => a.id === id)], [undefined] being [None]. *)
Definition findAgent (agents : list Agent.agent) (id : string)
    : option Agent.agent :=
  List.find (fun a => String.eqb (Agent.id a) id) agents.

(** [array.filter(Boolean)] on an array of agents and [undefined]s. *)
Definition filter_Boolean (l : list (option Agent.agent))
    : list Agent.agent :=
  omap id l.

Definition selectAgents (agents : list Agent.agent) (content : string)
    : list Agent.agent :=
  let contentLower := toLowerCase content in
  let selectedAgents := List.filter (hasKeyword contentLower) agents in
  (* Always include at least one agent (default to news + fact) *)
  let selectedAgents :=
    if (length selectedAgents =? 0)%nat
    then [findAgent agents "news"; findAgent agents "fact"]
    else map Some selectedAgents in
  filter_Boolean selectedAgents.

(** *** The analyzer stub *)

Definition getScenarioResponse (agent : Agent.agent)
    (scenario : Scenario.scenario) : Response.response :=
  let verdict := Scenario.expectedResult scenario in
  let confidence := Scenario.confidence scenario in
  let evidence := [Scenario.explanation scenario] in
  let custom (e r : string) :=
    Response.mk verdict confidence (evidence ++ [e]) [r] in
  let id := Agent.id agent in
  if String.eqb id "news" then
    custom "Cross-referenced with major news outlets"
           "Verify with official news sources"
  else if String.eqb id "fact" then
    custom "Checked against scientific databases"
           "Consult peer-reviewed research"
  else if String.eqb id "scam" then
    custom "Analyzed against known fraud patterns"
           "Report to relevant authorities"
  else if String.eqb id "phishing" then
    custom "Domain reputation analysis completed"
           "Do not click suspicious links"
  else if String.eqb id "image" then
    custom "Image metadata and manipulation analysis"
           "Verify original source"
  else if String.eqb id "video" then
    custom "Video frame and audio analysis completed"
           "Check for original upload"
  else Response.mk verdict confidence evidence [].

Definition suspiciousPatterns : list string :=
  ["click here"; "urgent"; "limited time"; "act now"; "congratulations";
   "you won"; "lottery"; "inheritance"; "prince"; "million dollars"].

(** [random] is the value [Math.random()] returns, in [0,1). *)
Definition getHeuristicResponse (agent : Agent.agent) (content : string)
    (random : Q) : Response.response :=
  let hasSuspiciousPattern :=
    existsb (fun pattern => includes (toLowerCase content) pattern)
            suspiciousPatterns in
  if hasSuspiciousPattern
     && (String.eqb (Agent.id agent) "scam"
         || String.eqb (Agent.id agent) "phishing")
  then Response.mk "SUSPICIOUS" (85 + random * 10)
         ["Contains patterns commonly found in fraudulent content"]
         ["Exercise extreme caution"; "Verify through official channels"]
  else Response.mk "UNVERIFIED" (50 + random * 30)
         ["Insufficient information for definitive analysis"]
         ["Seek additional sources"; "Apply critical thinking"].

Definition generateAgentResponse (scenarios : list Scenario.scenario)
    (agent : Agent.agent) (content : string) (random : Q)
    : Response.response :=
  let contentLower := toLowerCase content in
  match List.find (fun s => String.eqb (toLowerCase (Scenario.content s))
                                       contentLower) scenarios with
  | Some scenario => getScenarioResponse agent scenario
  | None => getHeuristicResponse agent content random
  end.

(** The object [processAgent] builds from the analyzer's response;
    [startTime] and [endTime] are its two readings of [Date.now()]. *)
Definition processAgent (agent : Agent.agent) (startTime endTime : Z)
    (response : Response.response) : AgentResult.agentResult :=
  {| AgentResult.agent := Agent.id agent;
     AgentResult.name := Agent.name agent;
     AgentResult.verdict := Response.verdict response;
     AgentResult.confidence := Response.confidence response;
     AgentResult.evidence := Response.evidence response;
     AgentResult.recommendations := Response.recommendations response;
     AgentResult.processingTime := endTime - startTime |}.

(** How the analysis of [agent] goes with the analyzer of the source:
    [processAgent] sleeps [agent.processingTime + Math.random() * 1000]
    milliseconds, then answers with [generateAgentResponse]; it never
    throws.  [random agent] holds the two values [Math.random()] returns
    during that analysis; the timer fires at the first whole millisecond
    past the delay. *)
Definition stubAnalyzer (scenarios : list Scenario.scenario)
    (content : string) (started : Z) (random : Agent.agent -> Q * Q)
    (agent : Agent.agent) : Z * (exn + Response.response) :=
  let '(r1, r2) := random agent in
  (started + Qceiling (inject_Z (Agent.processingTime agent) + r1 * 1000),
   inr (generateAgentResponse scenarios agent content r2)).

(** *** Aggregation *)

(** [verdicts.includes(v)] *)
Definition includesVerdict (verdicts : list string) (v : string) : bool :=
  existsb (String.eqb v) verdicts.

(** [agentResults.reduce((sum, r) => sum + r.confidence, 0)
      / agentResults.length]; [0 / 0] is [NaN]. *)
Definition avgConfidence (agentResults : list AgentResult.agentResult)
    : option Q :=
  let sum :=
    fold_left (fun sum r => (sum + AgentResult.confidence r)%Q)
              agentResults 0%Q in
  match agentResults with
  | [] => None
  | _ => Some (sum / inject_Z (Z.of_nat (length agentResults)))%Q
  end.

Definition calculateRiskLevel (verdict : string) (confidence : option Q)
    : string :=
  if String.eqb verdict "DANGEROUS" then "CRITICAL"
  else if String.eqb verdict "FALSE" && js_gt confidence 90 then "HIGH"
  else if String.eqb verdict "SUSPICIOUS" then "MEDIUM"
  else if String.eqb verdict "UNVERIFIED" then "LOW"
  else "MINIMAL".

Definition calculateOverallResult
    (agentResults : list AgentResult.agentResult) : Overall.overall :=
  let verdicts := map AgentResult.verdict agentResults in
  let avgConfidence := avgConfidence agentResults in
  let overallVerdict :=
    if includesVerdict verdicts "MALICIOUS"
       || includesVerdict verdicts "SCAM" then "DANGEROUS"
    else if includesVerdict verdicts "FALSE" then "FALSE"
    else if includesVerdict verdicts "TRUE" && js_gt avgConfidence 80
      then "VERIFIED"
    else if includesVerdict verdicts "SUSPICIOUS" then "SUSPICIOUS"
    else "UNVERIFIED" in
  {| Overall.verdict := overallVerdict;
     Overall.confidence := Math_round <$> avgConfidence;
     Overall.riskLevel := calculateRiskLevel overallVerdict avgConfidence |}.

(** *** Promises *)

(** A settled promise: the time at which it settled and its outcome, a
    rejection ([inl]) or a value ([inr]). *)
Definition settled (A : Type) : Type := (Z * (exn + A))%type.

(** The rejection that happens first; of two at the same time, the one
    of the promise that comes first in the array. *)
Fixpoint firstRejection {A : Type} (l : list (settled A))
    : option (Z * exn) :=
  match l with
  | [] => None
  | (t, inl e) :: l' =>
      match firstRejection l' with
      | Some (t', e') => if t' <? t then Some (t', e') else Some (t, e)
      | None => Some (t, e)
      end
  | (_, inr _) :: l' => firstRejection l'
  end.

Fixpoint fulfilledValues {A : Type} (l : list (settled A)) : list A :=
  match l with
  | [] => []
  | (_, inr a) :: l' => a :: fulfilledValues l'
  | (_, inl _) :: l' => fulfilledValues l'
  end.

(** [await Promise.all(promises)]: the values in the order of the array
    when every promise is fulfilled, the first rejection otherwise. *)
Definition Promise_all {A : Type} (l : list (settled A)) : exn + list A :=
  match firstRejection l with
  | Some (_, e) => inl e
  | None => inr (fulfilledValues l)
  end.

(** *** The orchestrator *)

(** What a call to [verifyContent] holds while it waits at
    [await Promise.all(...)]: its [id], [content] and [selectedAgents],
    and the time at which its [processAgent] calls started. *)
Module Pending.
Record pending : Type := mk
  { id : string;
    content : string;
    selectedAgents : list Agent.agent;
    started : Z }.
End Pending.

(** [verificationId || uuidv4()]: [null], [undefined] and the empty
    string are falsy. *)
Definition orUuid (verificationId : option string) (uuidv4 : string)
    : string :=
  match verificationId with
  | Some v => if String.eqb v "" then uuidv4 else v
  | None => uuidv4
  end.

(** [verifyContent] from the call to the [await].  [uuidv4] is the
    identifier [uuidv4()] would return, [now] the clock.  A value that is
    not a string has no [toLowerCase]: [selectAgents] throws, which
    rejects the promise of the [async] function. *)
Definition verifyContent_call (this : system) (content : jsval)
    (userId : string) (verificationId : option string) (uuidv4 : string)
    (now : Z) : system * (exn + Pending.pending) :=
  let id := orUuid verificationId uuidv4 in
  match content with
  | JString content =>
      let selectedAgents := selectAgents (agents this) content in
      (* Track active verification *)
      let record :=
        {| Verification.userId := Some userId;
           Verification.content := Some content;
           Verification.agents := Some selectedAgents;
           Verification.startTime := Some now;
           Verification.status := "processing";
           Verification.result := None;
           Verification.error := None |} in
      ({| agents := agents this;
          scenarios := scenarios this;
          activeVerifications := set (activeVerifications this) id record;
          totalVerifications := totalVerifications this + 1 |},
       inr (Pending.mk id content selectedAgents now))
  | JUndefined =>
      (this, inl (TypeError
         "Cannot read properties of undefined (reading 'toLowerCase')"))
  | JNull =>
      (this, inl (TypeError
         "Cannot read properties of null (reading 'toLowerCase')"))
  | _ => (this, inl (TypeError "content.toLowerCase is not a function"))
  end.

(** A key of [{...previous}]: spreading [undefined] gives no key. *)
Definition spread {A : Type} (key : Verification.verification -> option A)
    (previous : option Verification.verification) : option A :=
  match previous with
  | Some v => key v
  | None => None
  end.

(** [{...this.activeVerifications.get(id), status: 'failed',
      error: error.message}] *)
Definition failedRecord (previous : option Verification.verification)
    (error : exn) : Verification.verification :=
  {| Verification.userId := spread Verification.userId previous;
     Verification.content := spread Verification.content previous;
     Verification.agents := spread Verification.agents previous;
     Verification.startTime := spread Verification.startTime previous;
     Verification.status := "failed";
     Verification.result := spread Verification.result previous;
     Verification.error := Some (message error) |}.

(** [{...this.activeVerifications.get(id), status: 'completed', result}] *)
Definition completedRecord (previous : Verification.verification)
    (result : Result.result) : Verification.verification :=
  {| Verification.userId := Verification.userId previous;
     Verification.content := Verification.content previous;
     Verification.agents := Verification.agents previous;
     Verification.startTime := Verification.startTime previous;
     Verification.status := "completed";
     Verification.result := Some result;
     Verification.error := Verification.error previous |}.

Definition withVerifications (this : system)
    (m : list (string * Verification.verification)) : system :=
  {| agents := agents this;
     scenarios := scenarios this;
     activeVerifications := m;
     totalVerifications := totalVerifications this |}.

(** The [catch] block: the session is marked failed and the error is
    thrown again. *)
Definition verifyContent_catch (this : system) (id : string) (error : exn)
    : system * (exn + Result.result) :=
  let previous := get (activeVerifications this) id in
  (withVerifications this
     (set (activeVerifications this) id (failedRecord previous error)),
   inl error).

(** [selectedAgents.map(agent => this.processAgent(agent, content))],
    once every promise has settled.  [analyzer agent] is how the
    analysis of [agent] went: when it ended, and with the response of
    the analyzer or with what it threw. *)
Definition processAgents (p : Pending.pending)
    (analyzer : Agent.agent -> settled Response.response)
    : list (settled AgentResult.agentResult) :=
  map (fun agent =>
         let '(endTime, outcome) := analyzer agent in
         (endTime,
          match outcome with
          | inl e => inl e
          | inr response =>
              inr (processAgent agent (Pending.started p) endTime response)
          end))
      (Pending.selectedAgents p).

(** [verifyContent] from the [await] on; [now] is the clock when the
    continuation runs. *)
Definition verifyContent_settle (this : system) (p : Pending.pending)
    (analyzer : Agent.agent -> settled Response.response) (now : Z)
    : system * (exn + Result.result) :=
  let id := Pending.id p in
  let promises := processAgents p analyzer in
  match Promise_all promises with
  | inl error => verifyContent_catch this id error
  | inr agentResults =>
      (* Calculate overall result *)
      let overallResult := calculateOverallResult agentResults in
      match get (activeVerifications this) id with
      | None =>
          verifyContent_catch this id (TypeError
            "Cannot read properties of undefined (reading 'startTime')")
      | Some previous =>
          match Verification.startTime previous with
          | None =>
              verifyContent_catch this id (TypeError
                "Cannot read properties of undefined (reading 'getTime')")
          | Some startTime =>
              let result :=
                {| Result.verificationId := id;
                   Result.content := Pending.content p;
                   Result.timestamp := now;
                   Result.agents := Pending.selectedAgents p;
                   Result.agentResults := agentResults;
                   Result.overallResult := overallResult;
                   Result.processingTime := now - startTime |} in
              (* Update verification status *)
              (withVerifications this
                 (set (activeVerifications this) id
                      (completedRecord previous result)),
               inr result)
          end
      end
  end.

(** *** The session store *)

(** [getActiveVerifications] *)
Definition getActiveVerifications (this : system) : nat :=
  length (List.filter
            (fun kv => String.eqb (Verification.status (snd kv)) "processing")
            (activeVerifications this)).

Definition getTotalVerifications (this : system) : Z :=
  totalVerifications this.

Definition getVerification (this : system) (id : string)
    : option Verification.verification :=
  get (activeVerifications this) id.

(** The loop of [cleanupOldVerifications]: [entries] is what the
    iterator has still to visit, in insertion order, [m] the map as the
    loop has left it so far.  Deleting the entry the iterator stands on
    does not disturb the iteration.  An entry without [startTime] makes
    [verification.startTime.getTime()] throw: the loop stops there, with
    the entries before it swept and the others still in place. *)
Fixpoint sweepEntries (oneHourAgo : Z)
    (entries m : list (string * Verification.verification))
    : list (string * Verification.verification) * option exn :=
  match entries with
  | [] => (m, None)
  | (id, verification) :: rest =>
      match Verification.startTime verification with
      | None =>
          (m, Some (TypeError
             "Cannot read properties of undefined (reading 'getTime')"))
      | Some startTime =>
          sweepEntries oneHourAgo rest
            (if startTime <? oneHourAgo then delete m id else m)
      end
  end.

(** [cleanupOldVerifications], [now] being [Date.now()]. *)
Definition cleanupOldVerifications (this : system) (now : Z)
    : system * option exn :=
  let oneHourAgo := now - 60 * 60 * 1000 in
  let '(m, thrown) :=
    sweepEntries oneHourAgo (activeVerifications this)
                 (activeVerifications this) in
  (withVerifications this m, thrown).

End VerificationSystem.

(** ** JavaScript numbers as they are: IEEE-754 doubles *)

Module JsNumber.

(** The rational a finite double stands for; [None] for [NaN] and the
    infinities. *)
Definition valueOf (x : float) : option Q :=
  match Prim2SF x with
  | S754_zero _ => Some 0%Q
  | S754_finite s m e =>
      Some ((if s then -1 else 1) * inject_Z (Zpos m) * Qpower 2 e)%Q
  | S754_infinity _ | S754_nan => None
  end.

(** The double of a length: the natural number, rounded to nearest. *)
Definition ofNat (n : nat) : float :=
  SF2Prim (binary_normalize prec emax (Z.of_nat n) 0 false).

(** What [Math.round] returns: an integer, or its argument when that is
    [NaN] or an infinity.  (The sign of a zero is not kept.) *)
Inductive rounded : Type :=
  | Integer (z : Z)
  | NotFinite (x : float).

(** [Math.round(x)]: the integer nearest to [x], a tie going up. *)
Definition Math_round (x : float) : rounded :=
  match valueOf x with
  | Some q => Integer (Qfloor (q + (1 # 2)))
  | None => NotFinite x
  end.

End JsNumber.

(** ** The aggregator in the arithmetic of the code

    [calculateOverallResult] and [calculateRiskLevel] once more, the
    confidences being doubles and the sum, the quotient and the
    comparisons those of IEEE-754 binary64. *)

Module Double.

Import JsNumber.

(** What the aggregator reads of a result of [processAgent]. *)
Module AgentResult.
Record agentResult : Type := mk
  { verdict : string;
    confidence : float }.
End AgentResult.

Module Overall.
Record overall : Type := mk
  { verdict : string;
    confidence : rounded;
    riskLevel : string }.
End Overall.

(** [agentResults.reduce((sum, r) => sum + r.confidence, 0)
      / agentResults.length]; [0 / 0] is [NaN]. *)
Definition avgConfidence (agentResults : list AgentResult.agentResult)
    : float :=
  let sum :=
    fold_left (fun sum r => (sum + AgentResult.confidence r)%float)
              agentResults 0%float in
  (sum / ofNat (length agentResults))%float.

Definition calculateRiskLevel (verdict : string) (confidence : float)
    : string :=
  if String.eqb verdict "DANGEROUS" then "CRITICAL"
  else if String.eqb verdict "FALSE" && (90 <? confidence)%float then "HIGH"
  else if String.eqb verdict "SUSPICIOUS" then "MEDIUM"
  else if String.eqb verdict "UNVERIFIED" then "LOW"
  else "MINIMAL".

Definition calculateOverallResult
    (agentResults : list AgentResult.agentResult) : Overall.overall :=
  let verdicts := map AgentResult.verdict agentResults in
  let avgConfidence := avgConfidence agentResults in
  let overallVerdict :=
    if VerificationSystem.includesVerdict verdicts "MALICIOUS"
       || VerificationSystem.includesVerdict verdicts "SCAM"
    then "DANGEROUS"
    else if VerificationSystem.includesVerdict verdicts "FALSE" then "FALSE"
    else if VerificationSystem.includesVerdict verdicts "TRUE"
            && (80 <? avgConfidence)%float
      then "VERIFIED"
    else if VerificationSystem.includesVerdict verdicts "SUSPICIOUS"
      then "SUSPICIOUS"
    else "UNVERIFIED" in
  {| Overall.verdict := overallVerdict;
     Overall.confidence := Math_round avgConfidence;
     Overall.riskLevel := calculateRiskLevel overallVerdict avgConfidence |}.

End Double.


(** ** The web API handler ([telegram-bot/server.js], [POST /api/verify]) *)

Module Server.

Import VerificationSystem.

(** What the handler answers before it awaits anything. *)
Inductive reply : Type :=
  | Status400 (error : string).

(** The handler up to [await verificationSystem.verifyContent(...)].
    [validateContent] stands for [securityUtils.validateContent];
    [userId] and [sessionId] are the fields of the body, [None] when
    absent; [uuid] is what the handler's own [uuidv4()] would return and
    [uuid'] what the one inside [verifyContent] would. *)
Definition api_verify (validateContent : string -> bool) (this : system)
    (content : jsval) (userId sessionId : option string)
    (uuid uuid' : string) (now : Z)
    : system * (reply + (exn + Pending.pending)) :=
  let userId := default "web-user" userId in
  if negb (truthy content) || negb (typeof_string content) then
    (this, inl (Status400 "Content is required and must be a string"))
  else
    match content with
    | JString text =>
        (* Security validation *)
        if negb (validateContent text) then
          (this, inl (Status400
                        "Content contains potentially harmful elements"))
        else
          let verificationId := orUuid sessionId uuid in
          let '(this', r) :=
            verifyContent_call this content userId (Some verificationId)
                               uuid' now in
          (this', inr r)
    | _ =>
        (this, inl (Status400 "Content is required and must be a string"))
    end.

End Server.

(** ** The running system

    The object together with the calls to [verifyContent] that wait at
    their [await].  One action is one uninterrupted piece of execution:
    a call up to its [await], the continuation of a waiting call, or a
    retention sweep. *)

Module Runtime.

Import VerificationSystem.

Record world : Type := mkWorld
  { object : system;
    waiting : list Pending.pending }.

Inductive action : Type :=
  | Call (content : jsval) (userId : string)
         (verificationId : option string) (uuidv4 : string) (now : Z)
  | Settle (n : nat) (analyzer : Agent.agent -> settled Response.response)
           (now : Z)
  | Cleanup (now : Z).

(** [Settle n] resumes the [n]-th waiting call; there is nothing to
    resume when fewer calls wait. *)
Definition perform (w : world) (a : action) : world :=
  match a with
  | Call content userId verificationId uuidv4 now =>
      match verifyContent_call (object w) content userId verificationId
                               uuidv4 now with
      | (this, inr p) => mkWorld this (waiting w ++ [p])
      | (this, inl _) => mkWorld this (waiting w)
      end
  | Settle n analyzer now =>
      match nth_error (waiting w) n with
      | Some p =>
          mkWorld (fst (verifyContent_settle (object w) p analyzer now))
                  (firstn n (waiting w) ++ skipn (S n) (waiting w))
      | None => w
      end
  | Cleanup now =>
      mkWorld (fst (cleanupOldVerifications (object w) now)) (waiting w)
  end.

Definition run (actions : list action) (w : world) : world :=
  fold_left perform actions w.

Definition start : world := mkWorld initialize [].

Definition reachable (w : world) : Prop :=
  exists actions, w = run actions start.

End Runtime.

(** ** Notions the properties are stated with *)

Module Props.

Import VerificationSystem.

(** [selected] can be read off [configured] from left to right. *)
Fixpoint inOrder (configured selected : list string) : bool :=
  match configured with
  | [] => match selected with [] => true | _ :: _ => false end
  | y :: configured' =>
      match selected with
      | [] => true
      | x :: selected' =>
          if String.eqb x y then inOrder configured' selected'
          else inOrder configured' selected
      end
  end.

(** A selection as the specification words it: not empty, without
    duplicates, in the order of the configured identifiers, of at most
    four analyzers. *)
Definition selection_as_specified (configured selected : list string)
    : Prop :=
  selected <> [] /\ NoDup selected /\ selected `sublist_of` configured
  /\ (length selected <= 4)%nat.

(** The arithmetic mean of a list of numbers. *)
Definition mean (xs : list Q) : Q :=
  (fold_right Qplus 0 xs / inject_Z (Z.of_nat (length xs)))%Q.

Definition confidences (agentResults : list AgentResult.agentResult)
    : list Q :=
  map AgentResult.confidence agentResults.

(** The per-analyzer results of [result] are one for each analyzer the
    call selected, in the same order, and the overall result is the
    aggregate of exactly these. *)
Definition result_complete (result : Result.result) : Prop :=
  map AgentResult.agent (Result.agentResults result)
    = map Agent.id (Result.agents result)
  /\ Result.overallResult result
     = calculateOverallResult (Result.agentResults result).

(** The calls to [verifyContent] among [actions] that passed a string. *)
Definition countCalls (actions : list Runtime.action) : Z :=
  Z.of_nat (length (List.filter
    (fun a => match a with
              | Runtime.Call (JString _) _ _ _ _ => true
              | _ => false
              end) actions)).

(** An analyzer of the call threw. *)
Definition someAnalyzerRaises
    (analyzer : Agent.agent -> settled Response.response)
    (p : Pending.pending) : Prop :=
  exists agent t e, In agent (Pending.selectedAgents p)
                    /\ analyzer agent = (t, inl e).

(** The session was created before [oneHourAgo]. *)
Definition expired (oneHourAgo : Z) (v : Verification.verification) : bool :=
  match Verification.startTime v with
  | Some startTime => startTime <? oneHourAgo
  | None => false
  end.

(** A completed session holds a complete result. *)
Definition completed_with_result (kv : string * Verification.verification)
    : Prop :=
  Verification.status (snd kv) = "completed" ->
  exists result, Verification.result (snd kv) = Some result
                 /\ result_complete result.

(** The specification's rule for a reused identifier: when [id] names a
    session that is processing or completed, the call is rejected and
    the object is as before. *)
Definition duplicate_rejected (this : system) (content userId id : string)
    (uuidv4 : string) (now : Z) : Prop :=
  forall old,
    getVerification this id = Some old ->
    Verification.status old = "processing"
    \/ Verification.status old = "completed" ->
    exists e,
      verifyContent_call this (JString content) userId (Some id) uuidv4 now
      = (this, inl e).

(** The specification's rule for content that is empty or not a string:
    [verifyContent] rejects it and the object is as before. *)
Definition invalid_rejected (this : system) (content : jsval)
    (userId : string) (verificationId : option string) (uuidv4 : string)
    (now : Z) : Prop :=
  content = JString "" \/ typeof_string content = false ->
  exists e,
    verifyContent_call this content userId verificationId uuidv4 now
    = (this, inl e).

(** The specification's rule for a completed session: its per-analyzer
    results are one for each analyzer the session record lists. *)
Definition completed_matches_selection (v : Verification.verification)
    : Prop :=
  Verification.status v = "completed" ->
  exists result selected,
    Verification.result v = Some result
    /\ Verification.agents v = Some selected
    /\ map AgentResult.agent (Result.agentResults result)
       = map Agent.id selected.

(** Every session carries its creation time and no identifier occurs
    twice: what [set] and [verifyContent] maintain as long as no record
    is rebuilt from a deleted one. *)
Definition store_wellformed
    (m : list (string * Verification.verification)) : Prop :=
  NoDup (JsMap.keys m)
  /\ Forall (fun kv => is_Some (Verification.startTime (snd kv))) m.

Definition isCleanup (a : Runtime.action) : bool :=
  match a with Runtime.Cleanup _ => true | _ => false end.

(** The store is well formed and every waiting call still has its
    record. *)
Definition calls_recorded (w : Runtime.world) : Prop :=
  store_wellformed (activeVerifications (Runtime.object w))
  /\ Forall (fun p => is_Some (getVerification (Runtime.object w)
                                               (Pending.id p)))
            (Runtime.waiting w).

(** The action is a call to [verifyContent] under the identifier [id]. *)
Definition callsId (id : string) (a : Runtime.action) : bool :=
  match a with
  | Runtime.Call _ _ verificationId uuidv4 _ =>
      String.eqb (orUuid verificationId uuidv4) id
  | _ => false
  end.

(** The record of [id], if it has a creation time, lists [selected]. *)
Definition lists_selection (id : string) (selected : list Agent.agent)
    (this : system) : Prop :=
  forall v, getVerification this id = Some v ->
            is_Some (Verification.startTime v) ->
            Verification.agents v = Some selected.

(** The entries whose age the loop of the sweep examines: those before
    the first record without [startTime], at which it throws. *)
Fixpoint examined (entries : list (string * Verification.verification))
    : list (string * Verification.verification) :=
  match entries with
  | [] => []
  | (id, verification) :: rest =>
      match Verification.startTime verification with
      | Some _ => (id, verification) :: examined rest
      | None => []
      end
  end.

End Props.

(** ** Notions for the properties of the aggregate *)

Module DoubleProps.

Definition verdictsOf (agentResults : list Double.AgentResult.agentResult)
    : list string :=
  map Double.AgentResult.verdict agentResults.

Definition doublesOf (agentResults : list Double.AgentResult.agentResult)
    : list float :=
  map Double.AgentResult.confidence agentResults.

(** The mean as the code computes it: the numbers added from the left,
    each sum rounded to a double, and the last one divided by the
    count, the quotient rounded again. *)
Definition doubleMean (xs : list float) : float :=
  (fold_left PrimFloat.add xs 0 / JsNumber.ofNat (length xs))%float.

(** The arithmetic mean of finite doubles, exactly. *)
Definition exactMean (xs : list float) : option Q :=
  match xs with
  | [] => None
  | _ =>
      match fold_right (fun x sum =>
                          match JsNumber.valueOf x, sum with
                          | Some q, Some s => Some (q + s)%Q
                          | _, _ => None
                          end)
                       (Some 0%Q) xs with
      | Some sum => Some (Qred (sum / inject_Z (Z.of_nat (length xs))))
      | None => None
      end
  end.

(** The verdict of the specification, its mean being the arithmetic
    mean. *)
Definition specifiedVerdict
    (agentResults : list Double.AgentResult.agentResult) : option string :=
  let vs := verdictsOf agentResults in
  match exactMean (doublesOf agentResults) with
  | Some m =>
      Some (if VerificationSystem.includesVerdict vs "MALICIOUS"
               || VerificationSystem.includesVerdict vs "SCAM"
            then "DANGEROUS"
            else if VerificationSystem.includesVerdict vs "FALSE"
              then "FALSE"
            else if VerificationSystem.includesVerdict vs "TRUE"
                    && negb (Qle_bool m 80)
              then "VERIFIED"
            else if VerificationSystem.includesVerdict vs "SUSPICIOUS"
              then "SUSPICIOUS"
            else "UNVERIFIED")
  | None => None
  end.

(** The confidence of the specification: the arithmetic mean, rounded
    to the nearest integer. *)
Definition specifiedConfidence
    (agentResults : list Double.AgentResult.agentResult) : option Z :=
  match exactMean (doublesOf agentResults) with
  | Some m => Some (Math_round m)
  | None => None
  end.

(** The double lies in [0,100]. *)
Definition percentage (x : float) : Prop :=
  exists q, JsNumber.valueOf x = Some q /\ (0 <= q <= 100)%Q.

(** The double, as a number, exceeds the integer [k]: it is the positive
    infinity, or it is finite and its value is above [k]. *)
Definition exceeds (k : Z) (x : float) : Prop :=
  Prim2SF x = S754_infinity false
  \/ exists q, JsNumber.valueOf x = Some q /\ (inject_Z k < q)%Q.

(** *** Notions for the rounding of doubles

    The operations on doubles are those of the primitive floats, which
    the library specifies by the functions of [SpecFloat]: an exact
    result, held as a mantissa, an exponent and the place of what was
    cut off, is shifted to the precision of the format and rounded. *)

(** Something was cut off. *)
Definition inexact (mrs : shr_record) : bool := shr_r mrs || shr_s mrs.

(** [mrs'] is [mrs] shifted right by [k] binary digits. *)
Definition shifted (k : Z) (mrs mrs' : shr_record) : Prop :=
  shr_m mrs' = shr_m mrs / 2 ^ k
  /\ (inexact mrs' = true ->
      inexact mrs = true \/ shr_m mrs' * 2 ^ k <> shr_m mrs).

(** A non-negative spec float that does not exceed the integer [R]:
    a zero, or a positive number [m * 2 ^ e] with [e <= 0] and
    [m <= R * 2 ^ (- e)]. *)
Definition atMost (R : Z) (x : spec_float) : Prop :=
  match x with
  | S754_zero _ => True
  | S754_finite false m e => e <= 0 /\ Zpos m <= R * 2 ^ (- e)
  | _ => False
  end.

(** The spec float is the positive integer [n]. *)
Definition isCount (n : Z) (y : spec_float) : Prop :=
  match y with
  | S754_finite false m e => e <= 0 /\ Zpos m = n * 2 ^ (- e)
  | _ => False
  end.

End DoubleProps.


(** ** Sample runs *)

Module Samples.

Import VerificationSystem.
Import Runtime.

Definition nasa : string :=
  "NASA announces new Mars mission scheduled for 2026".

Definition mixed_content : string :=
  "Climate change causes 50% of wildfires! Learn more: https://climate-truth.info".

(** The analyzers of the source, [Math.random()] returning one half. *)
Definition stub (content : string) (started : Z)
    : Agent.agent -> settled Response.response :=
  stubAnalyzer loadScenarios content started (fun _ => (1 # 2, 1 # 2)%Q).

(** The same, but the fact checker throws after two seconds. *)
Definition factFails (content : string) (started : Z)
    : Agent.agent -> settled Response.response :=
  fun agent =>
    if String.eqb (Agent.id agent) "fact"
    then (started + 2000, inl (Error "fact database unreachable"))
    else stub content started agent.


(** One verification, run to completion. *)
Definition completedWorld : world :=
  run [ Call (JString nasa) "alice" (Some "s1") "uuid-1" 0;
        Settle 0 (stub nasa 0) 5000 ] start.

(** One verification, waiting for its analyzers. *)
Definition waitingWorld : world :=
  run [ Call (JString nasa) "alice" (Some "s1") "uuid-1" 0 ] start.

(** Two calls share the identifier [s1]; the first one's analyzers
    answer while the second still waits. *)
Definition racedWorld : world :=
  run [ Call (JString "breaking news") "alice" (Some "s1") "uuid-1" 0;
        Call (JString "lottery winner") "bob" (Some "s1") "uuid-2" 1000;
        Settle 0 (stub "breaking news" 0) 4100 ] start.

(** Two sessions, created 61 and 59 minutes before the time 3660000. *)
Definition agedWorld : world :=
  run [ Call (JString nasa) "alice" (Some "old") "uuid-1" 0;
        Settle 0 (stub nasa 0) 5000;
        Call (JString nasa) "bob" (Some "young") "uuid-2" 120000 ] start.



(** Three analyzer results as the aggregator reads them. *)
Definition threeResults : list Double.AgentResult.agentResult :=
  [ Double.AgentResult.mk "TRUE" 92.5;
    Double.AgentResult.mk "TRUE" 81;
    Double.AgentResult.mk "UNVERIFIED" 64.25 ].

End Samples.

(** ** The analyzers of the source, taken apart *)

Module Stub.

Import VerificationSystem.

(** [suspiciousPatterns.some(pattern =>
      content.toLowerCase().includes(pattern))] *)
Definition hasSuspiciousPattern (content : string) : bool :=
  existsb (fun pattern => includes (toLowerCase content) pattern)
          suspiciousPatterns.

(** [this.scenarios.find(s => s.content.toLowerCase() === contentLower)] *)
Definition findScenario (scenarios : list Scenario.scenario)
    (content : string) : option Scenario.scenario :=
  List.find (fun s => String.eqb (toLowerCase (Scenario.content s))
                                 (toLowerCase content)) scenarios.

(** The agent is one of the two the heuristic treats as fraud-oriented. *)
Definition fraudOriented (agent : Agent.agent) : bool :=
  String.eqb (Agent.id agent) "scam" || String.eqb (Agent.id agent) "phishing".

(** What [Promise.all] resolves to when the analyzers are those of the
    source. *)
Definition stubResults (scenarios : list Scenario.scenario)
    (content : string) (started : Z) (random : Agent.agent -> Q * Q)
    (selected : list Agent.agent) : list AgentResult.agentResult :=
  map (fun agent =>
         processAgent agent started
           (fst (stubAnalyzer scenarios content started random agent))
           (generateAgentResponse scenarios agent content
                                  (snd (random agent))))
      selected.

End Stub.

(** ** Regular expressions

    The part of the JavaScript regular expressions the source uses, as a
    backtracking matcher: alternatives are tried from left to right,
    [*] is greedy, and the first way to match that is found is the match. *)

Module JsRegExp.

(** An item of a character class: a character, a range, [\s] or [\w]. *)
Inductive item : Type :=
  | One (c : ascii)
  | Range (lo hi : ascii)
  | Space
  | Word.

Inductive regex : Type :=
  | Eps
  | Chr (c : ascii)
  | Class (negated : bool) (items : list item)
  | Dot
  | Boundary                       (* [\b] *)
  | Seq (r1 r2 : regex)
  | Alt (r1 r2 : regex)
  | Star (r : regex)
  | NotAhead (r : regex).          (* [(?!r)] *)

(** [r+], [r?], [r{n,}], a literal string, [a|b|...] *)
Definition Plus (r : regex) : regex := Seq r (Star r).
Definition Opt (r : regex) : regex := Alt r Eps.

Fixpoint AtLeast (n : nat) (r : regex) : regex :=
  match n with
  | O => Star r
  | S n' => Seq r (AtLeast n' r)
  end.

Fixpoint Lit (s : string) : regex :=
  match s with
  | EmptyString => Eps
  | String c s' => Seq (Chr c) (Lit s')
  end.

Fixpoint Seqs (rs : list regex) : regex :=
  match rs with
  | [] => Eps
  | [r] => r
  | r :: rs' => Seq r (Seqs rs')
  end.

Fixpoint Alts (rs : list regex) : regex :=
  match rs with
  | [] => Class false []
  | [r] => r
  | r :: rs' => Alt r (Alts rs')
  end.

(** [\w] is [[A-Za-z0-9_]]. *)
Definition isWordChar (c : ascii) : bool :=
  let n := N_of_ascii c in
  (((65 <=? n) && (n <=? 90)) || ((97 <=? n) && (n <=? 122))
   || ((48 <=? n) && (n <=? 57)) || (n =? 95))%N.

(** [.] matches all but the line terminators. *)
Definition isLineTerminator (c : ascii) : bool :=
  let n := N_of_ascii c in ((n =? 10) || (n =? 13))%N.

(** [Canonicalize] of a case-insensitive pattern without the [u] flag:
    the code unit of the upper-case form when that is one code unit.
    On the Latin-1 range: a-z and the accented small letters move down
    by 32, y-diaeresis goes to U+0178, the micro sign to U+039C, and the
    sharp s stays (its upper-case form has two code units). *)
Definition canonicalize (c : ascii) : N :=
  let n := N_of_ascii c in
  (if ((97 <=? n) && (n <=? 122))
      || ((224 <=? n) && (n <=? 254) && negb (n =? 247))
   then n - 32
   else if n =? 255 then 376
   else if n =? 181 then 924
   else n)%N.

Definition inItem (c : ascii) (i : item) : bool :=
  match i with
  | One a => Ascii.eqb a c
  | Range lo hi =>
      ((N_of_ascii lo <=? N_of_ascii c) && (N_of_ascii c <=? N_of_ascii hi))%N
  | Space => isRegexSpace c
  | Word => isWordChar c
  end.

(** The code units of the Latin-1 range that canonicalize like [c]. *)
Definition caseVariants (c : ascii) : list ascii :=
  let n := N_of_ascii c in
  (if ((97 <=? n) && (n <=? 122))
      || ((224 <=? n) && (n <=? 254) && negb (n =? 247))
   then [c; ascii_of_N (n - 32)]
   else if ((65 <=? n) && (n <=? 90))
           || ((192 <=? n) && (n <=? 222) && negb (n =? 215))
   then [c; ascii_of_N (n + 32)]
   else [c])%N.

(** A class holds [c] when one of its members canonicalizes like [c]. *)
Definition inClass (ignoreCase : bool) (items : list item) (c : ascii)
    : bool :=
  if ignoreCase
  then existsb (fun c' => existsb (inItem c') items) (caseVariants c)
  else existsb (inItem c) items.

Definition sameChar (ignoreCase : bool) (p c : ascii) : bool :=
  if ignoreCase then (canonicalize p =? canonicalize c)%N
  else Ascii.eqb p c.

(** [\b] holds between [prev] and the head of [s] when exactly one of
    them is a word character. *)
Definition atBoundary (prev : option ascii) (s : string) : bool :=
  let a := match prev with Some c => isWordChar c | None => false end in
  let b := match s with String c _ => isWordChar c | EmptyString => false end in
  xorb a b.

(** The iterations of [r*]: [step] matches [r] once.  The greedy choice
    comes first: one more iteration, then the rest; when that fails, the
    rest at once.  An iteration that consumes nothing is refused, so
    [fuel], the number of code units left, is never used up. *)
Fixpoint starLoop
    (step : option ascii -> nat -> string ->
            (option ascii -> nat -> string -> option nat) -> option nat)
    (k : option ascii -> nat -> string -> option nat)
    (fuel : nat) (prev : option ascii) (pos : nat) (s : string)
    : option nat :=
  match fuel with
  | O => k prev pos s
  | S fuel' =>
      match step prev pos s
              (fun prev' pos' s' =>
                 if (pos <? pos')%nat then starLoop step k fuel' prev' pos' s'
                 else None) with
      | Some e => Some e
      | None => k prev pos s
      end
  end.

(** The matcher, in continuation-passing style.  [prev] is the code unit
    before the position, [pos] the position, [s] what follows; [k] is
    called where [r] has matched, and its failure makes [r] look for
    another way to match.  The answer is the end of the whole match. *)
Fixpoint matchAt (ignoreCase : bool) (r : regex) (prev : option ascii)
    (pos : nat) (s : string)
    (k : option ascii -> nat -> string -> option nat) {struct r}
    : option nat :=
  match r with
  | Eps => k prev pos s
  | Chr p =>
      match s with
      | String c s' =>
          if sameChar ignoreCase p c then k (Some c) (S pos) s' else None
      | EmptyString => None
      end
  | Class negated items =>
      match s with
      | String c s' =>
          if xorb negated (inClass ignoreCase items c)
          then k (Some c) (S pos) s' else None
      | EmptyString => None
      end
  | Dot =>
      match s with
      | String c s' =>
          if isLineTerminator c then None else k (Some c) (S pos) s'
      | EmptyString => None
      end
  | Boundary => if atBoundary prev s then k prev pos s else None
  | Seq r1 r2 =>
      matchAt ignoreCase r1 prev pos s
        (fun prev' pos' s' => matchAt ignoreCase r2 prev' pos' s' k)
  | Alt r1 r2 =>
      match matchAt ignoreCase r1 prev pos s k with
      | Some e => Some e
      | None => matchAt ignoreCase r2 prev pos s k
      end
  | Star r' =>
      starLoop (matchAt ignoreCase r') k (String.length s) prev pos s
  | NotAhead r' =>
      match matchAt ignoreCase r' prev pos s (fun _ pos' _ => Some pos') with
      | Some _ => None
      | None => k prev pos s
      end
  end.

(** A regular expression object: its pattern and its flags. *)
Record RegExp : Type := mkRegExp
  { pattern : regex;
    ignoreCase : bool;
    global : bool }.

(** The match that starts at this very position, if any: its end. *)
Definition matchHere (re : RegExp) (prev : option ascii) (pos : nat)
    (s : string) : option nat :=
  matchAt (ignoreCase re) (pattern re) prev pos s (fun _ e _ => Some e).

(** The leftmost match at or after the position: its start and end. *)
Fixpoint searchFrom (re : RegExp) (prev : option ascii) (pos : nat)
    (s : string) : option (nat * nat) :=
  match matchHere re prev pos s with
  | Some e => Some (pos, e)
  | None =>
      match s with
      | EmptyString => None
      | String c s' => searchFrom re (Some c) (S pos) s'
      end
  end.

(** The same, the search starting [skip] code units further on. *)
Fixpoint searchAfter (re : RegExp) (skip : nat) (prev : option ascii)
    (pos : nat) (s : string) : option (nat * nat) :=
  match skip with
  | O => searchFrom re prev pos s
  | S skip' =>
      match s with
      | EmptyString => None
      | String c s' => searchAfter re skip' (Some c) (S pos) s'
      end
  end.

(** [re.exec(s)] as far as [lastIndex] and the position of the match go:
    a global expression starts at [lastIndex], fails beyond the end of
    [s], and leaves the end of the match, or 0, in [lastIndex]. *)
Definition exec (re : RegExp) (lastIndex : nat) (s : string)
    : option (nat * nat) * nat :=
  if global re then
    match searchAfter re lastIndex None 0 s with
    | Some (b, e) => (Some (b, e), e)
    | None => (None, O)
    end
  else (searchFrom re None 0 s, lastIndex).

(** [re.test(s)] and the [lastIndex] it leaves. *)
Definition test (re : RegExp) (lastIndex : nat) (s : string) : bool * nat :=
  let '(m, lastIndex') := exec re lastIndex s in
  (match m with Some _ => true | None => false end, lastIndex').

(** [s.replace(re, by)] for a global [re] and a replacement [by] without
    [$] patterns.  [inside] counts the code units of the current match
    that are still to be dropped. *)
Fixpoint replaceFrom (re : RegExp) (by_ : string) (inside : nat)
    (prev : option ascii) (pos : nat) (s : string) : string :=
  match inside with
  | S inside' =>
      match s with
      | EmptyString => EmptyString
      | String c s' => replaceFrom re by_ inside' (Some c) (S pos) s'
      end
  | O =>
      match matchHere re prev pos s with
      | Some e =>
          by_ ++
          match s with
          | EmptyString => EmptyString
          | String c s' =>
              if (e <=? pos)%nat
              then String c (replaceFrom re by_ O (Some c) (S pos) s')
              else replaceFrom re by_ (e - pos - 1) (Some c) (S pos) s'
          end
      | None =>
          match s with
          | EmptyString => EmptyString
          | String c s' => String c (replaceFrom re by_ O (Some c) (S pos) s')
          end
      end
  end.

Definition replace (re : RegExp) (by_ : string) (s : string) : string :=
  replaceFrom re by_ O None O s.

(** [(s.match(re) || []).length] for a global [re]. *)
Fixpoint countFrom (re : RegExp) (inside : nat) (prev : option ascii)
    (pos : nat) (s : string) : nat :=
  match inside with
  | S inside' =>
      match s with
      | EmptyString => O
      | String c s' => countFrom re inside' (Some c) (S pos) s'
      end
  | O =>
      match matchHere re prev pos s with
      | Some e =>
          S match s with
            | EmptyString => O
            | String c s' => countFrom re (e - pos - 1) (Some c) (S pos) s'
            end
      | None =>
          match s with
          | EmptyString => O
          | String c s' => countFrom re O (Some c) (S pos) s'
          end
      end
  end.

Definition matchCount (re : RegExp) (s : string) : nat :=
  countFrom re O None O s.

End JsRegExp.

(** ** More of the JavaScript strings *)

Module JsText.

(** [s.trimStart()], [s.trimEnd()], [s.trim()]: white space and line
    terminators go, which on the Latin-1 range is the class [\s]. *)
Fixpoint trimStart (s : string) : string :=
  match s with
  | EmptyString => EmptyString
  | String c s' => if isRegexSpace c then trimStart s' else s
  end.

Fixpoint trimEnd (s : string) : string :=
  match s with
  | EmptyString => EmptyString
  | String c s' =>
      match trimEnd s' with
      | EmptyString => if isRegexSpace c then EmptyString
                       else String c EmptyString
      | t => String c t
      end
  end.

Definition trim (s : string) : string := trimEnd (trimStart s).

(** [s.substring(0, n)] *)
Fixpoint substring0 (n : nat) (s : string) : string :=
  match n, s with
  | O, _ => EmptyString
  | S _, EmptyString => EmptyString
  | S n', String c s' => String c (substring0 n' s')
  end.

(** The code units of a string. *)
Fixpoint units (s : string) : list ascii :=
  match s with
  | EmptyString => []
  | String c s' => c :: units s'
  end.

End JsText.

(** ** The security utilities of the bot
    (the class [SecurityUtils]) *)

Module SecurityUtils.

Import JsRegExp JsText.

Definition chars (s : string) : list item := map One (units s).

Definition doubleQuote : ascii := ascii_of_N 34.

(** [this.suspiciousPatterns], in the order of the array, each under
    its source text. *)
Definition suspiciousPatterns : list RegExp :=
  [ (* /<script\b[^<]* (?:(?!<\/script>)<[^<]* )* <\/script>/gi, the
       blanks apart *)
    mkRegExp
      (Seqs [Lit "<script"; Boundary; Star (Class true (chars "<"));
             Star (Seqs [NotAhead (Lit "</script>"); Chr "<";
                         Star (Class true (chars "<"))]);
             Lit "</script>"])
      true true;
    (* /javascript:/gi *)
    mkRegExp (Lit "javascript:") true true;
    (* /on\w+\s*=/gi *)
    mkRegExp (Seqs [Lit "on"; Plus (Class false [Word]);
                    Star (Class false [Space]); Chr "="])
             true true;
    (* /(\b(SELECT|INSERT|UPDATE|DELETE|DROP|UNION|ALTER)\b)/gi *)
    mkRegExp
      (Seqs [Boundary;
             Alts [Lit "SELECT"; Lit "INSERT"; Lit "UPDATE"; Lit "DELETE";
                   Lit "DROP"; Lit "UNION"; Lit "ALTER"];
             Boundary])
      true true;
    (* /'.*OR.*'.*=.*'/gi *)
    mkRegExp
      (Seqs [Chr "'"; Star Dot; Lit "OR"; Star Dot; Chr "'"; Star Dot;
             Chr "="; Star Dot; Chr "'"])
      true true;
    (* /\bOR\b.*\b1\s*=\s*1\b/gi *)
    mkRegExp
      (Seqs [Boundary; Lit "OR"; Boundary; Star Dot; Boundary; Chr "1";
             Star (Class false [Space]); Chr "=";
             Star (Class false [Space]); Chr "1"; Boundary])
      true true;
    (* /[;&|`$()]/g *)
    mkRegExp (Class false (chars ";&|`$()")) false true;
    (* /\.\.\//g *)
    mkRegExp (Lit "../") false true;
    (* /[!@#$%^&*()_+=\[\]{}|\\:Q;'<>?,./~`]{10,}/g, with the double
       quote where Q stands *)
    mkRegExp
      (AtLeast 10
         (Class false (chars "!@#$%^&*()_+=[]{}|\:" ++ [One doubleQuote]
                       ++ chars ";'<>?,./~`")))
      false true ].

Definition maliciousDomains : list string :=
  ["bit.ly/malicious"; "tinyurl.com/scam"; "suspicious-domain.fake";
   "phishing-site.com"; "malware-host.net"].

(** The [lastIndex] of every expression of [suspiciousPatterns] once the
    constructor has run. *)
Definition fresh : list nat := map (fun _ => O) suspiciousPatterns.

(** The loop [for (const pattern of this.suspiciousPatterns)
      if (pattern.test(content)) return ...]: whether an expression
    matched, and the [lastIndex] of every expression afterwards.  The
    expressions after the one that matched are not run. *)
Fixpoint testPatterns (patterns : list RegExp) (lastIndex : list nat)
    (content : string) : list nat * bool :=
  match patterns, lastIndex with
  | re :: patterns', i :: lastIndex' =>
      let '(found, i') := test re i content in
      if found then (i' :: lastIndex', true)
      else let '(rest, hit) := testPatterns patterns' lastIndex' content in
           (i' :: rest, hit)
  | _, _ => (lastIndex, false)
  end.

(** [validateContent(content)]; [lastIndex] is the state the shared
    expressions are in. *)
Definition validateContent (lastIndex : list nat) (content : jsval)
    : list nat * bool :=
  match content with
  | JString content =>
      if String.eqb content "" then (lastIndex, false)
      else if 10000 <? Z.of_nat (String.length content) then (lastIndex, false)
      else
        (* Check for suspicious patterns *)
        let '(lastIndex', hit) :=
          testPatterns suspiciousPatterns lastIndex content in
        if hit then (lastIndex', false)
        else
          (* Check for malicious domains *)
          let lowerContent := toLowerCase content in
          if existsb (fun domain => includes lowerContent domain)
                     maliciousDomains
          then (lastIndex', false)
          else (lastIndex', true)
  | _ => (lastIndex, false)
  end.

(** [sanitizeInput(input)] *)
Definition sanitizeInput (input : jsval) : string :=
  match input with
  | JString input =>
      if String.eqb input "" then ""
      else
        let s := trim input in
        (* /[<>]/g *)
        let s := replace (mkRegExp (Class false (chars "<>")) false true)
                         "" s in
        (* /javascript:/gi *)
        let s := replace (mkRegExp (Lit "javascript:") true true) "" s in
        (* /on\w+\s*=/gi *)
        let s := replace
                   (mkRegExp (Seqs [Lit "on"; Plus (Class false [Word]);
                                    Star (Class false [Space]); Chr "="])
                             true true) "" s in
        substring0 (Z.to_nat 5000) s
  | _ => ""
  end.

(** [prepareContentForAnalysis(content)] on a string. *)
Definition prepareContentForAnalysis (content : string) : string :=
  if String.eqb content "" then ""
  else
    substring0 (Z.to_nat 5000)
      (* /\s+/g *)
      (replace (mkRegExp (Plus (Class false [Space])) false true) " "
               (trim content)).

(** *** Risk assessment *)

(** [this.riskKeywords.high], [.medium] and [.low] *)
Definition riskKeywords_high : list string :=
  ["click here to claim"; "urgent action required";
   "your account will be closed"; "verify your password";
   "suspicious activity detected"; "claim your prize now";
   "limited time offer"; "act now or lose"; "wire transfer";
   "bitcoin payment"; "cryptocurrency required"].

Definition riskKeywords_medium : list string :=
  ["exclusive offer"; "make money fast"; "work from home";
   "guaranteed profit"; "no experience needed"; "easy money";
   "secret method"; "insider information"].

Definition riskKeywords_low : list string :=
  ["special discount"; "limited availability"; "popular product";
   "recommended by experts"].

(** [(s.match(re) || []).length > n] and the like read the number of
    matches; [re.test(s)] on an expression that was just built starts
    at 0. *)
Definition matches (re : RegExp) (s : string) : bool :=
  fst (test re O s).

Definition digitsAndCommas : regex :=
  Plus (Class false [Range "0" "9"; One ","]).

(** [hasMultipleUrls(content)], as a condition *)
Definition hasMultipleUrls (content : string) : bool :=
  (* /https?:\/\/[^\s]+/g *)
  let urlPattern :=
    mkRegExp (Seqs [Lit "http"; Opt (Chr "s"); Lit "://";
                    Plus (Class true [Space])])
             false true in
  (2 <? matchCount urlPattern content)%nat.

(** [hasUrgencyIndicators(content)] *)
Definition hasUrgencyIndicators (content : string) : bool :=
  let urgencyWords :=
    ["urgent"; "immediately"; "asap"; "right now"; "expires today";
     "limited time"; "act fast"; "hurry"; "don't wait"; "emergency"] in
  let lowerContent := toLowerCase content in
  existsb (fun word => includes lowerContent word) urgencyWords.

(** [hasMoneyMentions(content)] *)
Definition hasMoneyMentions (content : string) : bool :=
  let moneyPatterns :=
    [ (* /\$[0-9,]+/g *)
      mkRegExp (Seq (Chr "$") digitsAndCommas) false true;
      (* /[0-9,]+\s*(dollars?|euros?|pounds?|bitcoin|btc|crypto)/gi *)
      mkRegExp
        (Seqs [digitsAndCommas; Star (Class false [Space]);
               Alts [Seq (Lit "dollar") (Opt (Chr "s"));
                     Seq (Lit "euro") (Opt (Chr "s"));
                     Seq (Lit "pound") (Opt (Chr "s"));
                     Lit "bitcoin"; Lit "btc"; Lit "crypto"]])
        true true;
      (* /(free\s*money|cash\s*prize|win\s*money|lottery)/gi *)
      mkRegExp
        (Alts [Seqs [Lit "free"; Star (Class false [Space]); Lit "money"];
               Seqs [Lit "cash"; Star (Class false [Space]); Lit "prize"];
               Seqs [Lit "win"; Star (Class false [Space]); Lit "money"];
               Lit "lottery"])
        true true ] in
  existsb (fun pattern => matches pattern content) moneyPatterns.

(** [hasSuspiciousFormatting(content)].  [caps / total > 0.3] is
    compared exactly, as [3 * total < 10 * caps]; the quotient of two
    lengths is never so close to 0.3 that a double would tell otherwise.
    No code unit of the Latin-1 range is in a class of [emojiPattern],
    so the count of emojis is 0 and its test never fires. *)
Definition hasSuspiciousFormatting (content : string) : bool :=
  (* Check for excessive capitalization *)
  let caps :=
    matchCount (mkRegExp (Class false [Range "A" "Z"]) false true)
               content in
  let total := String.length content in
  if (3 * total <? 10 * caps)%nat then true
  else
    (* Check for excessive exclamation marks *)
    let exclamations :=
      matchCount (mkRegExp (Chr "!") false true) content in
    if (3 <? exclamations)%nat then true
    else
      let emojis := O in
      if (5 <? emojis)%nat then true else false.

(** The loop [for (const keyword of keywords)
      if (lowerContent.includes(keyword)) riskScore += weight] *)
Definition keywordScore (weight : Z) (lowerContent : string)
    (keywords : list string) : Z :=
  fold_left (fun riskScore keyword =>
               if includes lowerContent keyword
               then riskScore + weight else riskScore)
            keywords 0.

(** [riskScore] of [assessRiskLevel] where the level is determined. *)
Definition riskScore (content : string) : Z :=
  let lowerContent := toLowerCase content in
  keywordScore 3 lowerContent riskKeywords_high
  + keywordScore 2 lowerContent riskKeywords_medium
  + keywordScore 1 lowerContent riskKeywords_low
  (* Additional risk factors *)
  + (if hasMultipleUrls content then 2 else 0)
  + (if hasUrgencyIndicators content then 2 else 0)
  + (if hasMoneyMentions content then 1 else 0)
  + (if hasSuspiciousFormatting content then 1 else 0).

(** [assessRiskLevel(content)] on a string *)
Definition assessRiskLevel (content : string) : string :=
  if String.eqb content "" then "UNKNOWN"
  else
    let riskScore := riskScore content in
    (* Determine risk level *)
    if 8 <=? riskScore then "CRITICAL"
    else if 5 <=? riskScore then "HIGH"
    else if 3 <=? riskScore then "MEDIUM"
    else if 1 <=? riskScore then "LOW"
    else "MINIMAL".

(** [requiresAdditionalVerification(content)] *)
Definition requiresAdditionalVerification (content : string) : bool :=
  let riskLevel := assessRiskLevel content in
  existsb (String.eqb riskLevel) ["HIGH"; "CRITICAL"].

(** *** The security report *)

(** The report without its [timestamp]. *)
Record report : Type := mkReport
  { contentLength : nat;
    riskLevel : string;
    isValid : bool;
    flags : list string }.

(** [if (condition) report.flags.push(flag)] *)
Definition pushIf (condition : bool) (flag : string) (flags : list string)
    : list string :=
  if condition then flags ++ [flag] else flags.

(** [generateSecurityReport(content)] on a string; [lastIndex] is the
    state the shared expressions are in. *)
Definition generateSecurityReport (lastIndex : list nat) (content : string)
    : list nat * report :=
  let riskLevel := assessRiskLevel content in
  let '(lastIndex, isValid) := validateContent lastIndex (JString content) in
  let flags := [] in
  (* Add specific flags *)
  let flags :=
    pushIf (hasMultipleUrls content) "Multiple URLs detected" flags in
  let flags :=
    pushIf (hasUrgencyIndicators content) "Urgency indicators present"
           flags in
  let flags :=
    pushIf (hasMoneyMentions content) "Financial content detected" flags in
  let flags :=
    pushIf (hasSuspiciousFormatting content)
           "Suspicious formatting patterns" flags in
  (* Check for suspicious patterns *)
  let '(lastIndex, hit) :=
    testPatterns suspiciousPatterns lastIndex content in
  let flags :=
    pushIf hit "Potentially malicious pattern detected" flags in
  (lastIndex, mkReport (String.length content) riskLevel isValid flags).

(** The recommendations, named: their texts hold signs from outside the
    Latin-1 range. *)
Inductive recommendation : Type :=
  | DoNotClick                (* HIGH RISK: Do not click any links ... *)
  | ReportToAuthorities       (* Consider reporting this content ... *)
  | VerifySender              (* Verify sender identity ... *)
  | VerifyEachUrl             (* Be cautious of multiple links ... *)
  | TakeTimeToVerify          (* Urgency tactics are common in scams ... *)
  | NoFinancialInformation    (* Never provide financial information ... *)
  | FormattingMayBeSpam       (* Excessive formatting may indicate spam ... *)
  | AppearsSafe               (* Content appears safe, but always verify ... *)
  | CrossCheck.               (* Cross-check with multiple reliable sources *)

(** [securityReport.flags.includes(flag)] *)
Definition flagged (securityReport : report) (flag : string) : bool :=
  existsb (String.eqb flag) (flags securityReport).

(** [generateSecurityRecommendations(securityReport)] *)
Definition generateSecurityRecommendations (securityReport : report)
    : list recommendation :=
  let recommendations := [] in
  let recommendations :=
    if String.eqb (riskLevel securityReport) "CRITICAL"
       || String.eqb (riskLevel securityReport) "HIGH"
    then recommendations ++ [DoNotClick; ReportToAuthorities; VerifySender]
    else recommendations in
  let recommendations :=
    if flagged securityReport "Multiple URLs detected"
    then recommendations ++ [VerifyEachUrl] else recommendations in
  let recommendations :=
    if flagged securityReport "Urgency indicators present"
    then recommendations ++ [TakeTimeToVerify] else recommendations in
  let recommendations :=
    if flagged securityReport "Financial content detected"
    then recommendations ++ [NoFinancialInformation] else recommendations in
  let recommendations :=
    if flagged securityReport "Suspicious formatting patterns"
    then recommendations ++ [FormattingMayBeSpam] else recommendations in
  match recommendations with
  | [] => [AppearsSafe; CrossCheck]
  | _ => recommendations
  end.

(** *** Rate limiting *)

(** An element of [requests]: a number, which is what the first filter
    of [shouldAllowRequest] takes it for, or an object with a [userId],
    which is what the second one takes it for. *)
Inductive request : Type :=
  | Stamp (timestamp : Z)
  | Entry (userId : Z) (timestamp : Z).

(** [now - r]: [NaN] ([None]) when [r] is an object. *)
Definition elapsed (now : Z) (r : request) : option Z :=
  match r with
  | Stamp timestamp => Some (now - timestamp)
  | Entry _ _ => None
  end.

(** [a < b], which is false of [NaN]. *)
Definition js_lt (a : option Z) (b : Z) : bool :=
  match a with
  | Some a => a <? b
  | None => false
  end.

(** [r.userId]: [undefined] ([None]) when [r] is a number. *)
Definition userIdOf (r : request) : option Z :=
  match r with
  | Stamp _ => None
  | Entry userId _ => Some userId
  end.

(** [a === b] for a number [b]. *)
Definition strictEq (a : option Z) (b : Z) : bool :=
  match a with
  | Some a => a =? b
  | None => false
  end.

(** [shouldAllowRequest(userId, requests, maxRequests, timeWindow)] at
    the time [now]. *)
Definition shouldAllowRequest (userId : Z) (requests : list request)
    (maxRequests timeWindow now : Z) : bool :=
  (* Clean old requests *)
  let recentRequests :=
    List.filter (fun timestamp => js_lt (elapsed now timestamp) timeWindow)
                requests in
  (* Check if user has exceeded rate limit *)
  let userRequests :=
    List.filter (fun req => strictEq (userIdOf req) userId)
                recentRequests in
  Z.of_nat (length userRequests) <? maxRequests.

End SecurityUtils.

(** ** The chat handlers up to the verification
    ([telegram-bot/modules/bot-commands.js], [handleVerify], and the
    class [MessageHandler]) *)

Module ChatHandlers.

Import JsText.

Inductive handled : Type :=
  | AskForContent               (* the message that asks for content *)
  | TooLong                     (* the message about the length *)
  | Verify (content : string).  (* the verification is started *)

(** [handleVerify(msg, content)]; [None] is [undefined]. *)
Definition handleVerify (content : option string) : handled :=
  match content with
  | None => AskForContent
  | Some content =>
      if String.eqb content "" || (String.length (trim content) =? 0)%nat
      then AskForContent
      else if 5000 <? Z.of_nat (String.length content) then TooLong
      else Verify (trim content)
  end.

(** [handleTextMessage(msg)] on [msg.text]. *)
Definition handleTextMessage (text : option string) : handled :=
  match text with
  | None => AskForContent
  | Some text =>
      if String.eqb text "" || (String.length (trim text) <? 3)%nat
      then AskForContent
      else if 5000 <? Z.of_nat (String.length text) then TooLong
      else Verify text
  end.

(** [detectContentType(text)]; [isURL] stands for [validator.isURL]. *)
Definition detectContentType (isURL : string -> bool) (text : string)
    : string :=
  let lowerText := toLowerCase text in
  (* URL detection *)
  if isURL text || includes text "http" || includes text "www." then "url"
  else
    (* News keywords *)
    let newsKeywords :=
      ["breaking"; "news"; "report"; "journalist"; "headline";
       "exclusive"] in
    if existsb (fun keyword => includes lowerText keyword) newsKeywords
    then "news"
    else
      (* Scientific keywords *)
      let scienceKeywords :=
        ["study"; "research"; "scientist"; "data"; "percent";
         "clinical trial"] in
      if existsb (fun keyword => includes lowerText keyword) scienceKeywords
      then "scientific"
      else
        (* Financial/scam keywords *)
        let financialKeywords :=
          ["money"; "lottery"; "winner"; "prize"; "investment";
           "bitcoin"] in
        if existsb (fun keyword => includes lowerText keyword)
                   financialKeywords
        then "financial"
        else "general".

End ChatHandlers.

(** ** The web API handler with the validator it shares
    ([telegram-bot/server.js]: one [securityUtils] serves every
    request) *)

Module SharedValidator.

Import VerificationSystem.

(** [POST /api/verify] with [securityUtils.validateContent]; [lastIndex]
    is the state its expressions are in.  The validator runs only on
    a string that is not empty. *)
Definition api_verify (lastIndex : list nat) (this : system)
    (content : jsval) (userId sessionId : option string)
    (uuid uuid' : string) (now : Z)
    : list nat * (system * (Server.reply + (exn + Pending.pending))) :=
  if negb (truthy content) || negb (typeof_string content) then
    (lastIndex,
     Server.api_verify (fun _ => true) this content userId sessionId
                       uuid uuid' now)
  else
    let '(lastIndex', valid) :=
      SecurityUtils.validateContent lastIndex content in
    (lastIndex',
     Server.api_verify (fun _ => valid) this content userId sessionId
                       uuid uuid' now).

End SharedValidator.

(** ** Notions the further properties are stated with *)

Module MoreProps.

Import VerificationSystem.
Import AgentSelector.
Import Runtime.
Import JsRegExp.
Import JsText.

(** The overall verdict when every analyzer says [v] with confidence [q]. *)
Definition verdictOfUniform (v : string) (q : Q) : string :=
  if String.eqb v "MALICIOUS" || String.eqb v "SCAM" then "DANGEROUS"
  else if String.eqb v "FALSE" then "FALSE"
  else if String.eqb v "TRUE" && negb (Qle_bool q 80) then "VERIFIED"
  else if String.eqb v "SUSPICIOUS" then "SUSPICIOUS"
  else "UNVERIFIED".

(** [keywords.some(keyword => contentLower.includes(keyword))] for the
    keywords [triggers] lists under [agentId]. *)
Definition triggered (contentLower agentId : string) : bool :=
  match List.find (fun entry => String.eqb (fst entry) agentId) triggers with
  | Some entry =>
      existsb (fun keyword => includes contentLower keyword) (snd entry)
  | None => false
  end.

(** The web selection, said in one piece: [phishing] first when the
    content shows a URL, then every agent one of whose triggers occurs,
    in the order of declaration; the default pair when that is empty;
    the first four of the lot. *)
Definition selectionInWords (content : string) : list string :=
  let contentLower := toLowerCase content in
  let url := matchesUrl contentLower in
  let matched :=
    (if url then ["phishing"] else [])
    ++ List.filter (fun agentId =>
                      triggered contentLower agentId
                      && negb (url && String.eqb agentId "phishing"))
                   AGENTS in
  firstn 4 (match matched with [] => ["news"; "fact"] | _ => matched end).

(** The record [verifyContent] writes when it is called. *)
Definition recordOfCall (p : Pending.pending) (userId : string)
    : Verification.verification :=
  {| Verification.userId := Some userId;
     Verification.content := Some (Pending.content p);
     Verification.agents := Some (Pending.selectedAgents p);
     Verification.startTime := Some (Pending.started p);
     Verification.status := "processing";
     Verification.result := None;
     Verification.error := None |}.

(** A session marked [processing] belongs to a call that still waits. *)
Definition processing_is_waiting (w : world) : Prop :=
  forall id v,
    getVerification (object w) id = Some v ->
    Verification.status v = "processing" ->
    exists p userId,
      In p (waiting w) /\ Pending.id p = id /\ v = recordOfCall p userId.

(** What the three writers leave behind. *)
Definition record_shape (v : Verification.verification) : Prop :=
  (Verification.status v = "processing"
   /\ Verification.result v = None /\ Verification.error v = None
   /\ is_Some (Verification.startTime v))
  \/ (Verification.status v = "completed"
      /\ is_Some (Verification.result v)
      /\ is_Some (Verification.startTime v))
  \/ (Verification.status v = "failed" /\ is_Some (Verification.error v)).

(** The [lastIndex] of expressions that are all at the start. *)
Definition zeros (patterns : list RegExp) : list nat :=
  map (fun _ => O) patterns.

(** The content matches one expression of the validator, [re], and that
    one once: the match ends at [e], and nothing matches from there. *)
Definition tripsOnce (content : string) (before : list RegExp)
    (re : RegExp) (after : list RegExp) (e : nat) : Prop :=
  SecurityUtils.suspiciousPatterns = before ++ re :: after
  /\ Forall (fun r => searchFrom r None 0 content = None) (before ++ after)
  /\ (exists b, searchFrom re None 0 content = Some (b, e))
  /\ searchAfter re e None 0 content = None.

(** A pattern character whose matches, letter case ignored, are the code
    units that [toLowerCase] takes to it. *)
Definition lowerStable (p : ascii) : Prop :=
  forall c, sameChar true p c = Ascii.eqb p (toLowerCase_unit c).

(** [/\s+/g] *)
Definition spaces : RegExp :=
  mkRegExp (Plus (Class false [Space])) false true.

(** The white space a string starts with, counted. *)
Fixpoint leadingSpaces (s : string) : nat :=
  match s with
  | String c s' => if isRegexSpace c then S (leadingSpaces s') else O
  | EmptyString => O
  end.

Definition startsWithSpace (s : string) : bool :=
  match s with
  | String c _ => isRegexSpace c
  | EmptyString => false
  end.

(** All white space is single blanks. *)
Fixpoint normalised (s : string) : bool :=
  match s with
  | EmptyString => true
  | String c s' =>
      (if isRegexSpace c
       then Ascii.eqb c " " && negb (startsWithSpace s') else true)
      && normalised s'
  end.

(** The code units that are no white space, in order. *)
Definition nonSpaces (s : string) : list ascii :=
  List.filter (fun c => negb (isRegexSpace c)) (units s).

(** The flags of a report that the recommendations read. *)
Definition adviceFlags : list string :=
  ["Multiple URLs detected"; "Urgency indicators present";
   "Financial content detected"; "Suspicious formatting patterns"].

End MoreProps.

(** ** Proof automation *)

(** The outcome of every [keywords.some(...)] becomes a boolean variable,
    then all of them are split. *)
Ltac name_flags :=
  repeat match goal with
         | |- context [existsb ?f ?l] => generalize (existsb f l); intro
         end.

Ltac case_flags :=
  repeat match goal with b : bool |- _ => destruct b end.

Ltac solve_listed inOrder_sound :=
  repeat match goal with
         | |- _ /\ _ => split
         | |- _ <> [] => discriminate
         | |- NoDup _ => apply (bool_decide_unpack _); vm_compute; exact I
         | |- (_ <= _)%nat => vm_compute; lia
         | |- _ `sublist_of` _ => apply inOrder_sound; vm_compute; reflexivity
         | |- exists rest, _ :: _ = _ :: rest /\ _ => eexists; split; [reflexivity|]
         end.

(** A guard of the verdict cascade is turned into the fact it decides. *)
Ltac settle_flag H :=
  match type of H with
  | true = true <-> ?P => assert P by (apply H; reflexivity)
  | false = true <-> ?P =>
      assert (~ P) by (let HP := fresh in intros HP; apply H in HP; discriminate)
  end; clear H.

Ltac finish_cases :=
  repeat split; intros; try reflexivity; contradiction.


(** * Properties *)

Import Props.
Import DoubleProps.
Import AgentSelector.
Import VerificationSystem.
Import Runtime.

(** ** Strings *)

Lemma startsWith_toLowerCase s k :
  startsWith s k = true ->
  startsWith (toLowerCase s) (toLowerCase k) = true.
Proof.
  revert s. induction k as [|a k IH]; intros s H; [reflexivity|].
  destruct s as [|b s]; [discriminate|]. simpl in *.
  apply andb_true_iff in H as [Hab Hk].
  apply Ascii.eqb_eq in Hab. subst b.
  rewrite Ascii.eqb_refl. simpl. auto.
Qed.

Lemma includes_toLowerCase s k :
  includes s k = true ->
  includes (toLowerCase s) (toLowerCase k) = true.
Proof.
  induction s as [|b s IH]; simpl; intros H.
  - apply orb_true_iff in H as [H|H]; [|discriminate].
    apply startsWith_toLowerCase in H. simpl in H. rewrite H. reflexivity.
  - apply orb_true_iff in H as [H|H].
    + apply startsWith_toLowerCase in H. simpl in H. rewrite H. reflexivity.
    + rewrite (IH H). apply orb_true_r.
Qed.

Lemma startsWith_app s k k' :
  startsWith s (k ++ k') = true -> startsWith s k = true.
Proof.
  revert s. induction k as [|a k IH]; intros s H; [reflexivity|].
  destruct s as [|b s]; [discriminate|]. simpl in *.
  apply andb_true_iff in H as [Hab Hk]. rewrite Hab. simpl. eauto.
Qed.

Lemma includes_app s k k' :
  includes s (k ++ k') = true -> includes s k = true.
Proof.
  induction s as [|b s IH]; simpl; intros H.
  - apply orb_true_iff in H as [H|H]; [|discriminate].
    apply startsWith_app in H. rewrite H. reflexivity.
  - apply orb_true_iff in H as [H|H].
    + apply startsWith_app in H. rewrite H. reflexivity.
    + rewrite (IH H). apply orb_true_r.
Qed.

(** Content that shows [http://] or [https://], in whatever case, shows
    [http] once lower-cased. *)
Lemma url_scheme_includes_http content :
  includes content "http://" = true \/ includes content "https://" = true ->
  includes (toLowerCase content) "http" = true.
Proof.
  intros [H|H]; apply includes_toLowerCase in H.
  - apply (includes_app _ "http" "://"). exact H.
  - apply (includes_app _ "http" "s://"). exact H.
Qed.

(** ** Agent selection *)

Lemma inOrder_sublist configured selected :
  inOrder configured selected = true <-> selected `sublist_of` configured.
Proof.
  split.
  - revert selected.
    induction configured as [|y k IH]; intros [|x l] H; simpl in H;
      try discriminate; try apply sublist_nil_l.
    destruct (String.eqb_spec x y) as [->|Hxy].
    + apply sublist_skip, IH, H.
    + apply sublist_cons, IH, H.
  - revert selected.
    induction configured as [|y k IH]; intros l H.
    + apply sublist_nil_r in H. subst l. reflexivity.
    + destruct l as [|x l]; [reflexivity|]. simpl.
      apply sublist_cons_r in H as [H|(l' & Heq & H)].
      * destruct (String.eqb_spec x y) as [->|Hxy]; [|auto].
        apply IH. etrans; [|exact H]. by apply sublist_cons.
      * injection Heq as -> <-. rewrite String.eqb_refl. auto.
Qed.

Lemma fold_trigger_step contentLower ts activeAgents :
  fold_left (trigger_step contentLower) ts activeAgents
  = fold_left flag_step (flags contentLower ts) activeAgents.
Proof.
  revert activeAgents.
  induction ts as [|[agentId keywords] ts IH]; intros acc; [reflexivity|].
  simpl. rewrite IH. reflexivity.
Qed.

Lemma determineActiveAgents_shape content :
  let web := determineActiveAgents content in
  web <> [] /\ NoDup web /\ (length web <= 4)%nat
  /\ if matchesUrl (toLowerCase content)
     then exists rest, web = "phishing" :: rest /\ rest `sublist_of` AGENTS
     else web `sublist_of` AGENTS.
Proof.
  unfold determineActiveAgents. rewrite fold_trigger_step.
  generalize (toLowerCase content) as contentLower. intros contentLower.
  generalize (matchesUrl contentLower) as url. intros url.
  cbn [flags map triggers fst snd]. name_flags.
  case_flags; cbn; solve_listed inOrder_sublist.
Qed.

Lemma determineActiveAgents_http content :
  includes (toLowerCase content) "http" = true ->
  In "phishing" (determineActiveAgents content).
Proof.
  unfold determineActiveAgents. rewrite fold_trigger_step.
  generalize (toLowerCase content) as contentLower. intros contentLower Hhttp.
  generalize (matchesUrl contentLower) as url. intros url.
  cbn [flags map triggers fst snd].
  assert (Hhit : existsb (fun keyword => includes contentLower keyword)
                   ["click"; "link"; "http"; "www"; "login"; "password";
                    "secure"; "verify"; "account"; "suspended"; "expired"]
                 = true).
  { apply existsb_exists. exists "http". split; [|exact Hhttp].
    simpl. tauto. }
  rewrite Hhit. clear Hhit Hhttp. name_flags.
  case_flags; cbn; auto 6.
Qed.

(** The bot's selector *)

Lemma filter_Boolean_Some l : filter_Boolean (map Some l) = l.
Proof.
  unfold filter_Boolean. induction l as [|a l IH]; [reflexivity|].
  simpl. unfold omap in IH. simpl in IH. rewrite IH. reflexivity.
Qed.

Lemma List_filter_sublist {A} (f : A -> bool) (l : list A) :
  List.filter f l `sublist_of` l.
Proof.
  induction l as [|a l IH]; simpl; [constructor|].
  destruct (f a); by constructor.
Qed.

Lemma map_sublist {A B} (f : A -> B) (l k : list A) :
  l `sublist_of` k -> map f l `sublist_of` map f k.
Proof. induction 1; simpl; by constructor. Qed.

Lemma selectAgents_cases content :
  let selected := selectAgents loadAgents content in
  (selected <> [] /\
   selected = List.filter (hasKeyword (toLowerCase content)) loadAgents)
  \/ (List.filter (hasKeyword (toLowerCase content)) loadAgents = [] /\
      map Agent.id selected = ["news"; "fact"]).
Proof.
  unfold selectAgents.
  destruct (List.filter (hasKeyword (toLowerCase content)) loadAgents)
    as [|a l] eqn:Hsel.
  - right. split; reflexivity.
  - left. cbn [length Nat.eqb]. rewrite filter_Boolean_Some.
    split; [discriminate|reflexivity].
Qed.

Lemma selectAgents_shape content :
  let bot := map Agent.id (selectAgents loadAgents content) in
  bot <> [] /\ NoDup bot /\ bot `sublist_of` map Agent.id loadAgents.
Proof.
  intros bot.
  assert (Hsub : bot `sublist_of` map Agent.id loadAgents).
  { subst bot. destruct (selectAgents_cases content) as [[_ ->]|[_ ->]].
    - apply map_sublist, List_filter_sublist.
    - apply inOrder_sublist. vm_compute. reflexivity. }
  split; [|split]; [| |exact Hsub].
  - subst bot. destruct (selectAgents_cases content) as [[Hne _]|[_ ->]];
      [|discriminate].
    destruct (selectAgents loadAgents content); [done|discriminate].
  - eapply sublist_NoDup; [|exact Hsub].
    apply (bool_decide_unpack _). vm_compute. exact I.
Qed.

(** C2, as the code has it.  Both selectors return a list of configured
    analyzer identifiers that is not empty and has no duplicates.  The
    bot's [selectAgents] keeps the order of declaration.  The web's
    [determineActiveAgents] returns at most four identifiers; they are
    in the order of declaration, except that [phishing] comes first
    when the content matches the URL pattern. *)
Theorem selection_by_design content :
  let bot := map Agent.id (selectAgents loadAgents content) in
  let web := determineActiveAgents content in
  (bot <> [] /\ NoDup bot /\ bot `sublist_of` map Agent.id loadAgents)
  /\ (web <> [] /\ NoDup web /\ (length web <= 4)%nat
      /\ (forall id, In id web -> In id AGENTS)
      /\ if matchesUrl (toLowerCase content)
         then exists rest,
                web = "phishing" :: rest /\ rest `sublist_of` AGENTS
         else web `sublist_of` AGENTS).
Proof.
  split; [apply selectAgents_shape|].
  destruct (determineActiveAgents_shape content) as (Hne & Hnd & Hcap & Ho).
  repeat split; try assumption.
  intros id Hin. apply list_elem_of_In. apply list_elem_of_In in Hin.
  destruct (matchesUrl (toLowerCase content)).
  - destruct Ho as (rest & Hweb & Hsub). rewrite Hweb in Hin.
    apply elem_of_cons in Hin as [->|Hin].
    + apply list_elem_of_In. vm_compute. tauto.
    + eapply elem_of_sublist; eassumption.
  - eapply elem_of_sublist; eassumption.
Qed.

(** C2 as stated fails: the bot selects five analyzers for content that
    shows keywords of five of them, and the web selector puts
    [phishing] before [news] for content with a URL. *)
Lemma selection_as_specified_fails :
  ~ selection_as_specified
      (map Agent.id loadAgents)
      (map Agent.id
         (selectAgents loadAgents "breaking study lottery click photo"))
  /\ ~ selection_as_specified AGENTS
         (determineActiveAgents "news http://x").
Proof.
  split.
  - intros (_ & _ & _ & Hcap). vm_compute in Hcap. lia.
  - intros (_ & _ & Horder & _). apply inOrder_sublist in Horder.
    vm_compute in Horder. discriminate.
Qed.

(** The web selector includes [phishing] for every content that shows
    [http://] or [https://]. *)
Lemma determineActiveAgents_includes_phishing content :
  includes content "http://" = true \/ includes content "https://" = true ->
  In "phishing" (determineActiveAgents content).
Proof.
  intros Hurl. apply determineActiveAgents_http, url_scheme_includes_http, Hurl.
Qed.

(** C3 at the failing input.  The demo scenario [mixed_content] carries
    an [https://] link; the bot's [selectAgents] falls back to news and
    fact for it and leaves [phishing] out, where the web selector
    includes it. *)
Theorem selectAgents_misses_link :
  includes Samples.mixed_content "https://" = true
  /\ map Agent.id (selectAgents loadAgents Samples.mixed_content)
     = ["news"; "fact"]
  /\ In "phishing" (determineActiveAgents Samples.mixed_content).
Proof.
  split; [vm_compute; reflexivity|]. split; [vm_compute; reflexivity|].
  apply determineActiveAgents_includes_phishing. right.
  vm_compute. reflexivity.
Qed.

(** ** The aggregator *)

Lemma includesVerdict_In vs v : includesVerdict vs v = true <-> In v vs.
Proof.
  unfold includesVerdict. rewrite existsb_exists. split.
  - intros (x & Hx & Heq). apply String.eqb_eq in Heq. by subst.
  - intros H. exists v. split; [done|apply String.eqb_refl].
Qed.

Lemma includesVerdict_not_In vs v : includesVerdict vs v = false <-> ~ In v vs.
Proof.
  rewrite <- includesVerdict_In. destruct (includesVerdict vs v); split; congruence.
Qed.

Lemma reduce_sum (rs : list AgentResult.agentResult) (a : Q) :
  (fold_left (fun sum r => sum + AgentResult.confidence r) rs a
   == a + fold_right Qplus 0 (confidences rs))%Q.
Proof.
  revert a. induction rs as [|r rs IH]; intros a; simpl.
  - lra.
  - rewrite IH. lra.
Qed.

Lemma avgConfidence_mean rs :
  rs <> [] ->
  exists a, avgConfidence rs = Some a /\ (a == mean (confidences rs))%Q.
Proof.
  intros Hne. destruct rs as [|r rs]; [done|].
  eexists. split; [reflexivity|].
  unfold mean, confidences. rewrite length_map.
  rewrite reduce_sum. unfold confidences.
  apply Qmult_comp; [lra|reflexivity].
Qed.

Lemma js_gt_Some a m y : (a == m)%Q -> js_gt (Some a) y = true <-> (y < m)%Q.
Proof.
  intros Heq. unfold js_gt. rewrite negb_true_iff.
  rewrite <- not_true_iff_false, Qle_bool_iff, Heq.
  split; [apply Qnot_le_lt|apply Qlt_not_le].
Qed.

Lemma Math_round_nearest (x : Q) :
  (inject_Z (Math_round x) - (1 # 2) <= x
   /\ x < inject_Z (Math_round x) + (1 # 2))%Q.
Proof.
  unfold Math_round.
  pose proof (Qfloor_le (x + (1 # 2))) as Hle.
  pose proof (Qlt_floor (x + (1 # 2))) as Hlt.
  rewrite inject_Z_plus in Hlt. change (inject_Z 1) with 1%Q in Hlt.
  split; lra.
Qed.

Lemma Math_round_bounds (x : Q) :
  (0 <= x <= 100)%Q -> 0 <= Math_round x <= 100.
Proof.
  intros [H0 H100]. unfold Math_round. split.
  - change 0 with (Qfloor (0 + (1 # 2))). apply Qfloor_resp_le. lra.
  - change 100 with (Qfloor (100 + (1 # 2))). apply Qfloor_resp_le. lra.
Qed.

Lemma Math_round_comp (x y : Q) : (x == y)%Q -> Math_round x = Math_round y.
Proof. intros H. unfold Math_round. apply Qfloor_comp. rewrite H. reflexivity. Qed.

Lemma avgConfidence_doubleMean agentResults :
  Double.avgConfidence agentResults = doubleMean (doublesOf agentResults).
Proof.
  unfold Double.avgConfidence, doubleMean, doublesOf. cbv zeta.
  rewrite length_map. f_equal.
  generalize 0%float as sum.
  induction agentResults as [|r rs IH]; intros sum; [reflexivity|].
  cbn [fold_left map]. apply IH.
Qed.

Lemma Math_round_value x q :
  JsNumber.valueOf x = Some q ->
  JsNumber.Math_round x = JsNumber.Integer (Math_round q).
Proof. intros Hq. unfold JsNumber.Math_round. by rewrite Hq. Qed.

(** *** Rounding in binary64 never passes a bound that is an integer *)

Lemma digits2_pos_bounds (p : positive) :
  2 ^ (Zpos (digits2_pos p) - 1) <= Zpos p < 2 ^ Zpos (digits2_pos p).
Proof.
  induction p as [p IH|p IH|]; cbn [digits2_pos].
  - rewrite Pos2Z.inj_succ.
    replace (Z.succ (Zpos (digits2_pos p)) - 1)
      with (Z.succ (Zpos (digits2_pos p) - 1)) by lia.
    rewrite !Z.pow_succ_r by lia. lia.
  - rewrite Pos2Z.inj_succ.
    replace (Z.succ (Zpos (digits2_pos p)) - 1)
      with (Z.succ (Zpos (digits2_pos p) - 1)) by lia.
    rewrite !Z.pow_succ_r by lia. lia.
  - cbn. lia.
Qed.

Lemma shr_1_shifted mrs : 0 <= shr_m mrs -> shifted 1 mrs (shr_1 mrs).
Proof.
  destruct mrs as [m r s]. cbn [shr_m]. intros Hm. unfold shifted.
  change (2 ^ 1) with 2.
  destruct m as [|p|p]; [| |lia].
  - cbn. split; [reflexivity|]. unfold inexact. cbn. intros H. by left.
  - destruct p as [p|p|]; cbn [shr_1 shr_m inexact shr_r shr_s].
    + split.
      * rewrite Pos2Z.inj_xI. apply Z.div_unique with 1; lia.
      * intros _. right. lia.
    + split.
      * rewrite Pos2Z.inj_xO. apply Z.div_unique with 0; lia.
      * cbn [orb]. intros H. by left.
    + split; [reflexivity|]. intros _. right. lia.
Qed.

Lemma shifted_nonneg k mrs mrs' :
  0 <= k -> 0 <= shr_m mrs -> shifted k mrs mrs' -> 0 <= shr_m mrs'.
Proof.
  intros Hk Hm [-> _]. apply Z.div_pos; [exact Hm|]. apply Z.pow_pos_nonneg; lia.
Qed.

Lemma shifted_trans k1 k2 a b c :
  0 <= k1 -> 0 <= k2 -> 0 <= shr_m a ->
  shifted k1 a b -> shifted k2 b c -> shifted (k1 + k2) a c.
Proof.
  intros Hk1 Hk2 Ha [Hb Hib] [Hc Hic].
  assert (H1 : 0 < 2 ^ k1) by (apply Z.pow_pos_nonneg; lia).
  assert (H2 : 0 < 2 ^ k2) by (apply Z.pow_pos_nonneg; lia).
  split.
  - rewrite Hc, Hb, Z.pow_add_r by lia. apply Z.div_div; lia.
  - intros Hi. destruct (Hic Hi) as [Hi'|Hne].
    + destruct (Hib Hi') as [Hi''|Hne]; [by left|].
      right. intros Heq. apply Hne. rewrite Hb.
      rewrite <- Heq, Z.pow_add_r by lia.
      rewrite (Z.mul_comm (2 ^ k1)), Z.mul_assoc, Z.div_mul by lia.
      reflexivity.
    + right. intros Heq. apply Hne. rewrite Hb.
      rewrite <- Heq, Z.pow_add_r by lia.
      rewrite (Z.mul_comm (2 ^ k1)), Z.mul_assoc, Z.div_mul by lia.
      reflexivity.
Qed.

Lemma iter_pos_shifted p mrs :
  0 <= shr_m mrs -> shifted (Zpos p) mrs (SpecFloat.iter_pos shr_1 p mrs).
Proof.
  revert mrs.
  induction p as [p IH|p IH|]; intros mrs Hm; cbn [SpecFloat.iter_pos].
  - replace (Zpos p~1) with (1 + (Zpos p + Zpos p)) by lia.
    pose proof (shr_1_shifted mrs Hm) as H1.
    assert (Hm1 : 0 <= shr_m (shr_1 mrs))
      by (apply (shifted_nonneg 1 mrs); [lia|exact Hm|exact H1]).
    pose proof (IH _ Hm1) as H2.
    assert (Hm2 : 0 <= shr_m (SpecFloat.iter_pos shr_1 p (shr_1 mrs)))
      by (apply (shifted_nonneg (Zpos p) (shr_1 mrs)); [lia|exact Hm1|exact H2]).
    pose proof (IH _ Hm2) as H3.
    eapply shifted_trans; [lia|lia|exact Hm|exact H1|].
    eapply shifted_trans; [lia|lia|exact Hm1|exact H2|exact H3].
  - replace (Zpos p~0) with (Zpos p + Zpos p) by lia.
    pose proof (IH _ Hm) as H2.
    assert (Hm2 : 0 <= shr_m (SpecFloat.iter_pos shr_1 p mrs))
      by (apply (shifted_nonneg (Zpos p) mrs); [lia|exact Hm|exact H2]).
    pose proof (IH _ Hm2) as H3.
    eapply shifted_trans; [lia|lia|exact Hm|exact H2|exact H3].
  - by apply shr_1_shifted.
Qed.

(** [shr] shifts by [n] when [n] is positive and not at all otherwise. *)
Lemma shr_shifted mrs e n :
  0 <= shr_m mrs ->
  let k := Z.max n 0 in
  shifted k mrs (fst (shr mrs e n)) /\ snd (shr mrs e n) = e + k.
Proof.
  intros Hm k. subst k. destruct n as [|p|p]; cbn [shr fst snd].
  - split; [|lia]. cbn. split; [by rewrite Z.div_1_r|]. intros H. by left.
  - replace (Z.max (Zpos p) 0) with (Zpos p) by lia.
    split; [by apply iter_pos_shifted|reflexivity].
  - replace (Z.max (Zneg p) 0) with 0 by lia.
    split; [|lia]. cbn. split; [by rewrite Z.div_1_r|]. intros H. by left.
Qed.

Lemma Zdigits2_bound m e R :
  0 <= m -> e <= 0 -> 0 <= R < 2 ^ 53 -> m <= R * 2 ^ (- e) ->
  Zdigits2 m + e <= 53.
Proof.
  intros Hm He HR Hle. destruct m as [|p|p]; [cbn; lia| |lia].
  cbn [Zdigits2]. destruct (digits2_pos_bounds p) as [Hlo _].
  destruct (Z.le_gt_cases (Zpos (digits2_pos p) + e) 53) as [|Hgt]; [done|].
  exfalso.
  assert (Hp : 0 < 2 ^ (- e)) by (apply Z.pow_pos_nonneg; lia).
  assert (H1 : 2 ^ (53 - e) <= 2 ^ (Zpos (digits2_pos p) - 1))
    by (apply Z.pow_le_mono_r; lia).
  assert (H2 : 2 ^ (53 - e) = 2 ^ 53 * 2 ^ (- e)).
  { rewrite <- Z.pow_add_r by lia. f_equal; lia. }
  nia.
Qed.

Lemma fexp_nonpos m e R :
  0 <= m -> e <= 0 -> 0 <= R < 2 ^ 53 -> m <= R * 2 ^ (- e) ->
  fexp prec emax (Zdigits2 m + e) <= 0.
Proof.
  intros Hm He HR Hle. pose proof (Zdigits2_bound m e R Hm He HR Hle).
  unfold fexp, emin, prec, emax. lia.
Qed.

(** Shifting right keeps a number below a bound given on the coarser
    grid. *)
Lemma shifted_le k m m' e R :
  0 <= k -> e + k <= 0 -> 0 <= m ->
  m' = m / 2 ^ k -> m <= R * 2 ^ (- e) -> m' <= R * 2 ^ (- (e + k)).
Proof.
  intros Hk He Hm -> Hle.
  assert (Hp : 0 < 2 ^ k) by (apply Z.pow_pos_nonneg; lia).
  replace (- e) with (- (e + k) + k) in Hle by lia.
  rewrite Z.pow_add_r in Hle by lia.
  apply Z.div_le_upper_bound; [lia|]. lia.
Qed.

Lemma shifted_lt k m m' e R :
  0 <= k -> e + k <= 0 -> 0 <= m ->
  m' = m / 2 ^ k -> m' * 2 ^ k <> m -> m <= R * 2 ^ (- e) ->
  m' + 1 <= R * 2 ^ (- (e + k)).
Proof.
  intros Hk He Hm -> Hne Hle.
  assert (Hp : 0 < 2 ^ k) by (apply Z.pow_pos_nonneg; lia).
  replace (- e) with (- (e + k) + k) in Hle by lia.
  rewrite Z.pow_add_r in Hle by lia.
  set (B := R * 2 ^ (- (e + k))) in *.
  pose proof (Z.div_mod m (2 ^ k) ltac:(lia)) as Hdm.
  pose proof (Z.mod_pos_bound m (2 ^ k) Hp) as Hmod.
  assert (Hlt : m / 2 ^ k < B); [|lia].
  apply Z.div_lt_upper_bound; [lia|].
  destruct (Z.eq_dec (m mod 2 ^ k) 0) as [H0|H0]; [exfalso; apply Hne; lia|].
  destruct (Z.eq_dec m (2 ^ k * B)) as [Heq|]; [|lia].
  exfalso. apply H0. rewrite Heq, Z.mul_comm. apply Z.mod_mul. lia.
Qed.

Lemma loc_of_shr_record_Exact mrs :
  loc_of_shr_record mrs = loc_Exact <-> inexact mrs = false.
Proof.
  destruct mrs as [m [] []]; unfold inexact; cbn; split; congruence.
Qed.

Lemma inexact_of_loc m l :
  inexact (shr_record_of_loc m l) = true -> l <> loc_Exact.
Proof. destruct l as [|[]]; unfold inexact; cbn; congruence. Qed.

Lemma round_nearest_even_cases m l :
  round_nearest_even m l = m
  \/ (round_nearest_even m l = m + 1 /\ l <> loc_Exact).
Proof.
  destruct l as [|[]]; cbn;
    [by left| |by left|right; split; [reflexivity|discriminate]].
  destruct (Z.even m); [by left|right; split; [reflexivity|discriminate]].
Qed.

(** The rounding step of every operation: a number known to be at most
    the integer [R], given by its mantissa, exponent and location, is
    not rounded above [R]. *)
Lemma binary_round_aux_atMost m e l R :
  0 <= m -> e <= 0 -> 0 <= R < 2 ^ 53 ->
  e <= fexp prec emax (Zdigits2 m + e) ->
  m <= R * 2 ^ (- e) ->
  (l <> loc_Exact -> m + 1 <= R * 2 ^ (- e)) ->
  atMost R (binary_round_aux prec emax false m e l).
Proof.
  intros Hm He HR Hfexp Hle Hlt. unfold binary_round_aux, shr_fexp.
  set (n := fexp prec emax (Zdigits2 m + e) - e).
  assert (Hm0 : 0 <= shr_m (shr_record_of_loc m l))
    by (destruct l as [|[]]; exact Hm).
  destruct (shr_shifted (shr_record_of_loc m l) e n Hm0) as [Hsh He1].
  destruct (shr (shr_record_of_loc m l) e n) as [mrs' e'].
  cbn [fst snd] in Hsh, He1.
  replace (Z.max n 0) with n in * by lia.
  assert (Hm_eq : shr_m (shr_record_of_loc m l) = m)
    by (destruct l as [|[]]; reflexivity).
  destruct Hsh as [Hm1 Hi1]. rewrite Hm_eq in Hm1, Hi1.
  pose proof (fexp_nonpos m e R Hm He HR Hle) as He1le.
  assert (He' : e' <= 0) by lia.
  assert (Hn : 0 <= n) by lia.
  assert (Hm1' : 0 <= shr_m mrs').
  { rewrite Hm1. apply Z.div_pos; [exact Hm|]. apply Z.pow_pos_nonneg; lia. }
  (* the rounded mantissa *)
  set (mr := round_nearest_even (shr_m mrs') (loc_of_shr_record mrs')).
  assert (Hmr : 0 <= mr /\ mr <= R * 2 ^ (- e')).
  { subst mr e'.
    destruct (round_nearest_even_cases (shr_m mrs') (loc_of_shr_record mrs'))
      as [->|[-> Hloc]].
    - split; [exact Hm1'|]. by apply (shifted_le n m).
    - split; [lia|].
      assert (Hin : inexact mrs' = true).
      { destruct (inexact mrs') eqn:Hi; [reflexivity|].
        exfalso. apply Hloc. by apply loc_of_shr_record_Exact. }
      destruct (Hi1 Hin) as [Hl|Hne].
      + apply inexact_of_loc, Hlt in Hl.
        assert (H : shr_m mrs' <= (R * 2 ^ (- e) - 1) / 2 ^ n).
        { rewrite Hm1. apply Z.div_le_mono; [|lia].
          apply Z.pow_pos_nonneg; lia. }
        assert (Hp : 0 < 2 ^ n) by (apply Z.pow_pos_nonneg; lia).
        assert (Hq : (R * 2 ^ (- e) - 1) / 2 ^ n < R * 2 ^ (- (e + n))).
        { apply Z.div_lt_upper_bound; [lia|].
          replace (- e) with (- (e + n) + n) by lia.
          rewrite Z.pow_add_r by lia. lia. }
        lia.
      + by apply (shifted_lt n m). }
  destruct Hmr as [Hmr0 Hmrle].
  (* the second shift *)
  set (n2 := fexp prec emax (Zdigits2 mr + e') - e').
  assert (Hmr_rec : 0 <= shr_m (shr_record_of_loc mr loc_Exact)) by exact Hmr0.
  destruct (shr_shifted (shr_record_of_loc mr loc_Exact) e' n2 Hmr_rec)
    as [[Hm2 _] He2].
  destruct (shr (shr_record_of_loc mr loc_Exact) e' n2) as [mrs'' e''].
  cbn [fst snd shr_record_of_loc shr_m] in Hm2, He2.
  pose proof (fexp_nonpos mr e' R Hmr0 He' HR Hmrle) as He2le.
  assert (He'' : e'' <= 0) by lia.
  assert (Hfinal : shr_m mrs'' <= R * 2 ^ (- e'')).
  { subst e''.
    apply (shifted_le (Z.max n2 0) mr); first [lia|exact Hm2|exact Hmrle]. }
  destruct (shr_m mrs'') as [|mf|mf] eqn:Hmf.
  - exact I.
  - assert (Hle971 : (e'' <=? emax - prec) = true).
    { apply Z.leb_le. unfold emax, prec. lia. }
    rewrite Hle971. cbn. split; [exact He''|exact Hfinal].
  - exfalso.
    assert (0 <= mr / 2 ^ Z.max n2 0).
    { apply Z.div_pos; [exact Hmr0|]. apply Z.pow_pos_nonneg; lia. }
    lia.
Qed.

Lemma atMost_mono R R' x : R <= R' -> atMost R x -> atMost R' x.
Proof.
  intros HR. destruct x as [s|s| |[] m e]; cbn; try done.
  intros [He Hm]. split; [exact He|].
  assert (0 < 2 ^ (- e)) by (apply Z.pow_pos_nonneg; lia). nia.
Qed.

(** *** Alignment to a smaller exponent *)

Lemma iter_xO_spec (m d : positive) :
  Zpos (Pos.iter xO m d) = Zpos m * 2 ^ Zpos d
  /\ digits2_pos (Pos.iter xO m d) = (digits2_pos m + d)%positive.
Proof.
  induction d as [|d [IH1 IH2]] using Pos.peano_ind.
  - cbn [Pos.iter]. split; [cbn; lia|]. cbn [digits2_pos]. lia.
  - rewrite Pos.iter_succ. split.
    + rewrite Pos2Z.inj_xO, IH1, Pos2Z.inj_succ, Z.pow_succ_r by lia. lia.
    + cbn [digits2_pos]. rewrite IH2. lia.
Qed.

Lemma shl_align_spec mx ex ex' :
  let e := Z.min ex ex' in
  snd (shl_align mx ex ex') = e
  /\ Zpos (fst (shl_align mx ex ex')) = Zpos mx * 2 ^ (ex - e)
  /\ Zpos (digits2_pos (fst (shl_align mx ex ex'))) + e
     = Zpos (digits2_pos mx) + ex.
Proof.
  cbv zeta. unfold shl_align.
  destruct (ex' - ex) as [|d|d] eqn:Hd; cbn [fst snd].
  - replace (Z.min ex ex') with ex by lia.
    rewrite Z.sub_diag. cbn. lia.
  - replace (Z.min ex ex') with ex by lia.
    rewrite Z.sub_diag. cbn. lia.
  - replace (Z.min ex ex') with ex' by lia.
    destruct (iter_xO_spec mx d) as [H1 H2]. rewrite H1, H2.
    replace (ex - ex') with (Zpos d) by lia. lia.
Qed.

Lemma binary_round_atMost m e R :
  e <= 0 -> 0 <= R < 2 ^ 53 -> Zpos m <= R * 2 ^ (- e) ->
  atMost R (binary_round prec emax false m e).
Proof.
  intros He HR Hle. unfold binary_round.
  destruct (shl_align_spec m e (fexp prec emax (Zpos (digits2_pos m) + e)))
    as (Hsnd & Hfst & Hdig).
  destruct (shl_align m e _) as [mz ez]. cbn [fst snd] in *.
  rewrite <- Hsnd in Hfst, Hdig.
  apply binary_round_aux_atMost.
  - lia.
  - lia.
  - exact HR.
  - cbn [Zdigits2].
    replace (Zpos (digits2_pos mz) + ez) with (Zpos (digits2_pos m) + e)
      by lia.
    lia.
  - rewrite Hfst.
    replace (- ez) with (- e + (e - ez)) by lia.
    rewrite Z.pow_add_r, Z.mul_assoc by lia.
    apply Z.mul_le_mono_nonneg_r; [|exact Hle].
    apply Z.pow_nonneg. lia.
  - intros H. by destruct H.
Qed.

(** *** Addition *)

Lemma SFadd_atMost A B x y :
  0 <= A -> 0 <= B -> A + B < 2 ^ 53 ->
  atMost A x -> atMost B y -> atMost (A + B) (SFadd prec emax x y).
Proof.
  intros HA HB HAB Hx Hy.
  destruct x as [sx|sx| |[] mx ex]; try done;
    destruct y as [sy|sy| |[] my ey]; try done.
  - destruct sx, sy; exact I.
  - cbn [SFadd]. apply (atMost_mono B); [lia|exact Hy].
  - cbn [SFadd]. apply (atMost_mono A); [lia|exact Hx].
  - cbn [SFadd cond_Zopp]. destruct Hx as [Hex Hmx], Hy as [Hey Hmy].
    destruct (shl_align_spec mx ex (Z.min ex ey)) as (_ & Hx1 & _).
    destruct (shl_align_spec my ey (Z.min ex ey)) as (_ & Hy1 & _).
    set (ez := Z.min ex ey) in *.
    replace (Z.min ex ez) with ez in Hx1 by lia.
    replace (Z.min ey ez) with ez in Hy1 by lia.
    destruct (shl_align mx ex ez) as [mx' ex'].
    destruct (shl_align my ey ez) as [my' ey']. cbn [fst] in *.
    change (Zpos mx' + Zpos my') with (Zpos (mx' + my')).
    cbn [binary_normalize]. apply binary_round_atMost; [lia|lia|].
    rewrite Pos2Z.inj_add, Hx1, Hy1.
    assert (Hpx : 2 ^ (- ez) = 2 ^ (- ex) * 2 ^ (ex - ez)).
    { rewrite <- Z.pow_add_r by lia. f_equal; lia. }
    assert (Hpy : 2 ^ (- ez) = 2 ^ (- ey) * 2 ^ (ey - ez)).
    { rewrite <- Z.pow_add_r by lia. f_equal; lia. }
    assert (0 < 2 ^ (ex - ez)) by (apply Z.pow_pos_nonneg; lia).
    assert (0 < 2 ^ (ey - ez)) by (apply Z.pow_pos_nonneg; lia).
    assert (Zpos mx * 2 ^ (ex - ez) <= A * 2 ^ (- ez)) by (rewrite Hpx; nia).
    assert (Zpos my * 2 ^ (ey - ez) <= B * 2 ^ (- ez)) by (rewrite Hpy; nia).
    lia.
Qed.

(** *** Division by a count *)

Lemma new_location_Exact nb_steps k :
  new_location nb_steps k <> loc_Exact -> k <> 0.
Proof.
  intros H ->. apply H. unfold new_location, new_location_even,
    new_location_odd. by destruct (Z.even nb_steps).
Qed.

Lemma Zdigits2_lower q k : 0 <= q -> 2 ^ (k - 1) <= q -> 1 <= k -> k <= Zdigits2 q.
Proof.
  intros Hq Hle Hk. destruct q as [|p|p]; [|cbn [Zdigits2]|lia].
  - assert (0 < 2 ^ (k - 1)) by (apply Z.pow_pos_nonneg; lia). lia.
  - destruct (digits2_pos_bounds p) as [_ Hhi].
    assert (Hlt : 2 ^ (k - 1) < 2 ^ Zpos (digits2_pos p)) by lia.
    apply Z.pow_lt_mono_r_iff in Hlt; lia.
Qed.

Lemma SFdiv_atMost R n x y :
  0 <= R < 2 ^ 53 -> 0 < n -> R * n < 2 ^ 53 ->
  atMost (R * n) x -> isCount n y -> atMost R (SFdiv prec emax x y).
Proof.
  intros HR Hn HRn Hx Hy.
  destruct y as [sy|sy| |[] my ey]; try done. destruct Hy as [Hey Hmy].
  destruct x as [sx|sx| |[] mx ex]; try done. destruct Hx as [Hex Hmx].
  cbn [SFdiv xorb]. unfold SFdiv_core_binary.
  set (d1 := Zdigits2 (Zpos mx)). set (d2 := Zdigits2 (Zpos my)).
  set (e' := Z.min (fexp prec emax (d1 + ex - (d2 + ey))) (ex - ey)).
  set (s := ex - ey - e').
  assert (Hs : 0 <= s) by lia.
  set (m' := match s with
             | 0 => Zpos mx
             | Zpos _ => Z.shiftl (Zpos mx) s
             | Zneg _ => 0
             end).
  assert (Hm' : m' = Zpos mx * 2 ^ s).
  { subst m'. destruct s as [|p|p] eqn:Hsp; [cbn; lia| |lia].
    apply Z.shiftl_mul_pow2. lia. }
  pose proof (Z_div_mod m' (Zpos my) ltac:(lia)) as Hdiv.
  destruct (Z.div_eucl m' (Zpos my)) as [q r]. destruct Hdiv as [Hqr Hr].
  (* the digits of the operands *)
  assert (Hd1 : d1 + ex <= 53).
  { apply (Zdigits2_bound (Zpos mx) ex (R * n)); lia. }
  destruct (digits2_pos_bounds mx) as [Hmxlo Hmxhi].
  destruct (digits2_pos_bounds my) as [Hmylo Hmyhi].
  fold (Zdigits2 (Zpos mx)) in Hmxlo, Hmxhi. fold d1 in Hmxlo, Hmxhi.
  fold (Zdigits2 (Zpos my)) in Hmylo, Hmyhi. fold d2 in Hmylo, Hmyhi.
  assert (Hd1pos : 1 <= d1) by (subst d1; cbn; lia).
  assert (Hd2pos : 1 <= d2) by (subst d2; cbn; lia).
  assert (Hd2 : 1 <= d2 + ey).
  { assert (Hp : 2 ^ (- ey) < 2 ^ d2).
    { assert (0 < 2 ^ (- ey)) by (apply Z.pow_pos_nonneg; lia). nia. }
    apply Z.pow_lt_mono_r_iff in Hp; lia. }
  assert (He' : e' <= 0) by (subst e'; unfold fexp, emin, prec, emax; lia).
  assert (Hq0 : 0 <= q).
  { assert (0 <= m') by (rewrite Hm'; apply Z.mul_nonneg_nonneg;
                          [lia|apply Z.pow_nonneg; lia]).
    destruct (Z.le_gt_cases 0 q) as [|Hneg]; [done|]. exfalso. nia. }
  (* the powers of two involved *)
  assert (Hpow : 2 ^ (- ex) * 2 ^ s = 2 ^ (- e') * 2 ^ (- ey)).
  { rewrite <- !Z.pow_add_r by lia. f_equal. lia. }
  assert (HPs : 0 < 2 ^ s) by (apply Z.pow_pos_nonneg; lia).
  assert (HPe : 0 < 2 ^ (- e')) by (apply Z.pow_pos_nonneg; lia).
  assert (HPy : 0 < 2 ^ (- ey)) by (apply Z.pow_pos_nonneg; lia).
  assert (HPx : 0 < 2 ^ (- ex)) by (apply Z.pow_pos_nonneg; lia).
  assert (Hbound : m' <= R * 2 ^ (- e') * Zpos my).
  { rewrite Hm', Hmy.
    replace (R * 2 ^ (- e') * (n * 2 ^ (- ey)))
      with (R * n * (2 ^ (- e') * 2 ^ (- ey))) by ring.
    rewrite <- Hpow. rewrite Z.mul_assoc.
    apply Z.mul_le_mono_nonneg_r; lia. }
  apply binary_round_aux_atMost.
  - exact Hq0.
  - exact He'.
  - exact HR.
  - (* the quotient has digits enough *)
    assert (Hk : d1 + s - d2 <= Zdigits2 q).
    { destruct (Z.le_gt_cases (d1 + s - d2) 0) as [Hk0|Hk1].
      - assert (0 <= Zdigits2 q) by (destruct q; cbn; lia). lia.
      - apply Zdigits2_lower; [exact Hq0| |lia].
        assert (Hlow : 2 ^ (d1 + s - d2 - 1) * Zpos my <= m').
        { rewrite Hm'.
          assert (H1 : 2 ^ (d1 + s - d2 - 1) * 2 ^ d2 = 2 ^ (d1 - 1) * 2 ^ s).
          { rewrite <- !Z.pow_add_r by lia. f_equal. lia. }
          assert (0 < 2 ^ (d1 + s - d2 - 1)) by (apply Z.pow_pos_nonneg; lia).
          nia. }
        destruct (Z.le_gt_cases (2 ^ (d1 + s - d2 - 1)) q) as [|Hlt]; [done|].
        exfalso.
        assert (q + 1 <= 2 ^ (d1 + s - d2 - 1)) by lia. nia. }
    subst e' s. unfold fexp, emin, prec, emax in *. lia.
  - apply Z.mul_le_mono_pos_r with (Zpos my); [lia|]. nia.
  - intros Hloc. apply new_location_Exact in Hloc.
    assert (Hlt : q * Zpos my < R * 2 ^ (- e') * Zpos my) by nia.
    apply Z.mul_lt_mono_pos_r in Hlt; lia.
Qed.

(** *** The double of a count *)

Lemma binary_round_aux_canonical m e :
  Zpos (digits2_pos m) = prec -> emin <= e <= emax - prec ->
  binary_round_aux prec emax false (Zpos m) e loc_Exact
  = S754_finite false m e.
Proof.
  intros Hd He. unfold binary_round_aux, shr_fexp.
  cbn [Zdigits2 shr_record_of_loc]. rewrite Hd.
  replace (fexp prec emax (prec + e) - e) with 0
    by (unfold fexp, emin, prec, emax in *; lia).
  cbn [shr shr_m loc_of_shr_record round_nearest_even Zdigits2].
  rewrite Hd.
  replace (fexp prec emax (prec + e) - e) with 0
    by (unfold fexp, emin, prec, emax in *; lia).
  cbn [shr shr_m].
  assert (Hle : (e <=? emax - prec) = true) by (apply Z.leb_le; lia).
  by rewrite Hle.
Qed.

Lemma binary_normalize_count n :
  0 < n < 2 ^ 53 ->
  exists m e,
    binary_normalize prec emax n 0 false = S754_finite false m e
    /\ SpecFloat.valid_binary prec emax (S754_finite false m e) = true
    /\ isCount n (S754_finite false m e).
Proof.
  intros Hn. destruct n as [|p|p]; [lia| |lia].
  cbn [binary_normalize]. unfold binary_round.
  destruct (digits2_pos_bounds p) as [Hlo Hhi].
  assert (Hd : Zpos (digits2_pos p) <= 53).
  { destruct (Z.le_gt_cases (Zpos (digits2_pos p)) 53) as [|Hgt]; [done|].
    exfalso.
    assert (2 ^ 53 <= 2 ^ (Zpos (digits2_pos p) - 1))
      by (apply Z.pow_le_mono_r; lia).
    lia. }
  destruct (shl_align_spec p 0 (fexp prec emax (Zpos (digits2_pos p) + 0)))
    as (Hsnd & Hfst & Hdig).
  destruct (shl_align p 0 _) as [mz ez]. cbn [fst snd] in *.
  rewrite <- Hsnd in Hfst, Hdig.
  assert (Hez : ez = Zpos (digits2_pos p) - 53)
    by (unfold fexp, emin, prec, emax in *; lia).
  assert (Hdz : Zpos (digits2_pos mz) = prec) by (unfold prec; lia).
  exists mz, ez. split; [|split].
  - apply binary_round_aux_canonical; [exact Hdz|].
    unfold emin, prec, emax. lia.
  - cbn [SpecFloat.valid_binary]. unfold bounded, canonical_mantissa.
    rewrite Hdz.
    apply andb_true_iff. split; [apply Z.eqb_eq|apply Z.leb_le];
      unfold fexp, emin, prec, emax; lia.
  - cbn [isCount]. split; [lia|]. rewrite Hfst.
    replace (0 - ez) with (- ez) by lia. reflexivity.
Qed.

(** *** Comparing doubles is comparing their values *)

Lemma Qpower_2_split e0 e :
  e0 <= e -> (Qpower 2 e == Qpower 2 e0 * inject_Z (2 ^ (e - e0)))%Q.
Proof.
  intros He. replace e with (e0 + (e - e0)) at 1 by lia.
  rewrite Qpower_plus by lra.
  apply Qmult_comp; [reflexivity|].
  symmetry. apply (Zpower_Qpower 2). lia.
Qed.

Lemma canonical_digits m e :
  canonical_mantissa prec emax m e = true ->
  Zpos m < 2 ^ 53 /\ (emin < e -> 2 ^ 52 <= Zpos m).
Proof.
  unfold canonical_mantissa. intros H. apply Z.eqb_eq in H.
  destruct (digits2_pos_bounds m) as [Hlo Hhi].
  assert (Hd : Zpos (digits2_pos m) <= 53)
    by (unfold fexp, emin, prec, emax in H; lia).
  split.
  - assert (2 ^ Zpos (digits2_pos m) <= 2 ^ 53)
      by (apply Z.pow_le_mono_r; lia).
    lia.
  - intros He.
    assert (Hd' : Zpos (digits2_pos m) = 53)
      by (unfold fexp, emin, prec, emax in *; lia).
    rewrite Hd' in Hlo. exact Hlo.
Qed.

(** The order of two positive doubles is the order of their values. *)
Lemma finite_lt_value m1 e1 m2 e2 :
  canonical_mantissa prec emax m1 e1 = true ->
  canonical_mantissa prec emax m2 e2 = true ->
  match e1 ?= e2 with
  | Lt => Lt
  | Gt => Gt
  | Eq => Pos.compare_cont Eq m1 m2
  end = Lt
  <-> (inject_Z (Zpos m1) * Qpower 2 e1 < inject_Z (Zpos m2) * Qpower 2 e2)%Q.
Proof.
  intros H1 H2.
  destruct (canonical_digits m1 e1 H1) as [Hhi1 Hlo1].
  destruct (canonical_digits m2 e2 H2) as [Hhi2 Hlo2].
  assert (Hmin1 : emin <= e1).
  { unfold canonical_mantissa in H1. apply Z.eqb_eq in H1.
    unfold fexp in H1. lia. }
  assert (Hmin2 : emin <= e2).
  { unfold canonical_mantissa in H2. apply Z.eqb_eq in H2.
    unfold fexp in H2. lia. }
  set (e0 := Z.min e1 e2).
  assert (Hp0 : (0 < Qpower 2 e0)%Q) by (apply Qpower_0_lt; lra).
  rewrite (Qpower_2_split e0 e1), (Qpower_2_split e0 e2) by lia.
  assert (Hscale :
    (inject_Z (Zpos m1) * (Qpower 2 e0 * inject_Z (2 ^ (e1 - e0)))
     < inject_Z (Zpos m2) * (Qpower 2 e0 * inject_Z (2 ^ (e2 - e0))))%Q
    <-> Zpos m1 * 2 ^ (e1 - e0) < Zpos m2 * 2 ^ (e2 - e0)).
  { rewrite Zlt_Qlt, !inject_Z_mult.
    set (a := inject_Z (Zpos m1)). set (b := inject_Z (Zpos m2)).
    set (p1 := inject_Z (2 ^ (e1 - e0))). set (p2 := inject_Z (2 ^ (e2 - e0))).
    set (c := Qpower 2 e0) in *.
    split; intros H.
    - apply (Qmult_lt_l _ _ c Hp0).
      assert (E1 : (c * (a * p1) == a * (c * p1))%Q) by ring.
      assert (E2 : (c * (b * p2) == b * (c * p2))%Q) by ring.
      by rewrite E1, E2.
    - apply (Qmult_lt_l _ _ c Hp0) in H.
      assert (E1 : (c * (a * p1) == a * (c * p1))%Q) by ring.
      assert (E2 : (c * (b * p2) == b * (c * p2))%Q) by ring.
      by rewrite E1, E2 in H. }
  rewrite Hscale. subst e0.
  destruct (Z.compare_spec e1 e2) as [Heq|Hlt|Hgt].
  - subst e2. rewrite Z.min_id, Z.sub_diag. change (2 ^ 0) with 1.
    change (Pos.compare_cont Eq m1 m2) with (Pos.compare m1 m2).
    rewrite Pos.compare_lt_iff. lia.
  - replace (Z.min e1 e2) with e1 by lia. rewrite Z.sub_diag.
    change (2 ^ 0) with 1. split; [intros _|done].
    assert (H2e : 2 <= 2 ^ (e2 - e1)).
    { change 2 with (2 ^ 1) at 1. apply Z.pow_le_mono_r; lia. }
    assert (2 ^ 52 <= Zpos m2) by (apply Hlo2; lia).
    change (2 ^ 53) with (2 * 2 ^ 52) in Hhi1. nia.
  - replace (Z.min e1 e2) with e2 by lia. rewrite Z.sub_diag.
    change (2 ^ 0) with 1. split; [discriminate|]. intros H. exfalso.
    assert (H2e : 2 <= 2 ^ (e1 - e2)).
    { change 2 with (2 ^ 1) at 1. apply Z.pow_le_mono_r; lia. }
    assert (2 ^ 52 <= Zpos m1) by (apply Hlo1; lia).
    change (2 ^ 53) with (2 * 2 ^ 52) in Hhi2. nia.
Qed.

Lemma Some_Qeq (a b : Q) : Some a = Some b -> (a == b)%Q.
Proof. intros [= ->]. reflexivity. Qed.

(** [k < x] on doubles, for a double [k] that is a positive integer. *)
Lemma ltb_exceeds (k : float) (n : Z) (x : float) (v : Q) :
  0 < n -> JsNumber.valueOf k = Some v -> (v == inject_Z n)%Q ->
  (k <? x)%float = true <-> exceeds n x.
Proof.
  intros Hn Hk Hv. rewrite ltb_spec. unfold exceeds, JsNumber.valueOf in *.
  pose proof (Prim2SF_valid k) as Hvk. pose proof (Prim2SF_valid x) as Hvx.
  assert (Hnq : (0 < inject_Z n)%Q) by (by rewrite <- (Zlt_Qlt 0)).
  destruct (Prim2SF k) as [sk|sk| |sk mk ek]; try discriminate.
  { apply Some_Qeq in Hk. exfalso. lra. }
  apply Some_Qeq in Hk. rewrite Hv in Hk.
  assert (Hmk : (0 < inject_Z (Zpos mk) * Qpower 2 ek)%Q).
  { apply Qmult_lt_0_compat; [by rewrite <- (Zlt_Qlt 0)|].
    apply Qpower_0_lt. lra. }
  destruct sk; [exfalso; lra|].
  assert (Hkv : (inject_Z n == inject_Z (Zpos mk) * Qpower 2 ek)%Q).
  { rewrite <- Hk. ring. }
  cbn [SpecFloat.valid_binary] in Hvk. unfold bounded in Hvk.
  apply andb_true_iff in Hvk as [Hck _].
  destruct (Prim2SF x) as [sx|sx| |sx mx ex]; unfold SFltb; cbn [SFcompare].
  - split; [discriminate|]. intros [H|(q & [= <-] & Hq)]; [discriminate|lra].
  - destruct sx.
    + split; [discriminate|].
      intros [H|(q & H & _)]; discriminate.
    + split; [intros _; by left|reflexivity].
  - split; [discriminate|]. intros [H|(q & H & _)]; discriminate.
  - cbn [SpecFloat.valid_binary] in Hvx. unfold bounded in Hvx.
    apply andb_true_iff in Hvx as [Hcx _].
    assert (Hmx : (0 < inject_Z (Zpos mx) * Qpower 2 ex)%Q).
    { apply Qmult_lt_0_compat; [by rewrite <- (Zlt_Qlt 0)|].
      apply Qpower_0_lt. lra. }
    destruct sx.
    + split; [discriminate|].
      intros [H|(q & [= <-] & Hq)]; [discriminate|]. exfalso. lra.
    + pose proof (finite_lt_value mk ek mx ex Hck Hcx) as Hcmp.
      destruct (match ek ?= ex with
                | Eq => Pos.compare_cont Eq mk mx
                | Lt => Lt
                | Gt => Gt
                end) eqn:Hc.
      * split; [discriminate|].
        intros [H|(q & [= <-] & Hq)]; [discriminate|].
        assert (Hlt : (inject_Z (Zpos mk) * Qpower 2 ek
                       < inject_Z (Zpos mx) * Qpower 2 ex)%Q) by lra.
        apply Hcmp in Hlt. discriminate Hlt.
      * split; [|reflexivity]. intros _. right. eexists.
        split; [reflexivity|].
        assert (Hlt : (inject_Z (Zpos mk) * Qpower 2 ek
                       < inject_Z (Zpos mx) * Qpower 2 ex)%Q)
          by (by apply Hcmp).
        lra.
      * split; [discriminate|].
        intros [H|(q & [= <-] & Hq)]; [discriminate|].
        assert (Hlt : (inject_Z (Zpos mk) * Qpower 2 ek
                       < inject_Z (Zpos mx) * Qpower 2 ex)%Q) by lra.
        apply Hcmp in Hlt. discriminate Hlt.
Qed.

Lemma ltb_exceeds_80 x : (80 <? x)%float = true <-> exceeds 80 x.
Proof.
  eapply ltb_exceeds; [lia|vm_compute; reflexivity|reflexivity].
Qed.

Lemma ltb_exceeds_90 x : (90 <? x)%float = true <-> exceeds 90 x.
Proof.
  eapply ltb_exceeds; [lia|vm_compute; reflexivity|reflexivity].
Qed.

(** *** The verdict *)

(** C5, as the code has it.  The overall verdict of a list of analyzer
    results follows the precedence of the specification, the first rule
    that applies deciding: DANGEROUS when some verdict is MALICIOUS or
    SCAM; else FALSE when some verdict is FALSE; else VERIFIED when some
    verdict is TRUE and the mean of the confidences exceeds 80, this
    mean being the one the code computes in doubles (the positive
    infinity exceeds 80, [NaN] does not); else SUSPICIOUS when some
    verdict is SUSPICIOUS; else UNVERIFIED.  The five cases exclude one
    another and cover every list, and the verdict is a function of the
    list. *)
Theorem overall_verdict_precedence agentResults :
  let vs := verdictsOf agentResults in
  let m := doubleMean (doublesOf agentResults) in
  let overall :=
    Double.Overall.verdict (Double.calculateOverallResult agentResults) in
  let dangerous := In "MALICIOUS" vs \/ In "SCAM" vs in
  let verified := In "TRUE" vs /\ exceeds 80 m in
  (dangerous -> overall = "DANGEROUS")
  /\ (~ dangerous -> In "FALSE" vs -> overall = "FALSE")
  /\ (~ dangerous -> ~ In "FALSE" vs -> verified -> overall = "VERIFIED")
  /\ (~ dangerous -> ~ In "FALSE" vs -> ~ verified ->
      In "SUSPICIOUS" vs -> overall = "SUSPICIOUS")
  /\ (~ dangerous -> ~ In "FALSE" vs -> ~ verified ->
      ~ In "SUSPICIOUS" vs -> overall = "UNVERIFIED").
Proof.
  intros vs m overall dangerous verified.
  subst overall. unfold Double.calculateOverallResult.
  cbn [Double.Overall.verdict].
  rewrite avgConfidence_doubleMean. fold (verdictsOf agentResults).
  fold vs. fold m.
  assert (Hd : includesVerdict vs "MALICIOUS" || includesVerdict vs "SCAM"
               = true <-> dangerous).
  { rewrite orb_true_iff, !includesVerdict_In. reflexivity. }
  assert (Hv : includesVerdict vs "TRUE" && (80 <? m)%float = true
               <-> verified).
  { rewrite andb_true_iff, includesVerdict_In, ltb_exceeds_80. reflexivity. }
  pose proof (includesVerdict_In vs "FALSE") as Hf.
  pose proof (includesVerdict_In vs "SUSPICIOUS") as Hs.
  destruct (includesVerdict vs "MALICIOUS" || includesVerdict vs "SCAM");
    settle_flag Hd; [finish_cases|].
  destruct (includesVerdict vs "FALSE"); settle_flag Hf; [finish_cases|].
  destruct (includesVerdict vs "TRUE" && (80 <? m)%float);
    settle_flag Hv; [finish_cases|].
  destruct (includesVerdict vs "SUSPICIOUS"); settle_flag Hs; finish_cases.
Qed.

(** C5 as stated fails: of two results TRUE, one with confidence 80 and
    one with the next double above 80, the arithmetic mean exceeds 80,
    so that the specification says VERIFIED; the sum of the two is
    rounded to 160, the mean the code computes is 80, and the verdict is
    UNVERIFIED. *)
Lemma verified_needs_the_double_mean_above_80 :
  let agentResults :=
    [Double.AgentResult.mk "TRUE" (next_up 80);
     Double.AgentResult.mk "TRUE" 80] in
  agentResults <> []
  /\ specifiedVerdict agentResults = Some "VERIFIED"
  /\ Double.Overall.verdict (Double.calculateOverallResult agentResults)
     = "UNVERIFIED".
Proof.
  cbv zeta. split; [discriminate|]. split; vm_compute; reflexivity.
Qed.

(** *** The mean the code computes *)

Lemma Qpower_2_nonpos e :
  e <= 0 -> (Qpower 2 e == / inject_Z (2 ^ (- e)))%Q.
Proof.
  intros He. replace e with (- - e) at 1 by lia.
  rewrite Qpower_opp. apply Qinv_comp.
  symmetry. apply (Zpower_Qpower 2). lia.
Qed.

Lemma valueOf_atMost R x :
  0 <= R -> atMost R (Prim2SF x) ->
  exists q, JsNumber.valueOf x = Some q /\ (0 <= q <= inject_Z R)%Q.
Proof.
  intros HR. unfold JsNumber.valueOf.
  destruct (Prim2SF x) as [s|s| |[] m e]; cbn [atMost]; try done.
  - intros _. exists 0%Q. split; [reflexivity|]. split; [lra|].
    rewrite <- (Zle_Qle 0). exact HR.
  - intros [He Hm]. eexists. split; [reflexivity|].
    assert (HP : 0 < 2 ^ (- e)) by (apply Z.pow_pos_nonneg; lia).
    assert (HPq : (0 < inject_Z (2 ^ (- e)))%Q) by (by rewrite <- (Zlt_Qlt 0)).
    rewrite (Qpower_2_nonpos e He).
    assert (Hmq : (inject_Z (Zpos m) <= inject_Z R * inject_Z (2 ^ (- e)))%Q).
    { rewrite <- inject_Z_mult, <- Zle_Qle. exact Hm. }
    assert (Hm0 : (0 < inject_Z (Zpos m))%Q) by (by rewrite <- (Zlt_Qlt 0)).
    split.
    + apply Qmult_le_0_compat; [lra|].
      apply Qlt_le_weak, Qinv_lt_0_compat, HPq.
    + rewrite Qmult_1_l. apply Qle_shift_div_r; [exact HPq|exact Hmq].
Qed.

Lemma percentage_atMost x : percentage x -> atMost 100 (Prim2SF x).
Proof.
  intros (q & Hq & Hq0 & Hq100). unfold JsNumber.valueOf in Hq.
  pose proof (Prim2SF_valid x) as Hvalid.
  destruct (Prim2SF x) as [s|s| |s m e]; cbn [atMost]; try done.
  injection Hq as <-.
  assert (Hpow : (0 < Qpower 2 e)%Q) by (apply Qpower_0_lt; lra).
  assert (Hm0 : (0 < inject_Z (Zpos m))%Q) by (by rewrite <- (Zlt_Qlt 0)).
  destruct s.
  { exfalso.
    assert ((0 < inject_Z (Zpos m) * Qpower 2 e)%Q)
      by (by apply Qmult_lt_0_compat).
    lra. }
  rewrite Qmult_1_l in Hq100.
  cbn [SpecFloat.valid_binary] in Hvalid. unfold bounded in Hvalid.
  apply andb_true_iff in Hvalid as [Hcanon _].
  unfold canonical_mantissa in Hcanon. apply Z.eqb_eq in Hcanon.
  destruct (digits2_pos_bounds m) as [Hlo _].
  assert (He : e <= 0).
  { destruct (Z.le_gt_cases e 0) as [|Hpos]; [done|]. exfalso.
    assert (Hd : Zpos (digits2_pos m) = 53)
      by (unfold fexp, emin, prec, emax in Hcanon; lia).
    rewrite Hd in Hlo. change (2 ^ (53 - 1)) with 4503599627370496 in Hlo.
    assert (Hq2 : (Qpower 2 e == inject_Z (2 ^ e))%Q)
      by (symmetry; apply (Zpower_Qpower 2); lia).
    rewrite Hq2, <- inject_Z_mult in Hq100.
    change 100%Q with (inject_Z 100) in Hq100.
    rewrite <- Zle_Qle in Hq100.
    assert (1 <= 2 ^ e) by (apply Z.lt_pred_le, Z.pow_pos_nonneg; lia).
    nia. }
  split; [exact He|].
  assert (HP : 0 < 2 ^ (- e)) by (apply Z.pow_pos_nonneg; lia).
  assert (HPq : (0 < inject_Z (2 ^ (- e)))%Q) by (by rewrite <- (Zlt_Qlt 0)).
  rewrite (Qpower_2_nonpos e He) in Hq100.
  assert (H : (inject_Z (Zpos m) <= 100 * inject_Z (2 ^ (- e)))%Q).
  { assert (Heq : (inject_Z (Zpos m) * / inject_Z (2 ^ (- e))
                   * inject_Z (2 ^ (- e)) == inject_Z (Zpos m))%Q)
      by (field; lra).
    rewrite <- Heq. apply Qmult_le_compat_r; [exact Hq100|lra]. }
  change 100%Q with (inject_Z 100) in H.
  by rewrite <- inject_Z_mult, <- Zle_Qle in H.
Qed.

Lemma ofNat_count (n : nat) :
  0 < Z.of_nat n < 2 ^ 53 ->
  isCount (Z.of_nat n) (Prim2SF (JsNumber.ofNat n)).
Proof.
  intros Hn. unfold JsNumber.ofNat.
  destruct (binary_normalize_count (Z.of_nat n) Hn)
    as (m & e & -> & Hvalid & Hcount).
  by rewrite Prim2SF_SF2Prim.
Qed.

Lemma fold_add_atMost xs acc k :
  0 <= k -> Forall percentage xs ->
  100 * (k + Z.of_nat (length xs)) < 2 ^ 53 ->
  atMost (100 * k) (Prim2SF acc) ->
  atMost (100 * (k + Z.of_nat (length xs)))
         (Prim2SF (fold_left PrimFloat.add xs acc)).
Proof.
  intros Hk Hall. revert acc k Hk.
  induction Hall as [|x xs Hx _ IH]; intros acc k Hk Hlen Hacc.
  - cbn [fold_left length]. by replace (k + Z.of_nat 0) with k by lia.
  - cbn [fold_left]. cbn [length] in *.
    replace (k + Z.of_nat (S (length xs)))
      with ((k + 1) + Z.of_nat (length xs)) in * by lia.
    apply IH; [lia|exact Hlen|].
    rewrite add_spec.
    replace (100 * (k + 1)) with (100 * k + 100) by lia.
    apply SFadd_atMost; [lia|lia|lia|exact Hacc|by apply percentage_atMost].
Qed.

(** The mean the code computes of confidences in [0,100] lies in
    [0,100]. *)
Lemma doubleMean_percentage xs :
  xs <> [] -> Z.of_nat (length xs) < 2 ^ 32 -> Forall percentage xs ->
  percentage (doubleMean xs).
Proof.
  intros Hne Hlen Hall. unfold doubleMean.
  assert (Hn : 0 < Z.of_nat (length xs)) by (destruct xs; [done|cbn; lia]).
  assert (Hsum : atMost (100 * Z.of_nat (length xs))
                        (Prim2SF (fold_left PrimFloat.add xs 0%float))).
  { apply (fold_add_atMost xs 0%float 0); [lia|exact Hall|lia|exact I]. }
  assert (Hmean : atMost 100
    (Prim2SF (fold_left PrimFloat.add xs 0 / JsNumber.ofNat (length xs))%float)).
  { rewrite div_spec.
    apply (SFdiv_atMost 100 (Z.of_nat (length xs))); [lia|lia|lia|exact Hsum|].
    apply ofNat_count. lia. }
  apply (valueOf_atMost 100) in Hmean; [|lia].
  exact Hmean.
Qed.

(** C6, as the code has it.  For a non-empty list of analyzer results
    whose confidences lie in [0,100] (fewer than [2 ^ 32] of them, as a
    JavaScript array holds), the mean the code computes in doubles is a
    number [m] in [0,100], and the overall confidence is the integer [c]
    nearest to [m], a tie going up; [c] lies in [0,100]. *)
Theorem overall_confidence_rounded_mean agentResults :
  agentResults <> [] ->
  Z.of_nat (length agentResults) < 2 ^ 32 ->
  Forall percentage (doublesOf agentResults) ->
  exists (m : Q) (c : Z),
    JsNumber.valueOf (doubleMean (doublesOf agentResults)) = Some m
    /\ (0 <= m <= 100)%Q
    /\ Double.Overall.confidence (Double.calculateOverallResult agentResults)
       = JsNumber.Integer c
    /\ (inject_Z c - (1 # 2) <= m /\ m < inject_Z c + (1 # 2))%Q
    /\ 0 <= c <= 100.
Proof.
  intros Hne Hlen Hall.
  destruct (doubleMean_percentage (doublesOf agentResults))
    as (m & Hm & Hrange).
  - destruct agentResults; [done|discriminate].
  - unfold doublesOf. by rewrite length_map.
  - exact Hall.
  - exists m, (Math_round m). split; [exact Hm|]. split; [exact Hrange|].
    split; [|split].
    + unfold Double.calculateOverallResult. cbn [Double.Overall.confidence].
      rewrite avgConfidence_doubleMean. by apply Math_round_value.
    + apply Math_round_nearest.
    + by apply Math_round_bounds.
Qed.

(** The mean of 92.5, 81 and 64.25 is 79.25. *)
Lemma overall_confidence_rounded_mean_witness :
  Samples.threeResults <> []
  /\ Z.of_nat (length Samples.threeResults) < 2 ^ 32
  /\ Forall percentage (doublesOf Samples.threeResults)
  /\ exists (m : Q) (c : Z),
       JsNumber.valueOf (doubleMean (doublesOf Samples.threeResults)) = Some m
       /\ (0 <= m <= 100)%Q
       /\ Double.Overall.confidence
            (Double.calculateOverallResult Samples.threeResults)
          = JsNumber.Integer c
       /\ (inject_Z c - (1 # 2) <= m /\ m < inject_Z c + (1 # 2))%Q
       /\ 0 <= c <= 100.
Proof.
  assert (Hne : Samples.threeResults <> []) by discriminate.
  assert (Hlen : Z.of_nat (length Samples.threeResults) < 2 ^ 32)
    by (vm_compute; reflexivity).
  assert (Hall : Forall percentage (doublesOf Samples.threeResults)).
  { repeat constructor; eexists; (split; [vm_compute; reflexivity|]);
      split; vm_compute; discriminate. }
  split; [exact Hne|]. split; [exact Hlen|]. split; [exact Hall|].
  exact (overall_confidence_rounded_mean Samples.threeResults Hne Hlen Hall).
Defined.

(** C6 as stated fails: of the confidences 89.5 and the next double
    below it, both in [0,100], the arithmetic mean is below 89.5 and
    rounds to 89; their sum is rounded to 179, the mean the code
    computes is 89.5, and the overall confidence is 90. *)
Lemma confidence_is_not_the_rounded_arithmetic_mean :
  let agentResults :=
    [Double.AgentResult.mk "UNVERIFIED" 89.5;
     Double.AgentResult.mk "UNVERIFIED" (next_down 89.5)] in
  agentResults <> []
  /\ Forall percentage (doublesOf agentResults)
  /\ specifiedConfidence agentResults = Some 89
  /\ Double.Overall.confidence (Double.calculateOverallResult agentResults)
     = JsNumber.Integer 90.
Proof.
  cbv zeta. split; [discriminate|]. split.
  - repeat constructor; eexists; (split; [vm_compute; reflexivity|]);
      split; vm_compute; discriminate.
  - split; vm_compute; reflexivity.
Qed.

(** ** The insertion-ordered map *)

Section JsMapFacts.
Context {V : Type}.
Implicit Types (m : list (string * V)) (k : string) (v : V).

Lemma get_set_eq m k v : JsMap.get (JsMap.set m k v) k = Some v.
Proof.
  induction m as [|[k' w] m IH]; simpl.
  - by rewrite String.eqb_refl.
  - destruct (String.eqb_spec k' k) as [->|Hne]; simpl.
    + by rewrite String.eqb_refl.
    + apply String.eqb_neq in Hne. by rewrite Hne.
Qed.

Lemma get_set_ne m k k' v :
  k <> k' -> JsMap.get (JsMap.set m k v) k' = JsMap.get m k'.
Proof.
  intros Hkk'. induction m as [|[k0 w] m IH]; simpl.
  - apply String.eqb_neq in Hkk'. by rewrite Hkk'.
  - destruct (String.eqb_spec k0 k) as [->|Hne]; simpl.
    + apply String.eqb_neq in Hkk'. by rewrite Hkk'.
    + by rewrite IH.
Qed.

Lemma get_delete_eq m k : JsMap.get (JsMap.delete m k) k = None.
Proof.
  unfold JsMap.delete. induction m as [|[k' w] m IH]; simpl; [done|].
  destruct (String.eqb_spec k' k) as [->|Hne]; simpl; [done|].
  apply String.eqb_neq in Hne. by rewrite Hne.
Qed.

Lemma get_delete_ne m k k' :
  k <> k' -> JsMap.get (JsMap.delete m k) k' = JsMap.get m k'.
Proof.
  intros Hkk'. unfold JsMap.delete.
  induction m as [|[k0 w] m IH]; simpl; [done|].
  destruct (String.eqb_spec k0 k) as [->|Hne]; simpl.
  - apply String.eqb_neq in Hkk'. by rewrite Hkk'.
  - by rewrite IH.
Qed.

Lemma get_In m k v : JsMap.get m k = Some v -> In (k, v) m.
Proof.
  induction m as [|[k' w] m IH]; simpl; [done|].
  destruct (String.eqb_spec k' k) as [->|Hne].
  - intros [= ->]. by left.
  - intros H. right. auto.
Qed.

Lemma In_get m k v :
  NoDup (JsMap.keys m) -> In (k, v) m -> JsMap.get m k = Some v.
Proof.
  unfold JsMap.keys.
  induction m as [|[k' w] m IH]; simpl; [done|].
  intros Hnd [Hin|Hin].
  - injection Hin as -> ->. by rewrite String.eqb_refl.
  - apply NoDup_cons in Hnd as [Hk' Hnd].
    destruct (String.eqb_spec k' k) as [->|Hne]; [|auto].
    exfalso. apply Hk'. apply list_elem_of_In.
    apply (in_map fst) in Hin. exact Hin.
Qed.

Lemma In_keys_set m k v x :
  In x (JsMap.keys (JsMap.set m k v)) -> In x (JsMap.keys m) \/ x = k.
Proof.
  unfold JsMap.keys. induction m as [|[k' w] m IH]; simpl.
  - intros [<-|[]]. by right.
  - destruct (String.eqb_spec k' k) as [->|Hne]; simpl; [tauto|].
    intros [<-|Hin]; [tauto|]. destruct (IH Hin); tauto.
Qed.

Lemma NoDup_keys_set m k v :
  NoDup (JsMap.keys m) -> NoDup (JsMap.keys (JsMap.set m k v)).
Proof.
  induction m as [|[k' w] m IH]; simpl; intros Hnd.
  - apply NoDup_singleton.
  - destruct (String.eqb_spec k' k) as [->|Hne]; [exact Hnd|].
    apply NoDup_cons in Hnd as [Hk' Hnd].
    change (NoDup (k' :: JsMap.keys (JsMap.set m k v))).
    apply NoDup_cons. split; [|auto].
    intros Hin. apply list_elem_of_In, In_keys_set in Hin as [Hin| ->].
    + apply Hk', list_elem_of_In, Hin.
    + done.
Qed.

Lemma Forall_set (P : string * V -> Prop) m k v :
  (forall k', P (k', v)) -> Forall P m -> Forall P (JsMap.set m k v).
Proof.
  intros Hv. induction 1 as [|[k' w] m Hw Hm IH]; simpl.
  - by constructor.
  - destruct (String.eqb k' k); constructor; auto.
Qed.

Lemma delete_sublist m k : JsMap.delete m k `sublist_of` m.
Proof.
  unfold JsMap.delete. induction m as [|a m IH]; simpl; [constructor|].
  destruct (negb _); by constructor.
Qed.

End JsMapFacts.

(** ** Promises *)

Lemma firstRejection_In {A} (l : list (settled A)) t e :
  firstRejection l = Some (t, e) -> In (t, inl e) l.
Proof.
  revert t e. induction l as [|[t0 [e0|a]] l IH]; intros t e; simpl.
  - done.
  - destruct (firstRejection l) as [[t' e']|].
    + destruct (t' <? t0); intros [= <- <-]; auto.
    + intros [= <- <-]. auto.
  - auto.
Qed.

Lemma firstRejection_None {A} (l : list (settled A)) :
  firstRejection l = None -> forall t e, ~ In (t, inl e) l.
Proof.
  induction l as [|[t0 [e0|a]] l IH]; simpl.
  - tauto.
  - destruct (firstRejection l) as [[t' e']|]; [destruct (t' <? t0)|]; done.
  - intros H t e [Heq|Hin]; [done|]. by apply (IH H t e).
Qed.

Lemma Promise_all_rejects p analyzer :
  someAnalyzerRaises analyzer p ->
  exists e, Promise_all (processAgents p analyzer) = inl e
            /\ exists agent t, In agent (Pending.selectedAgents p)
                               /\ analyzer agent = (t, inl e).
Proof.
  intros (agent & t & e & Hin & Hraise). unfold Promise_all.
  destruct (firstRejection (processAgents p analyzer)) as [[t' e']|] eqn:Hfirst.
  - exists e'. split; [done|].
    apply firstRejection_In in Hfirst. unfold processAgents in Hfirst.
    apply in_map_iff in Hfirst as (agent' & Heq & Hin').
    exists agent', t'. split; [done|].
    destruct (analyzer agent') as [t'' [e''|r]]; by simplify_eq.
  - exfalso. apply (firstRejection_None _ Hfirst t e).
    unfold processAgents. apply in_map_iff. exists agent.
    by rewrite Hraise.
Qed.

Lemma Promise_all_fulfilled p analyzer agentResults :
  Promise_all (processAgents p analyzer) = inr agentResults ->
  map AgentResult.agent agentResults = map Agent.id (Pending.selectedAgents p).
Proof.
  unfold Promise_all.
  destruct (firstRejection _) as [[t e]|] eqn:Hfirst; [done|].
  intros [= <-]. pose proof (firstRejection_None _ Hfirst) as Hnone.
  unfold processAgents in *. clear Hfirst.
  induction (Pending.selectedAgents p) as [|agent l IH]; [done|].
  simpl in *. destruct (analyzer agent) as [t [e|r]].
  - exfalso. apply (Hnone t e). by left.
  - simpl. f_equal. apply IH. intros t' e' Hin. apply (Hnone t' e'). by right.
Qed.

(** ** The orchestrator *)

Lemma verifyContent_settle_unfold this p analyzer now :
  verifyContent_settle this p analyzer now
  = match Promise_all (processAgents p analyzer) with
    | inl error => verifyContent_catch this (Pending.id p) error
    | inr agentResults =>
        match JsMap.get (activeVerifications this) (Pending.id p) with
        | None =>
            verifyContent_catch this (Pending.id p) (TypeError
              "Cannot read properties of undefined (reading 'startTime')")
        | Some previous =>
            match Verification.startTime previous with
            | None =>
                verifyContent_catch this (Pending.id p) (TypeError
                  "Cannot read properties of undefined (reading 'getTime')")
            | Some startTime =>
                let result :=
                  {| Result.verificationId := Pending.id p;
                     Result.content := Pending.content p;
                     Result.timestamp := now;
                     Result.agents := Pending.selectedAgents p;
                     Result.agentResults := agentResults;
                     Result.overallResult :=
                       calculateOverallResult agentResults;
                     Result.processingTime := now - startTime |} in
                (withVerifications this
                   (JsMap.set (activeVerifications this) (Pending.id p)
                      (completedRecord previous result)),
                 inr result)
            end
        end
    end.
Proof. reflexivity. Qed.

(** C7.  When an analyzer of a verification raises, the continuation of
    [verifyContent] throws an error one of its analyzers raised, the
    session has status [failed] and carries the message of that error,
    and no result is built: the [result] key of the record is what the
    record held before (nothing, for a session the call created). *)
Theorem analyzer_failure_fails_session this p analyzer now :
  someAnalyzerRaises analyzer p ->
  exists e this' v,
    verifyContent_settle this p analyzer now = (this', inl e)
    /\ (exists agent t, In agent (Pending.selectedAgents p)
                        /\ analyzer agent = (t, inl e))
    /\ getVerification this' (Pending.id p) = Some v
    /\ Verification.status v = "failed"
    /\ Verification.error v = Some (message e)
    /\ Verification.result v
       = spread Verification.result (getVerification this (Pending.id p)).
Proof.
  intros Hraises.
  destruct (Promise_all_rejects p analyzer Hraises) as (e & Hall & Hby).
  rewrite verifyContent_settle_unfold, Hall. unfold verifyContent_catch.
  eexists e, _, _. split; [reflexivity|]. split; [exact Hby|].
  unfold getVerification, withVerifications. cbn [activeVerifications].
  rewrite get_set_eq. repeat split; reflexivity.
Qed.

(** The fact checker of a NASA verification throws. *)
Lemma analyzer_failure_fails_session_witness :
  let p := Pending.mk "s1" Samples.nasa
             (selectAgents loadAgents Samples.nasa) 0 in
  let this := object Samples.waitingWorld in
  someAnalyzerRaises (Samples.factFails Samples.nasa 0) p
  /\ exists e this' v,
       verifyContent_settle this p (Samples.factFails Samples.nasa 0) 2000
       = (this', inl e)
       /\ (exists agent t, In agent (Pending.selectedAgents p)
                           /\ Samples.factFails Samples.nasa 0 agent
                              = (t, inl e))
       /\ getVerification this' (Pending.id p) = Some v
       /\ Verification.status v = "failed"
       /\ Verification.error v = Some (message e)
       /\ Verification.result v
          = spread Verification.result (getVerification this (Pending.id p)).
Proof.
  intros p this.
  assert (Hraises : someAnalyzerRaises (Samples.factFails Samples.nasa 0) p).
  { exists (Agent.mk "fact" "Fact Verification Agent"
              ["study"; "research"; "scientist"; "data"; "percent";
               "statistics"; "academic"] 4200),
           2000, (Error "fact database unreachable").
    split; [vm_compute; auto|reflexivity]. }
  split; [exact Hraises|].
  exact (analyzer_failure_fails_session this p
           (Samples.factFails Samples.nasa 0) 2000 Hraises).
Defined.

Lemma verifyContent_call_string this content userId verificationId uuidv4 now :
  verifyContent_call this (JString content) userId verificationId uuidv4 now
  = (let id := orUuid verificationId uuidv4 in
     let selectedAgents := selectAgents (agents this) content in
     ({| agents := agents this;
         scenarios := scenarios this;
         activeVerifications :=
           JsMap.set (activeVerifications this) id
             {| Verification.userId := Some userId;
                Verification.content := Some content;
                Verification.agents := Some selectedAgents;
                Verification.startTime := Some now;
                Verification.status := "processing";
                Verification.result := None;
                Verification.error := None |};
         totalVerifications := totalVerifications this + 1 |},
      inr (Pending.mk id content selectedAgents now))).
Proof. reflexivity. Qed.

Lemma verifyContent_call_not_string this content userId verificationId
    uuidv4 now :
  typeof_string content = false ->
  exists message,
    verifyContent_call this content userId verificationId uuidv4 now
    = (this, inl (TypeError message)).
Proof.
  destruct content; intros Hty; try discriminate; eexists; reflexivity.
Qed.

(** *** The counter *)

Lemma settle_total this p analyzer now :
  totalVerifications (fst (verifyContent_settle this p analyzer now))
  = totalVerifications this.
Proof.
  rewrite verifyContent_settle_unfold.
  destruct (Promise_all _); [reflexivity|].
  destruct (JsMap.get _ _) as [previous|]; [|reflexivity].
  destruct (Verification.startTime previous); reflexivity.
Qed.

Lemma cleanup_total this now :
  totalVerifications (fst (cleanupOldVerifications this now))
  = totalVerifications this.
Proof.
  unfold cleanupOldVerifications.
  destruct (sweepEntries _ _ _) as [m thrown]. reflexivity.
Qed.

Lemma perform_total w a :
  totalVerifications (object (perform w a))
  = totalVerifications (object w) + countCalls [a].
Proof.
  unfold countCalls.
  destruct a as [content userId verificationId uuidv4 now|n analyzer now|now];
    cbn [perform].
  - destruct content; cbn; lia.
  - destruct (nth_error (waiting w) n); cbn [object].
    + rewrite settle_total. cbn. lia.
    + cbn. lia.
  - cbn [object]. rewrite cleanup_total. cbn. lia.
Qed.

Lemma countCalls_cons a actions :
  countCalls (a :: actions) = countCalls [a] + countCalls actions.
Proof.
  unfold countCalls. cbn [List.filter].
  destruct a as [[]| |]; cbn [length]; lia.
Qed.

Lemma run_total actions w :
  totalVerifications (object (run actions w))
  = totalVerifications (object w) + countCalls actions.
Proof.
  revert w. induction actions as [|a actions IH]; intros w.
  - unfold countCalls. cbn. lia.
  - cbn [run fold_left]. fold (run actions (perform w a)).
    rewrite IH, perform_total, (countCalls_cons a actions). lia.
Qed.

(** C10.  Every call to [verifyContent] (with a string as content) adds
    exactly one to [totalVerifications], and does so in the part of the
    call that precedes the [await], before any analyzer has answered;
    the continuation leaves the counter alone whether the verification
    completes or fails, and so does the sweep.  Hence the counter of a
    running system is the number of calls made so far. *)
Theorem total_counts_every_call :
  (forall this content userId verificationId uuidv4 now,
      exists this' p,
        verifyContent_call this (JString content) userId verificationId
                           uuidv4 now = (this', inr p)
        /\ getTotalVerifications this' = getTotalVerifications this + 1)
  /\ (forall this p analyzer now,
        getTotalVerifications (fst (verifyContent_settle this p analyzer now))
        = getTotalVerifications this)
  /\ (forall this now,
        getTotalVerifications (fst (cleanupOldVerifications this now))
        = getTotalVerifications this)
  /\ (forall actions,
        getTotalVerifications (object (run actions start))
        = countCalls actions).
Proof.
  repeat split.
  - intros. rewrite verifyContent_call_string. eexists _, _.
    split; reflexivity.
  - apply settle_total.
  - apply cleanup_total.
  - intros actions. unfold getTotalVerifications. rewrite run_total.
    cbn [start object initialize totalVerifications]. lia.
Qed.

(** *** Reusing a session identifier *)

(** C1, as the code has it.  [verifyContent] never looks at the session
    its identifier already names.  A call that reuses the identifier of
    a session that is processing or completed is accepted: the record is
    replaced by a fresh one with status [processing], the selected
    analyzers are started and the counter goes up by one. *)
Theorem reused_session_id_overwrites this content userId id uuidv4 now old :
  id <> "" ->
  getVerification this id = Some old ->
  Verification.status old = "processing"
  \/ Verification.status old = "completed" ->
  exists this' p,
    verifyContent_call this (JString content) userId (Some id) uuidv4 now
    = (this', inr p)
    /\ Pending.id p = id
    /\ Pending.selectedAgents p = selectAgents (agents this) content
    /\ getVerification this' id
       = Some {| Verification.userId := Some userId;
                 Verification.content := Some content;
                 Verification.agents :=
                   Some (selectAgents (agents this) content);
                 Verification.startTime := Some now;
                 Verification.status := "processing";
                 Verification.result := None;
                 Verification.error := None |}
    /\ getTotalVerifications this' = getTotalVerifications this + 1.
Proof.
  intros Hid _ _. rewrite verifyContent_call_string.
  assert (Hor : orUuid (Some id) uuidv4 = id).
  { unfold orUuid. apply String.eqb_neq in Hid. by rewrite Hid. }
  rewrite Hor. eexists _, _. split; [reflexivity|].
  unfold getVerification, getTotalVerifications.
  cbn [activeVerifications totalVerifications Pending.id
       Pending.selectedAgents].
  rewrite get_set_eq. repeat split; reflexivity.
Qed.

(** The completed session [s1] is verified again. *)
Lemma reused_session_id_overwrites_witness :
  exists old,
    getVerification (object Samples.completedWorld) "s1" = Some old
    /\ Verification.status old = "completed"
    /\ exists this' p,
         verifyContent_call (object Samples.completedWorld)
           (JString "lottery winner") "bob" (Some "s1") "uuid-2" 9000
         = (this', inr p)
         /\ Pending.id p = "s1"
         /\ getTotalVerifications this'
            = getTotalVerifications (object Samples.completedWorld) + 1.
Proof.
  destruct (getVerification (object Samples.completedWorld) "s1")
    as [old|] eqn:Hold; [|vm_compute in Hold; discriminate Hold].
  exists old. split; [reflexivity|].
  assert (Hst : Verification.status old = "completed").
  { vm_compute in Hold. injection Hold as <-. reflexivity. }
  split; [exact Hst|].
  destruct (reused_session_id_overwrites (object Samples.completedWorld)
              "lottery winner" "bob" "s1" "uuid-2" 9000 old)
    as (this' & p & Hcall & Hid & _ & _ & Htotal).
  - discriminate.
  - exact Hold.
  - right. exact Hst.
  - exists this', p. repeat split; assumption.
Defined.

(** C1 as stated fails: the session [s1] of [Samples.completedWorld] is
    completed, and a second call under the same identifier is not
    rejected. *)
Lemma duplicate_session_is_not_rejected :
  ~ duplicate_rejected (object Samples.completedWorld)
      "lottery winner" "bob" "s1" "uuid-2" 9000.
Proof.
  intros Hclaim.
  destruct (getVerification (object Samples.completedWorld) "s1")
    as [old|] eqn:Hold; [|vm_compute in Hold; discriminate Hold].
  assert (Hst : Verification.status old = "completed").
  { vm_compute in Hold. injection Hold as <-. reflexivity. }
  destruct (Hclaim old Hold (or_intror Hst)) as [e He].
  rewrite verifyContent_call_string in He. discriminate He.
Qed.

(** *** Content that is empty or not a string *)

(** C4, as the code has it.  The guard sits in the handler of
    [POST /api/verify]: content that is empty or not a string is
    answered with status 400 before [verifyContent] is called, and the
    object is untouched.  [verifyContent] itself checks nothing: content
    that is not a string makes [selectAgents] throw a [TypeError] before
    anything is written. *)
Theorem invalid_content_rejected_by_handler validateContent this content
    userId sessionId uuid uuid' now :
  content = JString "" \/ typeof_string content = false ->
  (exists error,
      Server.api_verify validateContent this content userId sessionId
                        uuid uuid' now = (this, inl (Server.Status400 error)))
  /\ (typeof_string content = false ->
      forall user verificationId,
      exists message,
        verifyContent_call this content user verificationId uuid' now
        = (this, inl (TypeError message))).
Proof.
  intros Hinvalid. split.
  - unfold Server.api_verify.
    destruct Hinvalid as [->|Hty].
    + eexists. reflexivity.
    + rewrite Hty, orb_true_r. eexists. reflexivity.
  - intros Hty user verificationId.
    apply verifyContent_call_not_string, Hty.
Qed.

(** The number 42 as content. *)
Lemma invalid_content_rejected_by_handler_witness :
  (JNumber (Some 42%Q) = JString "" \/ typeof_string (JNumber (Some 42%Q)) = false)
  /\ (exists error,
        Server.api_verify (fun _ => true) initialize (JNumber (Some 42%Q))
                          None None "uuid-1" "uuid-2" 0
        = (initialize, inl (Server.Status400 error)))
  /\ (exists message,
        verifyContent_call initialize (JNumber (Some 42%Q)) "web-user" None
                           "uuid-2" 0
        = (initialize, inl (TypeError message))).
Proof.
  assert (Hinvalid : JNumber (Some 42%Q) = JString ""
                     \/ typeof_string (JNumber (Some 42%Q)) = false)
    by (right; reflexivity).
  destruct (invalid_content_rejected_by_handler (fun _ => true) initialize
              (JNumber (Some 42%Q)) None None "uuid-1" "uuid-2" 0 Hinvalid)
    as [Hhandler Hcore].
  split; [exact Hinvalid|]. split; [exact Hhandler|].
  exact (Hcore eq_refl "web-user" None).
Defined.

(** C4 as stated fails: [verifyContent] accepts the empty string, records
    a session for it and counts it. *)
Lemma empty_content_is_not_rejected :
  ~ invalid_rejected initialize (JString "") "alice" None "uuid-1" 0.
Proof.
  intros Hclaim. destruct (Hclaim (or_introl eq_refl)) as [e He].
  rewrite verifyContent_call_string in He. discriminate He.
Qed.

(** What [verifyContent] does with the empty string. *)
Lemma empty_content_accepted :
  exists this' p v,
    verifyContent_call initialize (JString "") "alice" None "uuid-1" 0
    = (this', inr p)
    /\ map Agent.id (Pending.selectedAgents p) = ["news"; "fact"]
    /\ getVerification initialize "uuid-1" = None
    /\ getVerification this' "uuid-1" = Some v
    /\ Verification.status v = "processing"
    /\ getTotalVerifications initialize = 0
    /\ getTotalVerifications this' = 1.
Proof.
  eexists _, _, _. split; [vm_compute; reflexivity|].
  repeat split; reflexivity.
Qed.

(** *** The retention sweep *)

Lemma sweepEntries_examined oneHourAgo entries m id :
  JsMap.get (fst (sweepEntries oneHourAgo entries m)) id
  = if existsb (fun kv => String.eqb (fst kv) id
                          && expired oneHourAgo (snd kv)) (examined entries)
    then None else JsMap.get m id.
Proof.
  revert m. induction entries as [|[k v] entries IH]; intros m;
    cbn [sweepEntries examined]; [reflexivity|].
  destruct (Verification.startTime v) as [t|] eqn:Ht; [|reflexivity].
  rewrite IH. cbn [existsb fst snd].
  assert (Hhead : expired oneHourAgo v = (t <? oneHourAgo))
    by (unfold expired; by rewrite Ht).
  rewrite Hhead.
  destruct (existsb _ (examined entries)); [by rewrite orb_true_r|].
  rewrite orb_false_r.
  destruct (String.eqb_spec k id) as [->|Hne]; cbn [andb].
  - destruct (t <? oneHourAgo); [apply get_delete_eq|reflexivity].
  - destruct (t <? oneHourAgo); [by apply get_delete_ne|reflexivity].
Qed.

Lemma sweepEntries_thrown oneHourAgo entries m :
  snd (sweepEntries oneHourAgo entries m) = None
  <-> Forall (fun kv => is_Some (Verification.startTime (snd kv))) entries.
Proof.
  revert m. induction entries as [|[k v] entries IH]; intros m;
    cbn [sweepEntries].
  - split; [constructor|reflexivity].
  - destruct (Verification.startTime v) as [t|] eqn:Ht.
    + rewrite IH. split.
      * intros H. constructor; [cbn; rewrite Ht; eauto|exact H].
      * intros H. by apply Forall_cons in H as [_ H].
    + split; [discriminate|].
      intros H. apply Forall_cons in H as [[t Hv] _]. cbn in Hv. congruence.
Qed.

Lemma examined_In entries kv : In kv (examined entries) -> In kv entries.
Proof.
  induction entries as [|[k v] entries IH]; cbn [examined]; [done|].
  destruct (Verification.startTime v); [|done].
  intros [<-|Hin]; [by left|right; auto].
Qed.

Lemma examined_expired (m : list (string * Verification.verification))
    oneHourAgo id v :
  NoDup (JsMap.keys m) -> JsMap.get m id = Some v ->
  existsb (fun kv => String.eqb (fst kv) id && expired oneHourAgo (snd kv))
          (examined m) = true
  <-> In (id, v) (examined m) /\ expired oneHourAgo v = true.
Proof.
  intros Hnd Hget. rewrite existsb_exists. split.
  - intros ([k u] & Hin & Hk). cbn [fst snd] in Hk.
    apply andb_true_iff in Hk as [Hk Hexp]. apply String.eqb_eq in Hk.
    subst k.
    assert (Hu : JsMap.get m id = Some u).
    { apply In_get; [exact Hnd|]. by apply examined_In. }
    rewrite Hget in Hu. injection Hu as ->. by split.
  - intros [Hin Hexp]. exists (id, v). split; [exact Hin|].
    cbn [fst snd]. by rewrite String.eqb_refl, Hexp.
Qed.

Lemma sweepEntries_get_Some oneHourAgo entries m id v :
  JsMap.get (fst (sweepEntries oneHourAgo entries m)) id = Some v ->
  JsMap.get m id = Some v.
Proof.
  revert m. induction entries as [|[k u] entries IH]; intros m;
    cbn [sweepEntries]; [done|].
  destruct (Verification.startTime u) as [t|]; [|done].
  intros H. apply IH in H. destruct (t <? oneHourAgo); [|exact H].
  destruct (String.eqb_spec k id) as [->|Hne].
  - by rewrite get_delete_eq in H.
  - by rewrite get_delete_ne in H.
Qed.

Lemma cleanup_get_Some this now id v :
  getVerification (fst (cleanupOldVerifications this now)) id = Some v ->
  getVerification this id = Some v.
Proof.
  unfold cleanupOldVerifications, getVerification.
  pose proof (sweepEntries_get_Some (now - 60 * 60 * 1000)
                (activeVerifications this) (activeVerifications this) id v)
    as H.
  destruct (sweepEntries _ _ _) as [m thrown]. exact H.
Qed.


(** *** Completed sessions *)

Lemma sublist_Forall {A} (P : A -> Prop) (l k : list A) :
  l `sublist_of` k -> Forall P k -> Forall P l.
Proof.
  induction 1 as [|x l k _ IH|x l k _ IH]; intros Hk.
  - constructor.
  - apply Forall_cons in Hk as [Hx Hk]. constructor; auto.
  - apply Forall_cons in Hk as [_ Hk]. auto.
Qed.

Lemma sweepEntries_sublist oneHourAgo entries m :
  fst (sweepEntries oneHourAgo entries m) `sublist_of` m.
Proof.
  revert m. induction entries as [|[k v] entries IH]; intros m;
    cbn [sweepEntries]; [done|].
  destruct (Verification.startTime v) as [t|]; [|done].
  etrans; [apply IH|]. destruct (t <? oneHourAgo); [|done].
  apply delete_sublist.
Qed.

Lemma call_completed this content userId verificationId uuidv4 now :
  Forall completed_with_result (activeVerifications this) ->
  Forall completed_with_result
    (activeVerifications
       (fst (verifyContent_call this content userId verificationId uuidv4
                                now))).
Proof.
  intros Hinv. destruct content; try exact Hinv.
  cbn [verifyContent_call fst activeVerifications].
  apply Forall_set; [|exact Hinv]. intros k'. intros Hst. discriminate Hst.
Qed.

Lemma settle_completed this p analyzer now :
  Forall completed_with_result (activeVerifications this) ->
  Forall completed_with_result
    (activeVerifications (fst (verifyContent_settle this p analyzer now))).
Proof.
  intros Hinv. rewrite verifyContent_settle_unfold.
  assert (Hcatch : forall e,
    Forall completed_with_result
      (activeVerifications (fst (verifyContent_catch this (Pending.id p) e)))).
  { intros e. cbn. apply Forall_set; [|exact Hinv].
    intros k' Hst. discriminate Hst. }
  destruct (Promise_all _) as [e|agentResults] eqn:Hall; [apply Hcatch|].
  destruct (JsMap.get _ _) as [previous|]; [|apply Hcatch].
  destruct (Verification.startTime previous); [|apply Hcatch].
  cbn. apply Forall_set; [|exact Hinv].
  intros k' _. eexists. split; [reflexivity|].
  split; cbn; [|reflexivity].
  apply (Promise_all_fulfilled p analyzer), Hall.
Qed.

Lemma cleanup_completed this now :
  Forall completed_with_result (activeVerifications this) ->
  Forall completed_with_result
    (activeVerifications (fst (cleanupOldVerifications this now))).
Proof.
  intros Hinv. unfold cleanupOldVerifications.
  pose proof (sweepEntries_sublist (now - 60 * 60 * 1000)
                (activeVerifications this) (activeVerifications this)) as Hsub.
  destruct (sweepEntries _ _ _) as [m thrown]. cbn in *.
  eapply sublist_Forall; eauto.
Qed.

Lemma perform_completed w a :
  Forall completed_with_result (activeVerifications (object w)) ->
  Forall completed_with_result (activeVerifications (object (perform w a))).
Proof.
  intros Hinv.
  destruct a as [content userId verificationId uuidv4 now|n analyzer now|now];
    cbn [perform].
  - pose proof (call_completed (object w) content userId verificationId
                  uuidv4 now Hinv) as Hcall.
    destruct (verifyContent_call _ _ _ _ _ _) as [this [e|p]]; exact Hcall.
  - destruct (nth_error (waiting w) n); [|exact Hinv].
    by apply settle_completed.
  - by apply cleanup_completed.
Qed.

Lemma run_completed actions w :
  Forall completed_with_result (activeVerifications (object w)) ->
  Forall completed_with_result
    (activeVerifications (object (run actions w))).
Proof.
  revert w. induction actions as [|a actions IH]; intros w Hinv; [done|].
  apply IH, perform_completed, Hinv.
Qed.

Lemma settle_lists_selection id selected this p analyzer now :
  lists_selection id selected this ->
  lists_selection id selected
    (fst (verifyContent_settle this p analyzer now)).
Proof.
  intros Hinv v. unfold getVerification.
  rewrite verifyContent_settle_unfold.
  assert (Hcatch : forall e,
    JsMap.get (activeVerifications
                 (fst (verifyContent_catch this (Pending.id p) e))) id
    = Some v ->
    is_Some (Verification.startTime v) ->
    Verification.agents v = Some selected).
  { intros e. cbn [verifyContent_catch fst withVerifications
                   activeVerifications].
    destruct (String.eqb_spec (Pending.id p) id) as [Heq|Hne].
    - rewrite Heq, get_set_eq. intros [= <-]. rewrite <- Heq.
      destruct (JsMap.get (activeVerifications this) (Pending.id p))
        as [previous|] eqn:Hprev; cbn.
      + intros Hstart. apply Hinv; [|exact Hstart].
        unfold getVerification. by rewrite <- Heq.
      + intros [t Ht]. discriminate Ht.
    - rewrite get_set_ne by exact Hne. apply Hinv. }
  destruct (Promise_all _) as [e|agentResults]; [apply Hcatch|].
  destruct (JsMap.get (activeVerifications this) (Pending.id p))
    as [previous|] eqn:Hprev; [|apply Hcatch].
  destruct (Verification.startTime previous) as [t|] eqn:Ht;
    [|apply Hcatch].
  cbn [fst withVerifications activeVerifications].
  destruct (String.eqb_spec (Pending.id p) id) as [Heq|Hne].
  - rewrite Heq, get_set_eq. intros [= <-]. cbn. intros _.
    apply Hinv; [|by rewrite Ht]. unfold getVerification. by rewrite <- Heq.
  - rewrite get_set_ne by exact Hne. apply Hinv.
Qed.

Lemma perform_lists_selection id selected w a :
  callsId id a = false ->
  lists_selection id selected (object w) ->
  lists_selection id selected (object (perform w a)).
Proof.
  intros Hother Hinv.
  destruct a as [content userId verificationId uuidv4 now|n analyzer now|now];
    cbn [perform].
  - destruct content; try exact Hinv.
    rewrite verifyContent_call_string. cbn zeta. cbn [object].
    intros v. unfold getVerification. cbn [activeVerifications].
    cbn [callsId] in Hother. apply String.eqb_neq in Hother.
    rewrite get_set_ne by exact Hother. apply Hinv.
  - destruct (nth_error (waiting w) n) as [p|]; [|exact Hinv].
    cbn [object]. by apply settle_lists_selection.
  - cbn [object]. intros v Hget. apply cleanup_get_Some in Hget.
    by apply Hinv.
Qed.

Lemma run_lists_selection id selected actions w :
  forallb (fun a => negb (callsId id a)) actions = true ->
  lists_selection id selected (object w) ->
  lists_selection id selected (object (run actions w)).
Proof.
  revert w. induction actions as [|a actions IH]; intros w Hfree Hw;
    [exact Hw|].
  cbn [forallb] in Hfree. apply andb_true_iff in Hfree as [Ha Hfree].
  apply negb_true_iff in Ha.
  cbn [run fold_left]. apply IH; [exact Hfree|].
  by apply perform_lists_selection.
Qed.

(** C9, as the code has it.  In every state the system can reach, a
    session whose status is [completed] holds a result whose per-analyzer
    results are one for each analyzer selected by the call that stored
    it (the [agents] of the result), in order, and whose overall result
    is the aggregate of these: it was computed once all of them had
    answered.  When no call under the same identifier ran between the
    call and its completion, whatever else ran in between (calls under
    other identifiers, completions, sweeps), the [agents] of the
    session record are these same analyzers. *)
Theorem completed_session_holds_complete_result :
  (forall w id v,
      reachable w ->
      getVerification (object w) id = Some v ->
      Verification.status v = "completed" ->
      exists result,
        Verification.result v = Some result /\ result_complete result)
  /\ (forall w content userId verificationId uuidv4 now between analyzer
             now' this1 p this2 result,
        verifyContent_call (object w) (JString content) userId
                           verificationId uuidv4 now = (this1, inr p) ->
        forallb (fun a => negb (callsId (Pending.id p) a)) between = true ->
        verifyContent_settle
          (object (run between
                     (perform w (Call (JString content) userId
                                      verificationId uuidv4 now))))
          p analyzer now' = (this2, inr result) ->
        exists v,
          getVerification this2 (Pending.id p) = Some v
          /\ Verification.status v = "completed"
          /\ Verification.result v = Some result
          /\ Verification.agents v = Some (Result.agents result)).
Proof.
  split.
  - intros w id v [actions ->] Hget Hst.
    assert (Hinv : Forall completed_with_result
                     (activeVerifications (object (run actions start)))).
    { apply run_completed. constructor. }
    apply get_In, list_elem_of_In in Hget.
    rewrite Forall_forall in Hinv. apply (Hinv (id, v) Hget Hst).
  - intros w content userId verificationId uuidv4 now between analyzer now'
           this1 p this2 result Hcall Hfree Hsettle.
    assert (Hinv : lists_selection (Pending.id p) (Pending.selectedAgents p)
                     (object (run between
                                (perform w (Call (JString content) userId
                                              verificationId uuidv4 now))))).
    { apply run_lists_selection; [exact Hfree|].
      cbn [perform]. rewrite Hcall. cbn [object].
      rewrite verifyContent_call_string in Hcall. cbn zeta in Hcall.
      injection Hcall as <- <-. cbn [Pending.id Pending.selectedAgents].
      intros v. unfold getVerification. cbn [activeVerifications].
      rewrite get_set_eq. intros Hv _. injection Hv as <-. reflexivity. }
    set (this := object (run between _)) in *.
    rewrite verifyContent_settle_unfold in Hsettle.
    unfold verifyContent_catch in Hsettle.
    destruct (Promise_all _) as [e|agentResults]; [discriminate|].
    destruct (JsMap.get (activeVerifications this) (Pending.id p))
      as [previous|] eqn:Hprev; [|discriminate].
    destruct (Verification.startTime previous) as [t|] eqn:Ht;
      [|discriminate].
    cbn zeta in Hsettle. injection Hsettle as <- <-.
    unfold getVerification. cbn [withVerifications activeVerifications].
    rewrite get_set_eq. eexists. split; [reflexivity|].
    cbn. repeat split.
    apply Hinv; [exact Hprev|]. by rewrite Ht.
Qed.

(** The completed session of [Samples.completedWorld]. *)
Lemma completed_session_holds_complete_result_witness :
  reachable Samples.completedWorld
  /\ exists v result,
       getVerification (object Samples.completedWorld) "s1" = Some v
       /\ Verification.status v = "completed"
       /\ Verification.result v = Some result
       /\ result_complete result.
Proof.
  assert (Hreach : reachable Samples.completedWorld)
    by (eexists; reflexivity).
  split; [exact Hreach|].
  destruct (getVerification (object Samples.completedWorld) "s1")
    as [v|] eqn:Hv; [|vm_compute in Hv; discriminate Hv].
  assert (Hst : Verification.status v = "completed").
  { vm_compute in Hv. injection Hv as <-. reflexivity. }
  destruct (proj1 completed_session_holds_complete_result
              Samples.completedWorld "s1" v Hreach Hv Hst)
    as (result & Hresult & Hcomplete).
  exists v, result. repeat split; try assumption; apply Hcomplete.
Defined.

(** C9 as stated fails: two calls share the identifier [s1]; when the
    first one completes, the record lists the analyzer of the second
    call ([scam]) and holds the result of the first ([news]). *)
Lemma completed_session_of_raced_calls_disagrees :
  exists v,
    reachable Samples.racedWorld
    /\ getVerification (object Samples.racedWorld) "s1" = Some v
    /\ ~ completed_matches_selection v.
Proof.
  eexists. split; [eexists; reflexivity|].
  split; [vm_compute; reflexivity|].
  intros Hclaim. destruct (Hclaim eq_refl) as (result & selected & Hr & Ha & Hm).
  injection Hr as <-. injection Ha as <-. vm_compute in Hm. discriminate Hm.
Qed.

(** *** Well-formed stores *)

Lemma get_set_is_Some {V} (m : list (string * V)) k v k' :
  is_Some (JsMap.get m k') -> is_Some (JsMap.get (JsMap.set m k v) k').
Proof.
  intros Hsome. destruct (String.eqb_spec k k') as [->|Hne].
  - rewrite get_set_eq. eauto.
  - by rewrite get_set_ne.
Qed.

Lemma cleanup_wellformed this now :
  store_wellformed (activeVerifications this) ->
  store_wellformed
    (activeVerifications (fst (cleanupOldVerifications this now))).
Proof.
  intros [Hnd Hall]. unfold cleanupOldVerifications.
  pose proof (sweepEntries_sublist (now - 60 * 60 * 1000)
                (activeVerifications this) (activeVerifications this)) as Hsub.
  destruct (sweepEntries _ _ _) as [m thrown]. cbn in *. split.
  - eapply sublist_NoDup; [exact Hnd|]. by apply map_sublist.
  - eapply sublist_Forall; eauto.
Qed.

Lemma perform_calls_recorded w a :
  isCleanup a = false -> calls_recorded w -> calls_recorded (perform w a).
Proof.
  intros Hnot [[Hnd Hall] Hwait].
  destruct a as [content userId verificationId uuidv4 now|n analyzer now|now];
    [| |discriminate]; cbn [perform].
  - destruct content; try (by repeat split).
    rewrite verifyContent_call_string. cbn zeta. repeat split.
    + by apply NoDup_keys_set.
    + apply Forall_set; [|exact Hall]. intros k'. cbn. eauto.
    + apply Forall_app. split.
      * eapply Forall_impl; [exact Hwait|].
        intros p' Hp'. by apply get_set_is_Some.
      * constructor; [|constructor]. unfold getVerification. cbn.
        rewrite get_set_eq. eauto.
  - destruct (nth_error (waiting w) n) as [p|] eqn:Hp; [|by repeat split].
    assert (Hrec : is_Some (getVerification (object w) (Pending.id p))).
    { rewrite Forall_forall in Hwait. apply Hwait, list_elem_of_In.
      eapply nth_error_In, Hp. }
    destruct Hrec as [previous Hprev]. unfold getVerification in Hprev.
    assert (Hstart : is_Some (Verification.startTime previous)).
    { rewrite Forall_forall in Hall.
      apply (Hall (Pending.id p, previous)), list_elem_of_In, get_In, Hprev. }
    destruct Hstart as [t Ht].
    assert (Hfst : exists v,
      is_Some (Verification.startTime v)
      /\ activeVerifications
           (fst (verifyContent_settle (object w) p analyzer now))
         = JsMap.set (activeVerifications (object w)) (Pending.id p) v).
    { rewrite verifyContent_settle_unfold.
      destruct (Promise_all _) as [e|agentResults].
      - eexists. split; [|reflexivity]. cbn. rewrite Hprev. cbn. eauto.
      - rewrite Hprev, Ht. eexists. split; [|reflexivity]. cbn. eauto. }
    destruct Hfst as (v & Hv & Hstore). cbn [object waiting].
    unfold calls_recorded, store_wellformed, getVerification.
    cbn [object waiting]. rewrite Hstore. repeat split.
    + by apply NoDup_keys_set.
    + apply Forall_set; [|exact Hall]. intros k'. exact Hv.
    + assert (Hsub : firstn n (waiting w) ++ skipn (S n) (waiting w)
                     `sublist_of` waiting w).
      { rewrite <- (firstn_skipn n (waiting w)) at 3.
        apply sublist_app; [done|].
        replace (S n) with (n + 1)%nat by lia.
        rewrite <- (drop_drop (waiting w) 1 n). apply sublist_drop. }
      eapply sublist_Forall; [exact Hsub|].
      eapply Forall_impl; [exact Hwait|].
      intros p' Hp'. by apply get_set_is_Some.
Qed.

Lemma run_calls_recorded actions w :
  forallb (fun a => negb (isCleanup a)) actions = true ->
  calls_recorded w -> calls_recorded (run actions w).
Proof.
  revert w. induction actions as [|a actions IH]; intros w Hfree Hw; [done|].
  cbn in Hfree. apply andb_true_iff in Hfree as [Ha Hfree].
  apply negb_true_iff in Ha.
  apply IH; [exact Hfree|]. by apply perform_calls_recorded.
Qed.

(** Until a sweep runs, the store stays well formed; and a sweep of a
    well-formed store leaves a well-formed store. *)
Lemma store_wellformed_until_sweep actions :
  forallb (fun a => negb (isCleanup a)) actions = true ->
  store_wellformed (activeVerifications (object (run actions start))).
Proof.
  intros Hfree. apply (run_calls_recorded actions start Hfree).
  repeat split; constructor.
Qed.

(** * Further properties *)

Import Stub.
Import MoreProps.

(** ** The risk level of the aggregate *)

Lemma double_verdict_closed agentResults :
  In (Double.Overall.verdict (Double.calculateOverallResult agentResults))
     ["DANGEROUS"; "FALSE"; "VERIFIED"; "SUSPICIOUS"; "UNVERIFIED"].
Proof.
  unfold Double.calculateOverallResult. cbn [Double.Overall.verdict].
  destruct (_ || _); [cbn; tauto|].
  destruct (includesVerdict _ "FALSE"); [cbn; tauto|].
  destruct (_ && _); [cbn; tauto|].
  destruct (includesVerdict _ "SUSPICIOUS"); cbn; tauto.
Qed.

(** X1.  The risk level of an overall result follows from its verdict
    and the mean [m] of the confidences as the code computes it in
    doubles: CRITICAL exactly for DANGEROUS, HIGH exactly for FALSE with
    [m] above 90, MEDIUM exactly for SUSPICIOUS, LOW exactly for
    UNVERIFIED, and MINIMAL for VERIFIED and for FALSE with [m] not
    above 90. *)
Theorem risk_level_of_overall_result agentResults :
  let overall := Double.calculateOverallResult agentResults in
  let verdict := Double.Overall.verdict overall in
  let risk := Double.Overall.riskLevel overall in
  let m := doubleMean (doublesOf agentResults) in
  (risk = "CRITICAL" <-> verdict = "DANGEROUS")
  /\ (risk = "HIGH" <-> verdict = "FALSE" /\ exceeds 90 m)
  /\ (risk = "MEDIUM" <-> verdict = "SUSPICIOUS")
  /\ (risk = "LOW" <-> verdict = "UNVERIFIED")
  /\ (risk = "MINIMAL"
      <-> verdict = "VERIFIED" \/ (verdict = "FALSE" /\ ~ exceeds 90 m)).
Proof.
  cbv zeta.
  assert (Hrisk :
    Double.Overall.riskLevel (Double.calculateOverallResult agentResults)
    = Double.calculateRiskLevel
        (Double.Overall.verdict (Double.calculateOverallResult agentResults))
        (doubleMean (doublesOf agentResults))).
  { unfold Double.calculateOverallResult.
    cbn [Double.Overall.riskLevel Double.Overall.verdict].
    by rewrite avgConfidence_doubleMean. }
  rewrite Hrisk.
  generalize (double_verdict_closed agentResults).
  generalize (Double.Overall.verdict
                (Double.calculateOverallResult agentResults)).
  intros verdict Hclosed.
  pose proof (ltb_exceeds_90 (doubleMean (doublesOf agentResults))) as Hgt.
  unfold Double.calculateRiskLevel. cbn in Hclosed.
  destruct Hclosed as [<-|[<-|[<-|[<-|[<-|[]]]]]];
    cbn [String.eqb Ascii.eqb Bool.eqb andb];
    try (intuition (try discriminate; auto); fail).
  destruct (90 <? doubleMean (doublesOf agentResults))%float.
  - assert (H1 : exceeds 90 (doubleMean (doublesOf agentResults)))
      by (by apply Hgt).
    intuition (try discriminate; auto).
  - assert (H1 : ~ exceeds 90 (doubleMean (doublesOf agentResults))).
    { intros H. apply Hgt in H. discriminate H. }
    intuition (try discriminate; auto).
Qed.

(** ** The analyzers of the source *)

Lemma getHeuristicResponse_ranges agent content random :
  (0 <= random)%Q -> (random < 1)%Q ->
  let r := getHeuristicResponse agent content random in
  if hasSuspiciousPattern content && fraudOriented agent
  then Response.verdict r = "SUSPICIOUS"
       /\ (85 <= Response.confidence r)%Q /\ (Response.confidence r < 95)%Q
  else Response.verdict r = "UNVERIFIED"
       /\ (50 <= Response.confidence r)%Q /\ (Response.confidence r < 80)%Q.
Proof.
  intros H0 H1. cbv zeta. unfold getHeuristicResponse.
  fold (hasSuspiciousPattern content). fold (fraudOriented agent).
  destruct (hasSuspiciousPattern content && fraudOriented agent);
    cbn [Response.verdict Response.confidence]; repeat split; lra.
Qed.

Lemma getScenarioResponse_facts agent scenario :
  let r := getScenarioResponse agent scenario in
  Response.verdict r = Scenario.expectedResult scenario
  /\ Response.confidence r = Scenario.confidence scenario
  /\ head (Response.evidence r) = Some (Scenario.explanation scenario).
Proof.
  cbv zeta. unfold getScenarioResponse.
  repeat match goal with
         | |- context [if ?b then _ else _] => destruct b
         end; repeat split; reflexivity.
Qed.

Lemma generateAgentResponse_unfold scenarios agent content random :
  generateAgentResponse scenarios agent content random
  = match findScenario scenarios content with
    | Some scenario => getScenarioResponse agent scenario
    | None => getHeuristicResponse agent content random
    end.
Proof. reflexivity. Qed.

Lemma findScenario_loaded scenario content :
  In scenario loadScenarios ->
  toLowerCase content = toLowerCase (Scenario.content scenario) ->
  findScenario loadScenarios content = Some scenario.
Proof.
  intros Hin Hlow. unfold findScenario. rewrite Hlow.
  cbn in Hin.
  destruct Hin as [<-|[<-|[<-|[<-|[<-|[]]]]]]; vm_compute; reflexivity.
Qed.

(** X2.  For content that is, letter case apart, the content of a demo
    scenario, every analyzer answers with that scenario: its expected
    result as the verdict, its confidence, and its explanation as the
    first piece of evidence, whatever the random number. *)
Theorem known_scenario_answers agent scenario content random :
  In scenario loadScenarios ->
  toLowerCase content = toLowerCase (Scenario.content scenario) ->
  let r := generateAgentResponse loadScenarios agent content random in
  Response.verdict r = Scenario.expectedResult scenario
  /\ Response.confidence r = Scenario.confidence scenario
  /\ head (Response.evidence r) = Some (Scenario.explanation scenario).
Proof.
  intros Hin Hlow. cbv zeta.
  rewrite generateAgentResponse_unfold, (findScenario_loaded _ _ Hin Hlow).
  apply getScenarioResponse_facts.
Qed.

Lemma known_scenario_answers_witness :
  Response.verdict
    (generateAgentResponse loadScenarios
       (Agent.mk "news" "News Verification Agent" [] 3500)
       "nasa ANNOUNCES new Mars mission scheduled for 2026" (1 # 3))
  = "TRUE".
Proof.
  refine (proj1 (known_scenario_answers
                   (Agent.mk "news" "News Verification Agent" [] 3500)
                   (Scenario.mk "legitimate_news" Samples.nasa "TRUE" 87
                      "Verified by official sources, aligns with space program timeline")
                   "nasa ANNOUNCES new Mars mission scheduled for 2026"
                   (1 # 3) _ _)).
  - vm_compute. tauto.
  - vm_compute. reflexivity.
Defined.

(** *** Analyzers that agree *)

Lemma sum_uniform (xs : list Q) (q : Q) :
  Forall (fun x => x = q) xs ->
  (fold_right Qplus 0 xs == inject_Z (Z.of_nat (length xs)) * q)%Q.
Proof.
  induction 1 as [|x xs -> _ IH].
  - cbn [fold_right length]. change (inject_Z (Z.of_nat 0)) with 0%Q. lra.
  - cbn [fold_right length]. rewrite IH, Nat2Z.inj_succ. unfold Z.succ.
    rewrite inject_Z_plus. change (inject_Z 1) with 1%Q. lra.
Qed.

Lemma mean_uniform (xs : list Q) (q : Q) :
  xs <> [] -> Forall (fun x => x = q) xs -> (mean xs == q)%Q.
Proof.
  intros Hne Hall. unfold mean. rewrite (sum_uniform xs q Hall).
  assert (Hn : ~ (inject_Z (Z.of_nat (length xs)) == 0)%Q).
  { destruct xs; [done|]. intros H. apply (Qlt_irrefl 0).
    rewrite <- H at 2. rewrite <- (Zlt_Qlt 0). cbn [length]. lia. }
  field. exact Hn.
Qed.

Lemma includesVerdict_uniform rs v x :
  rs <> [] -> Forall (fun r => AgentResult.verdict r = v) rs ->
  includesVerdict (map AgentResult.verdict rs) x = String.eqb x v.
Proof.
  intros Hne Hall. unfold includesVerdict.
  induction Hall as [|r rs Hr Hall IH]; [done|].
  cbn [map existsb]. rewrite Hr.
  destruct (String.eqb x v) eqn:Hxv; [reflexivity|].
  destruct rs as [|r' rs']; [reflexivity|]. cbn [orb]. apply IH. discriminate.
Qed.

Lemma uniform_overall agentResults v q :
  agentResults <> [] ->
  Forall (fun r => AgentResult.verdict r = v
                   /\ AgentResult.confidence r = q) agentResults ->
  Overall.verdict (calculateOverallResult agentResults)
  = verdictOfUniform v q
  /\ Overall.confidence (calculateOverallResult agentResults)
     = Some (Math_round q).
Proof.
  intros Hne Hall.
  assert (Hv : Forall (fun r => AgentResult.verdict r = v) agentResults).
  { eapply Forall_impl; [exact Hall|]. by intros r [? ?]. }
  assert (Hq : Forall (fun x => x = q) (confidences agentResults)).
  { unfold confidences. apply Forall_map.
    eapply Forall_impl; [exact Hall|]. by intros r [? ?]. }
  destruct (avgConfidence_mean agentResults Hne) as (a & Ha & Heq).
  assert (Haq : (a == q)%Q).
  { rewrite Heq. apply mean_uniform; [|exact Hq].
    unfold confidences. destruct agentResults; [done|discriminate]. }
  unfold calculateOverallResult.
  cbn [Overall.verdict Overall.confidence]. rewrite Ha.
  rewrite !(includesVerdict_uniform _ v) by assumption.
  split.
  - unfold verdictOfUniform, js_gt.
    assert (Hle : Qle_bool a 80 = Qle_bool q 80).
    { apply eq_true_iff_eq. rewrite !Qle_bool_iff, Haq. reflexivity. }
    rewrite Hle.
    rewrite (String.eqb_sym "MALICIOUS"), (String.eqb_sym "SCAM"),
            (String.eqb_sym "FALSE"), (String.eqb_sym "TRUE"),
            (String.eqb_sym "SUSPICIOUS").
    reflexivity.
  - cbn. f_equal. by apply Math_round_comp.
Qed.



(** *** A verification with the analyzers of the source *)

Lemma firstRejection_stub scenarios content started random p :
  firstRejection
    (processAgents p (stubAnalyzer scenarios content started random)) = None.
Proof.
  unfold processAgents.
  induction (Pending.selectedAgents p) as [|agent l IH]; [reflexivity|].
  cbn [map]. unfold stubAnalyzer at 1. destruct (random agent) as [r1 r2].
  cbn [firstRejection]. exact IH.
Qed.

Lemma Promise_all_stub scenarios p random :
  Promise_all
    (processAgents p (stubAnalyzer scenarios (Pending.content p)
                                   (Pending.started p) random))
  = inr (stubResults scenarios (Pending.content p) (Pending.started p)
                     random (Pending.selectedAgents p)).
Proof.
  unfold Promise_all. rewrite firstRejection_stub. f_equal.
  unfold processAgents, stubResults.
  induction (Pending.selectedAgents p) as [|agent l IH]; [reflexivity|].
  cbn [map]. unfold stubAnalyzer at 1 3. destruct (random agent) as [r1 r2].
  cbn [fulfilledValues fst snd]. f_equal. exact IH.
Qed.

(** X4.  The analyzers of the source never raise, so a verification
    fails only over its own record: when the session is still stored
    with its start time, the verification completes with one result per
    selected analyzer and the time since that start as processing time;
    when the record was removed meanwhile (or lost its start time), the
    continuation throws a TypeError and, in the first case, stores a
    failed record without start time. *)
Theorem stub_verification_completes this p random now :
  let analyzer := stubAnalyzer (scenarios this) (Pending.content p)
                               (Pending.started p) random in
  let outcome := verifyContent_settle this p analyzer now in
  match getVerification this (Pending.id p) with
  | Some previous =>
      match Verification.startTime previous with
      | Some startTime =>
          exists result,
            snd outcome = inr result
            /\ Result.agentResults result
               = stubResults (scenarios this) (Pending.content p)
                             (Pending.started p) random
                             (Pending.selectedAgents p)
            /\ Result.processingTime result = now - startTime
            /\ getVerification (fst outcome) (Pending.id p)
               = Some (completedRecord previous result)
      | None => exists e, snd outcome = inl (TypeError e)
      end
  | None =>
      exists e,
        snd outcome = inl (TypeError e)
        /\ exists v, getVerification (fst outcome) (Pending.id p) = Some v
                     /\ Verification.status v = "failed"
                     /\ Verification.startTime v = None
  end.
Proof.
  cbv zeta. rewrite verifyContent_settle_unfold, Promise_all_stub.
  unfold getVerification.
  destruct (JsMap.get (activeVerifications this) (Pending.id p))
    as [previous|] eqn:Hprev.
  - destruct (Verification.startTime previous) as [t|] eqn:Ht.
    + eexists. split; [reflexivity|]. split; [reflexivity|].
      split; [reflexivity|]. cbn. by rewrite get_set_eq.
    + eexists. reflexivity.
  - eexists. split; [reflexivity|]. eexists. cbn. rewrite get_set_eq.
    split; [reflexivity|]. rewrite Hprev. split; reflexivity.
Qed.

(** *** Content of a demo scenario *)

Lemma stubResults_known scenario content started random selected :
  In scenario loadScenarios ->
  toLowerCase content = toLowerCase (Scenario.content scenario) ->
  Forall (fun r => AgentResult.verdict r = Scenario.expectedResult scenario
                   /\ AgentResult.confidence r = Scenario.confidence scenario)
         (stubResults loadScenarios content started random selected).
Proof.
  intros Hin Hlow. unfold stubResults. apply Forall_map, Forall_forall.
  intros agent _. cbn [processAgent AgentResult.verdict AgentResult.confidence].
  rewrite generateAgentResponse_unfold, (findScenario_loaded _ _ Hin Hlow).
  destruct (getScenarioResponse_facts agent scenario) as (Hv & Hc & _).
  by split.
Qed.

(** X5.  For content that is, letter case apart, the content of a demo
    scenario, the overall result of the source's analyzers is decided
    by the scenario alone, whichever analyzers were selected: the
    verdict is the one a unanimous vote for its expected result gives,
    and the confidence is the scenario's, rounded. *)
Theorem known_scenario_overall scenario content started random selected :
  In scenario loadScenarios ->
  toLowerCase content = toLowerCase (Scenario.content scenario) ->
  selected <> [] ->
  let overall := calculateOverallResult
                   (stubResults loadScenarios content started random
                                selected) in
  Overall.verdict overall
  = verdictOfUniform (Scenario.expectedResult scenario)
                     (Scenario.confidence scenario)
  /\ Overall.confidence overall
     = Some (Math_round (Scenario.confidence scenario)).
Proof.
  intros Hin Hlow Hne. cbv zeta. apply uniform_overall.
  - unfold stubResults. destruct selected; [done|discriminate].
  - by apply stubResults_known.
Qed.

Lemma known_scenario_overall_witness :
  Overall.verdict
    (calculateOverallResult
       (stubResults loadScenarios Samples.mixed_content 0
                    (fun _ => (1 # 2, 1 # 2)%Q)
                    (selectAgents loadAgents Samples.mixed_content)))
  = "UNVERIFIED".
Proof.
  refine (proj1 (known_scenario_overall
                   (Scenario.mk "mixed_content" Samples.mixed_content
                      "UNVERIFIED" 65
                      "Climate connection valid, but statistics unverified and suspicious link")
                   Samples.mixed_content 0 (fun _ => (1 # 2, 1 # 2)%Q)
                   (selectAgents loadAgents Samples.mixed_content) _ _ _)).
  - vm_compute. tauto.
  - reflexivity.
  - vm_compute. discriminate.
Defined.

(** *** Content of no demo scenario *)

Lemma stubResults_unknown scenarios content started random selected :
  findScenario scenarios content = None ->
  (forall agent, (0 <= snd (random agent))%Q /\ (snd (random agent) < 1)%Q) ->
  Forall (fun r =>
            (50 <= AgentResult.confidence r)%Q
            /\ (AgentResult.confidence r < 95)%Q
            /\ (AgentResult.verdict r = "SUSPICIOUS"
                \/ AgentResult.verdict r = "UNVERIFIED"))
         (stubResults scenarios content started random selected).
Proof.
  intros Hnone Hrandom. unfold stubResults. apply Forall_map, Forall_forall.
  intros agent _. cbn [processAgent AgentResult.verdict AgentResult.confidence].
  rewrite generateAgentResponse_unfold, Hnone.
  destruct (Hrandom agent) as [H0 H1].
  pose proof (getHeuristicResponse_ranges agent content (snd (random agent))
                H0 H1) as Hr. cbv zeta in Hr.
  destruct (hasSuspiciousPattern content && fraudOriented agent);
    destruct Hr as (-> & Hlo & Hhi); repeat split; try lra; tauto.
Qed.

Lemma stubResults_suspicious scenarios content started random selected :
  findScenario scenarios content = None ->
  includesVerdict
    (map AgentResult.verdict
         (stubResults scenarios content started random selected))
    "SUSPICIOUS"
  = hasSuspiciousPattern content && existsb fraudOriented selected.
Proof.
  intros Hnone. unfold stubResults, includesVerdict.
  induction selected as [|agent l IH].
  - cbn. by rewrite andb_false_r.
  - cbn [map existsb]. rewrite IH.
    cbn [processAgent AgentResult.verdict].
    rewrite generateAgentResponse_unfold, Hnone.
    unfold getHeuristicResponse. fold (hasSuspiciousPattern content).
    fold (fraudOriented agent).
    destruct (hasSuspiciousPattern content), (fraudOriented agent);
      reflexivity.
Qed.

(** X6.  For content of no demo scenario the source's analyzers never
    find anything true, false or dangerous: the overall verdict is
    SUSPICIOUS with risk MEDIUM when the content shows one of the
    suspicious phrases and the scam or the phishing analyzer is among
    the selected ones, and UNVERIFIED with risk LOW otherwise; the
    overall confidence is a number from 50 to 95. *)
Theorem unknown_content_overall scenarios content started random selected :
  findScenario scenarios content = None ->
  (forall agent, (0 <= snd (random agent))%Q /\ (snd (random agent) < 1)%Q) ->
  selected <> [] ->
  let overall := calculateOverallResult
                   (stubResults scenarios content started random selected) in
  (if hasSuspiciousPattern content && existsb fraudOriented selected
   then Overall.verdict overall = "SUSPICIOUS"
        /\ Overall.riskLevel overall = "MEDIUM"
   else Overall.verdict overall = "UNVERIFIED"
        /\ Overall.riskLevel overall = "LOW")
  /\ exists c, Overall.confidence overall = Some c /\ 50 <= c <= 95.
Proof.
  intros Hnone Hrandom Hne. cbv zeta.
  set (rs := stubResults scenarios content started random selected).
  assert (Hrs : rs <> []).
  { subst rs. unfold stubResults. destruct selected; [done|discriminate]. }
  pose proof (stubResults_unknown scenarios content started random selected
                Hnone Hrandom) as Hall. fold rs in Hall.
  assert (Hnot : forall x, x <> "SUSPICIOUS" -> x <> "UNVERIFIED" ->
                 includesVerdict (map AgentResult.verdict rs) x = false).
  { intros x Hx1 Hx2. apply includesVerdict_not_In. intros Hin.
    apply in_map_iff in Hin as (r & <- & Hin).
    rewrite Forall_forall in Hall. apply list_elem_of_In in Hin.
    destruct (Hall r Hin) as (_ & _ & [H|H]); congruence. }
  split.
  - pose proof (stubResults_suspicious scenarios content started random
                  selected Hnone) as Hsus. fold rs in Hsus.
    unfold calculateOverallResult.
    cbn [Overall.verdict Overall.riskLevel].
    rewrite (Hnot "MALICIOUS"), (Hnot "SCAM"), (Hnot "FALSE"), (Hnot "TRUE")
      by discriminate.
    cbn [orb andb]. rewrite Hsus.
    destruct (hasSuspiciousPattern content && existsb fraudOriented selected);
      split; reflexivity.
  - destruct (avgConfidence_mean rs Hrs) as (a & Ha & Heq).
    exists (Math_round a). split.
    + unfold calculateOverallResult. cbn [Overall.confidence]. by rewrite Ha.
    + assert (Hm : (50 <= mean (confidences rs) <= 95)%Q).
      { clear -Hall Hrs.
        assert (Hs : (50 * inject_Z (Z.of_nat (length (confidences rs)))
                      <= fold_right Qplus 0 (confidences rs)
                      <= 95 * inject_Z (Z.of_nat (length (confidences rs))))%Q).
        { unfold confidences. clear Hrs.
          induction Hall as [|r l (Hlo & Hhi & _) _ IH].
          - cbn [map fold_right length].
            change (inject_Z (Z.of_nat 0)) with 0%Q. split; lra.
          - cbn [map fold_right length]. rewrite Nat2Z.inj_succ.
            unfold Z.succ. rewrite inject_Z_plus.
            change (inject_Z 1) with 1%Q. split; lra. }
        assert (Hn : (0 < inject_Z (Z.of_nat (length (confidences rs))))%Q).
        { unfold confidences. rewrite length_map. destruct rs; [done|].
          rewrite <- (Zlt_Qlt 0). cbn [length]. lia. }
        unfold mean. split.
        - apply Qle_shift_div_l; [exact Hn|]. lra.
        - apply Qle_shift_div_r; [exact Hn|]. lra. }
      rewrite (Math_round_comp a _ Heq). unfold Math_round. split.
      * change 50 with (Qfloor (50 + (1 # 2))). apply Qfloor_resp_le. lra.
      * change 95 with (Qfloor (95 + (1 # 2))). apply Qfloor_resp_le. lra.
Qed.

Lemma unknown_content_overall_witness :
  Overall.verdict
    (calculateOverallResult
       (stubResults loadScenarios "Click here to win the lottery" 0
                    (fun _ => (1 # 2, 1 # 2)%Q)
                    (selectAgents loadAgents "Click here to win the lottery")))
  = "SUSPICIOUS"
  /\ Overall.riskLevel
       (calculateOverallResult
          (stubResults loadScenarios "Click here to win the lottery" 0
                       (fun _ => (1 # 2, 1 # 2)%Q)
                       (selectAgents loadAgents
                                     "Click here to win the lottery")))
     = "MEDIUM".
Proof.
  refine (proj1 (unknown_content_overall
                   loadScenarios "Click here to win the lottery" 0
                   (fun _ => (1 # 2, 1 # 2)%Q)
                   (selectAgents loadAgents "Click here to win the lottery")
                   _ _ _)).
  - vm_compute. reflexivity.
  - intros agent. cbn. split; lra.
  - vm_compute. discriminate.
Defined.

(** ** Selection and letter case *)

Lemma toLowerCase_unit_idem c :
  toLowerCase_unit (toLowerCase_unit c) = toLowerCase_unit c.
Proof.
  destruct c as [[] [] [] [] [] [] [] []]; vm_compute; reflexivity.
Qed.

Lemma toLowerCase_idem s : toLowerCase (toLowerCase s) = toLowerCase s.
Proof.
  induction s as [|c s IH]; [reflexivity|].
  cbn [toLowerCase]. by rewrite toLowerCase_unit_idem, IH.
Qed.

(** X7.  Both selectors read the content through [toLowerCase] only:
    contents that differ in letter case alone get the same analyzers,
    and a content gets the analyzers of its lower-case form. *)
Theorem selection_ignores_letter_case content content' :
  toLowerCase content = toLowerCase content' ->
  selectAgents loadAgents content = selectAgents loadAgents content'
  /\ determineActiveAgents content = determineActiveAgents content'
  /\ selectAgents loadAgents (toLowerCase content)
     = selectAgents loadAgents content
  /\ determineActiveAgents (toLowerCase content)
     = determineActiveAgents content.
Proof.
  intros Hlow. unfold selectAgents, determineActiveAgents.
  rewrite toLowerCase_idem, Hlow. repeat split; reflexivity.
Qed.

Lemma selection_ignores_letter_case_witness :
  toLowerCase "BREAKING News" = toLowerCase "breaking news"
  /\ selectAgents loadAgents "BREAKING News"
     = selectAgents loadAgents "breaking news".
Proof.
  assert (Hlow : toLowerCase "BREAKING News" = toLowerCase "breaking news")
    by reflexivity.
  split; [exact Hlow|].
  exact (proj1 (selection_ignores_letter_case "BREAKING News"
                  "breaking news" Hlow)).
Defined.

(** X8.  The bot's selection, member by member: a configured analyzer
    is selected exactly when one of its keywords occurs in the
    lower-cased content, or when no keyword of any analyzer occurs and
    it is the news or the fact analyzer. *)
Theorem selectAgents_membership content agent :
  In agent (selectAgents loadAgents content)
  <-> In agent loadAgents
      /\ (hasKeyword (toLowerCase content) agent = true
          \/ (forallb (fun a => negb (hasKeyword (toLowerCase content) a))
                      loadAgents = true
              /\ (Agent.id agent = "news" \/ Agent.id agent = "fact"))).
Proof.
  unfold selectAgents.
  destruct (List.filter (hasKeyword (toLowerCase content)) loadAgents)
    as [|a l] eqn:Hsel.
  - assert (Hnone : forallb (fun a => negb (hasKeyword (toLowerCase content) a))
                            loadAgents = true).
    { apply forallb_forall. intros a Ha. apply negb_true_iff.
      apply not_true_is_false. intros Hk.
      assert (Hin : In a (List.filter (hasKeyword (toLowerCase content))
                                      loadAgents))
        by (apply filter_In; by split).
      rewrite Hsel in Hin. destruct Hin. }
    rewrite Hnone. cbn [length Nat.eqb].
    assert (Hno : hasKeyword (toLowerCase content) agent = true ->
                  In agent loadAgents -> False).
    { intros Hk Ha. rewrite forallb_forall in Hnone.
      specialize (Hnone agent Ha). by rewrite Hk in Hnone. }
    split.
    + vm_compute. intros [<-|[<-|[]]]; (split; [tauto|]); right; split; auto.
    + intros [Ha [Hk|[_ Hid]]]; [by destruct (Hno Hk Ha)|].
      cbn in Ha.
      destruct Ha as [<-|[<-|[<-|[<-|[<-|[<-|[]]]]]]];
        cbn in Hid; destruct Hid as [Hid|Hid]; try discriminate Hid;
        vm_compute; tauto.
  - cbn [length Nat.eqb]. rewrite filter_Boolean_Some, <- Hsel.
    rewrite filter_In.
    assert (Hsome : forallb (fun a => negb (hasKeyword (toLowerCase content) a))
                            loadAgents = false).
    { apply not_true_is_false. intros Hall. rewrite forallb_forall in Hall.
      assert (Hin : In a (List.filter (hasKeyword (toLowerCase content))
                                      loadAgents))
        by (rewrite Hsel; by left).
      apply filter_In in Hin as [Ha Hk]. specialize (Hall a Ha).
      by rewrite Hk in Hall. }
    rewrite Hsome. split; [tauto|].
    intros [Ha [Hk|[Hf _]]]; [tauto|discriminate].
Qed.

(** X9.  The loop of the web selector computes what can be said in one
    piece: [phishing] first when the lower-cased content shows a URL,
    then every analyzer one of whose triggers occurs, in the order of
    declaration ([phishing] not a second time); the pair news and fact
    when that is empty; of all this the first four. *)
Theorem determineActiveAgents_in_words content :
  determineActiveAgents content = selectionInWords content.
Proof.
  unfold determineActiveAgents, selectionInWords.
  rewrite fold_trigger_step.
  generalize (toLowerCase content) as contentLower. intros contentLower.
  generalize (matchesUrl contentLower) as url. intros url.
  unfold triggered.
  cbn [flags map triggers fst snd AGENTS List.filter List.find String.eqb
       Ascii.eqb Bool.eqb].
  name_flags. case_flags; reflexivity.
Qed.

(** ** The session store, once more *)

Lemma settle_store this p analyzer now :
  exists v,
    activeVerifications (fst (verifyContent_settle this p analyzer now))
    = JsMap.set (activeVerifications this) (Pending.id p) v
    /\ (Verification.status v = "completed"
        \/ Verification.status v = "failed")
    /\ record_shape v.
Proof.
  rewrite verifyContent_settle_unfold.
  assert (Hcatch : forall e, exists v,
    activeVerifications (fst (verifyContent_catch this (Pending.id p) e))
    = JsMap.set (activeVerifications this) (Pending.id p) v
    /\ (Verification.status v = "completed"
        \/ Verification.status v = "failed")
    /\ record_shape v).
  { intros e. eexists. split; [reflexivity|]. split; [by right|].
    right. right. split; [reflexivity|]. cbn. eauto. }
  destruct (Promise_all _) as [e|agentResults]; [apply Hcatch|].
  destruct (JsMap.get _ _) as [previous|]; [|apply Hcatch].
  destruct (Verification.startTime previous) as [t|] eqn:Ht; [|apply Hcatch].
  eexists. split; [reflexivity|]. split; [by left|].
  right. left. cbn. rewrite Ht. eauto.
Qed.

(** X10.  A verification touches no session but its own: neither the
    call nor its continuation changes what is stored under another
    identifier. *)
Theorem verification_writes_only_its_session this content userId
    verificationId uuidv4 p analyzer now id :
  id <> orUuid verificationId uuidv4 ->
  id <> Pending.id p ->
  getVerification
    (fst (verifyContent_call this content userId verificationId uuidv4 now))
    id
  = getVerification this id
  /\ getVerification (fst (verifyContent_settle this p analyzer now)) id
     = getVerification this id.
Proof.
  intros Hcall Hsettle. split.
  - destruct content; try reflexivity.
    rewrite verifyContent_call_string. unfold getVerification. cbn.
    by rewrite get_set_ne.
  - unfold getVerification.
    destruct (settle_store this p analyzer now) as (v & -> & _).
    by rewrite get_set_ne.
Qed.

Lemma verification_writes_only_its_session_witness :
  getVerification
    (fst (verifyContent_call (object Samples.completedWorld)
            (JString "breaking news") "bob" (Some "s2") "uuid-2" 6000))
    "s1"
  = getVerification (object Samples.completedWorld) "s1".
Proof.
  refine (proj1 (verification_writes_only_its_session
                   (object Samples.completedWorld) (JString "breaking news")
                   "bob" (Some "s2") "uuid-2"
                   (Pending.mk "s2" "breaking news" [] 6000)
                   (Samples.stub "breaking news" 6000) 9000 "s1" _ _)).
  - vm_compute. discriminate.
  - vm_compute. discriminate.
Defined.

(** X11.  Nothing a running system does changes its analyzers or its
    demo scenarios: they are those the constructor loaded. *)
Theorem reachable_keeps_configuration w :
  reachable w ->
  agents (object w) = loadAgents /\ scenarios (object w) = loadScenarios.
Proof.
  intros [actions ->].
  assert (Hgen : forall w0,
    agents (object w0) = loadAgents /\ scenarios (object w0) = loadScenarios ->
    agents (object (run actions w0)) = loadAgents
    /\ scenarios (object (run actions w0)) = loadScenarios).
  { induction actions as [|a actions IH]; intros w0 Hw0; [exact Hw0|].
    cbn [run fold_left]. apply IH.
    destruct a as [content userId verificationId uuidv4 now|n analyzer now
                  |now]; cbn [perform].
    - destruct content; exact Hw0.
    - destruct (nth_error (waiting w0) n) as [p|]; [|exact Hw0].
      cbn [object]. rewrite verifyContent_settle_unfold.
      destruct (Promise_all _); [exact Hw0|].
      destruct (JsMap.get _ _) as [previous|]; [|exact Hw0].
      destruct (Verification.startTime previous); exact Hw0.
    - cbn [object]. unfold cleanupOldVerifications.
      destruct (sweepEntries _ _ _). exact Hw0. }
  apply Hgen. split; reflexivity.
Qed.

Lemma reachable_keeps_configuration_witness :
  reachable Samples.racedWorld
  /\ agents (object Samples.racedWorld) = loadAgents
  /\ scenarios (object Samples.racedWorld) = loadScenarios.
Proof.
  assert (Hreach : reachable Samples.racedWorld)
    by (eexists; reflexivity).
  split; [exact Hreach|].
  exact (reachable_keeps_configuration Samples.racedWorld Hreach).
Defined.

(** *** Sessions marked processing *)

Lemma In_remove_nth {A} (l : list A) n x y :
  nth_error l n = Some y -> In x l -> x <> y ->
  In x (firstn n l ++ skipn (S n) l).
Proof.
  revert n. induction l as [|a l IH]; intros n Hn Hin Hxy; [destruct Hin|].
  destruct n as [|n]; cbn in *.
  - injection Hn as ->. destruct Hin as [->|Hin]; [done|exact Hin].
  - destruct Hin as [->|Hin]; [by left|]. right. by apply IH.
Qed.

Lemma perform_processing w a :
  processing_is_waiting w -> processing_is_waiting (perform w a).
Proof.
  intros Hinv.
  destruct a as [content userId verificationId uuidv4 now|n analyzer now|now];
    cbn [perform].
  - destruct content; try exact Hinv.
    rewrite verifyContent_call_string. cbn zeta.
    intros id v Hget Hst. unfold getVerification in Hget.
    cbn [object activeVerifications waiting] in *.
    destruct (String.eqb_spec (orUuid verificationId uuidv4) id) as [Heq|Hne].
    + rewrite Heq, get_set_eq in Hget. injection Hget as <-.
      eexists _, userId. split; [apply in_or_app; right; by left|].
      split; [exact Heq|reflexivity].
    + rewrite get_set_ne in Hget by exact Hne.
      destruct (Hinv id v Hget Hst) as (p & u & Hin & Hid & Hv).
      exists p, u. split; [apply in_or_app; by left|]. by split.
  - destruct (nth_error (waiting w) n) as [p|] eqn:Hp; [|exact Hinv].
    intros id v Hget Hst. unfold getVerification in Hget.
    cbn [object waiting] in *.
    destruct (settle_store (object w) p analyzer now)
      as (v' & Hstore & Hv' & _).
    rewrite Hstore in Hget.
    destruct (String.eqb_spec (Pending.id p) id) as [Heq|Hne].
    + rewrite Heq, get_set_eq in Hget. injection Hget as <-.
      destruct Hv' as [Hv'|Hv']; rewrite Hv' in Hst; discriminate Hst.
    + rewrite get_set_ne in Hget by exact Hne.
      destruct (Hinv id v Hget Hst) as (p' & u & Hin & Hid & Hv).
      exists p', u. split; [|by split].
      eapply In_remove_nth; [exact Hp|exact Hin|]. congruence.
  - intros id v Hget Hst. cbn [object waiting] in *.
    apply cleanup_get_Some in Hget. apply (Hinv id v Hget Hst).
Qed.

Lemma run_processing actions w :
  processing_is_waiting w -> processing_is_waiting (run actions w).
Proof.
  revert w. induction actions as [|a actions IH]; intros w Hw; [exact Hw|].
  cbn [run fold_left]. apply IH, perform_processing, Hw.
Qed.

Lemma start_processing : processing_is_waiting start.
Proof. intros id v Hget. discriminate Hget. Qed.

(** X12.  In a running system a session marked [processing] is never
    orphaned: a call to [verifyContent] with its identifier still waits
    for its analyzers, and the record is the one that call wrote. *)
Theorem processing_session_has_waiting_call w :
  reachable w -> processing_is_waiting w.
Proof.
  intros [actions ->]. apply run_processing, start_processing.
Qed.

Lemma processing_session_has_waiting_call_witness :
  reachable Samples.waitingWorld
  /\ processing_is_waiting Samples.waitingWorld.
Proof.
  assert (Hreach : reachable Samples.waitingWorld)
    by (eexists; reflexivity).
  split; [exact Hreach|].
  exact (processing_session_has_waiting_call Samples.waitingWorld Hreach).
Defined.

(** *** The number of active verifications *)

Lemma perform_NoDup_keys w a :
  NoDup (JsMap.keys (activeVerifications (object w))) ->
  NoDup (JsMap.keys (activeVerifications (object (perform w a)))).
Proof.
  intros Hnd.
  destruct a as [content userId verificationId uuidv4 now|n analyzer now|now];
    cbn [perform].
  - destruct content; try exact Hnd.
    rewrite verifyContent_call_string. cbn. by apply NoDup_keys_set.
  - destruct (nth_error (waiting w) n) as [p|]; [|exact Hnd]. cbn [object].
    destruct (settle_store (object w) p analyzer now) as (v & -> & _).
    by apply NoDup_keys_set.
  - cbn [object]. unfold cleanupOldVerifications.
    pose proof (sweepEntries_sublist (now - 60 * 60 * 1000)
                  (activeVerifications (object w))
                  (activeVerifications (object w))) as Hsub.
    destruct (sweepEntries _ _ _) as [m thrown]. cbn in *.
    eapply sublist_NoDup; [exact Hnd|]. by apply map_sublist.
Qed.

Lemma run_NoDup_keys actions w :
  NoDup (JsMap.keys (activeVerifications (object w))) ->
  NoDup (JsMap.keys (activeVerifications (object (run actions w)))).
Proof.
  revert w. induction actions as [|a actions IH]; intros w Hw; [exact Hw|].
  cbn [run fold_left]. apply IH, perform_NoDup_keys, Hw.
Qed.

(** X13.  The number of active verifications, which the statistics
    show, counts sessions marked [processing]; in a running system it
    never exceeds the number of calls to [verifyContent] that wait for
    their analyzers. *)
Theorem active_count_within_waiting_calls w :
  reachable w ->
  (getActiveVerifications (object w) <= length (waiting w))%nat.
Proof.
  intros [actions ->].
  pose proof (run_NoDup_keys actions start (NoDup_nil_2 : NoDup []))
    as Hnd.
  pose proof (run_processing actions start start_processing) as Hwaiting.
  set (w := run actions start) in *.
  unfold getActiveVerifications.
  set (processing :=
         List.filter
           (fun kv => String.eqb (Verification.status (snd kv)) "processing")
           (activeVerifications (object w))).
  rewrite <- (length_map fst processing).
  rewrite <- (length_map Pending.id (waiting w)).
  apply NoDup_incl_length.
  - apply NoDup_ListNoDup. eapply sublist_NoDup; [exact Hnd|].
    apply map_sublist, List_filter_sublist.
  - intros k Hk. apply in_map_iff in Hk as ([k' v] & <- & Hin).
    apply filter_In in Hin as [Hin Hstatus]. cbn [fst snd] in *.
    apply String.eqb_eq in Hstatus.
    apply (In_get _ _ _ Hnd) in Hin.
    destruct (Hwaiting k' v Hin Hstatus) as (p & userId & Hp & Hid & _).
    apply in_map_iff. by exists p.
Qed.

Lemma active_count_within_waiting_calls_witness :
  reachable Samples.racedWorld
  /\ (getActiveVerifications (object Samples.racedWorld)
      <= length (waiting Samples.racedWorld))%nat.
Proof.
  assert (Hreach : reachable Samples.racedWorld)
    by (eexists; reflexivity).
  split; [exact Hreach|].
  exact (active_count_within_waiting_calls Samples.racedWorld Hreach).
Defined.

(** *** The shape of a record *)

Lemma perform_shape w a :
  Forall (fun kv => record_shape (snd kv)) (activeVerifications (object w)) ->
  Forall (fun kv => record_shape (snd kv))
         (activeVerifications (object (perform w a))).
Proof.
  intros Hinv.
  destruct a as [content userId verificationId uuidv4 now|n analyzer now|now];
    cbn [perform].
  - destruct content; try exact Hinv.
    rewrite verifyContent_call_string. cbn.
    apply Forall_set; [|exact Hinv]. intros k'. left. cbn. eauto.
  - destruct (nth_error (waiting w) n) as [p|]; [|exact Hinv]. cbn [object].
    destruct (settle_store (object w) p analyzer now) as (v & -> & _ & Hv).
    apply Forall_set; [|exact Hinv]. intros k'. exact Hv.
  - cbn [object]. unfold cleanupOldVerifications.
    pose proof (sweepEntries_sublist (now - 60 * 60 * 1000)
                  (activeVerifications (object w))
                  (activeVerifications (object w))) as Hsub.
    destruct (sweepEntries _ _ _) as [m thrown]. cbn in *.
    eapply sublist_Forall; eauto.
Qed.

(** X14.  Every record a running system stores has one of three shapes:
    [processing] with a start time and neither result nor error;
    [completed] with a result and a start time; or [failed] with an
    error message. *)
Theorem stored_record_shape w id v :
  reachable w ->
  getVerification (object w) id = Some v ->
  record_shape v.
Proof.
  intros [actions ->] Hget.
  assert (Hgen : forall w0,
    Forall (fun kv => record_shape (snd kv))
           (activeVerifications (object w0)) ->
    Forall (fun kv => record_shape (snd kv))
           (activeVerifications (object (run actions w0)))).
  { clear Hget.
    induction actions as [|a actions IH]; intros w0 Hw0; [exact Hw0|].
    cbn [run fold_left]. apply IH, perform_shape, Hw0. }
  specialize (Hgen start (List.Forall_nil _)).
  rewrite Forall_forall in Hgen.
  apply get_In, list_elem_of_In in Hget. apply (Hgen (id, v) Hget).
Qed.

Lemma stored_record_shape_witness :
  reachable Samples.completedWorld
  /\ exists v, getVerification (object Samples.completedWorld) "s1" = Some v
               /\ record_shape v.
Proof.
  assert (Hreach : reachable Samples.completedWorld)
    by (eexists; reflexivity).
  split; [exact Hreach|].
  destruct (getVerification (object Samples.completedWorld) "s1")
    as [v|] eqn:Hv; [|vm_compute in Hv; discriminate Hv].
  exists v. split; [reflexivity|].
  exact (stored_record_shape Samples.completedWorld "s1" v Hreach Hv).
Defined.

(** *** The identifier the API handler uses *)

(** X15.  For a non-empty text the API handler either answers 400 and
    leaves the system alone (the validator refused), or starts exactly
    one verification: under the session identifier of the request when
    it has one that is not empty, under a fresh one otherwise, never
    under the empty identifier; the record of the call is stored and the
    counter grows by one. *)
Theorem api_verify_session_id validateContent this text userId sessionId
    uuid uuid' now :
  text <> "" -> uuid <> "" ->
  (validateContent text = true ->
   exists this' p,
     Server.api_verify validateContent this (JString text) userId
                       sessionId uuid uuid' now
     = (this', inr (inr p))
     /\ Pending.id p = orUuid sessionId uuid
     /\ Pending.id p <> ""
     /\ getVerification this' (Pending.id p)
        = Some (recordOfCall p (default "web-user" userId))
     /\ getTotalVerifications this' = getTotalVerifications this + 1)
  /\ (validateContent text = false ->
      exists error,
        Server.api_verify validateContent this (JString text) userId
                          sessionId uuid uuid' now
        = (this, inl (Server.Status400 error))).
Proof.
  intros Htext Huuid. unfold Server.api_verify.
  assert (Htruthy : truthy (JString text) = true).
  { cbn. apply negb_true_iff, String.eqb_neq, Htext. }
  rewrite Htruthy. cbn [negb orb typeof_string].
  split; intros ->; cbn [negb]; [|eexists; reflexivity].
  assert (Hid : orUuid sessionId uuid <> "").
  { unfold orUuid. destruct sessionId as [s|]; [|exact Huuid].
    destruct (String.eqb_spec s ""); [exact Huuid|assumption]. }
  rewrite verifyContent_call_string. cbn zeta.
  assert (Hor : orUuid (Some (orUuid sessionId uuid)) uuid'
                = orUuid sessionId uuid).
  { unfold orUuid at 1. apply String.eqb_neq in Hid. by rewrite Hid. }
  rewrite Hor. eexists _, _. split; [reflexivity|].
  cbn [Pending.id]. split; [reflexivity|]. split; [exact Hid|].
  unfold getVerification, getTotalVerifications. cbn.
  rewrite get_set_eq. split; reflexivity.
Qed.

Lemma api_verify_session_id_witness :
  exists this' p,
    Server.api_verify (fun _ => true) initialize (JString Samples.nasa)
                      None (Some "") "uuid-1" "uuid-2" 0
    = (this', inr (inr p))
    /\ Pending.id p = "uuid-1"
    /\ getTotalVerifications this' = 1.
Proof.
  assert (Htext : Samples.nasa <> "") by discriminate.
  assert (Huuid : "uuid-1" <> "") by discriminate.
  destruct (api_verify_session_id (fun _ => true) initialize Samples.nasa
              None (Some "") "uuid-1" "uuid-2" 0 Htext Huuid)
    as [Haccepted _].
  destruct (Haccepted eq_refl) as (this' & p & Hreply & Hid & _ & _ & Htotal).
  exists this', p. split; [exact Hreply|]. split; [exact Hid|exact Htotal].
Defined.

(** ** The security utilities *)

Section SecurityFacts.

Import JsRegExp.
Import JsText.
Import SecurityUtils.
Import ChatHandlers.

(** *** The expressions the validator shares between its calls *)

Lemma suspiciousPatterns_global :
  Forall (fun re => global re = true) suspiciousPatterns.
Proof. repeat constructor. Qed.

Lemma test_global_miss re i content :
  global re = true -> fst (test re i content) = false ->
  test re i content = (false, O).
Proof.
  unfold test, exec. intros ->.
  destruct (searchAfter re i None 0 content) as [[b e]|]; [discriminate|done].
Qed.

Lemma test_global_at re i content :
  global re = true ->
  test re i content
  = match searchAfter re i None 0 content with
    | Some (_, e) => (true, e)
    | None => (false, O)
    end.
Proof.
  unfold test, exec. intros ->.
  destruct (searchAfter re i None 0 content) as [[b e]|]; reflexivity.
Qed.

Lemma test_global_zero re content :
  global re = true ->
  test re O content
  = match searchFrom re None 0 content with
    | Some (_, e) => (true, e)
    | None => (false, O)
    end.
Proof. intros Hg. by rewrite (test_global_at re O content Hg). Qed.

Lemma testPatterns_miss patterns content :
  Forall (fun re => global re = true) patterns ->
  Forall (fun re => searchFrom re None 0 content = None) patterns ->
  testPatterns patterns (zeros patterns) content = (zeros patterns, false).
Proof.
  induction patterns as [|re ps IH]; intros Hg Hm; [reflexivity|].
  apply Forall_cons in Hg as [Hg Hgs]. apply Forall_cons in Hm as [Hm Hms].
  cbn [testPatterns zeros map]. rewrite (test_global_zero re content Hg), Hm.
  fold (zeros ps). by rewrite (IH Hgs Hms).
Qed.

Lemma testPatterns_app before re after i rest content :
  Forall (fun re => global re = true) (before ++ re :: after) ->
  Forall (fun re => searchFrom re None 0 content = None) before ->
  testPatterns (before ++ re :: after) (zeros before ++ i :: rest) content
  = match searchAfter re i None 0 content with
    | Some (_, e) => (zeros before ++ e :: rest, true)
    | None =>
        let '(rest', hit) := testPatterns after rest content in
        (zeros before ++ O :: rest', hit)
    end.
Proof.
  induction before as [|r0 before IH]; intros Hg Hm.
  - cbn [app zeros map testPatterns]. apply Forall_cons in Hg as [Hg _].
    rewrite (test_global_at re i content Hg).
    destruct (searchAfter re i None 0 content) as [[b e]|]; [reflexivity|].
    destruct (testPatterns after rest content). reflexivity.
  - apply Forall_cons in Hg as [Hg Hgs]. apply Forall_cons in Hm as [Hm Hms].
    cbn [app zeros map testPatterns].
    rewrite (test_global_zero r0 content Hg), Hm. fold (zeros before).
    rewrite (IH Hgs Hms).
    destruct (searchAfter re i None 0 content) as [[b e]|]; [reflexivity|].
    destruct (testPatterns after rest content). reflexivity.
Qed.

Lemma testPatterns_accept patterns lastIndex content lastIndex' :
  Forall (fun re => global re = true) patterns ->
  length lastIndex = length patterns ->
  testPatterns patterns lastIndex content = (lastIndex', false) ->
  lastIndex' = zeros patterns.
Proof.
  revert lastIndex lastIndex'.
  induction patterns as [|re ps IH]; intros [|i li] li' Hg Hlen Ht;
    try discriminate Hlen.
  - cbn in Ht. by injection Ht as <-.
  - apply Forall_cons in Hg as [Hg Hgs]. cbn [testPatterns] in Ht.
    destruct (test re i content) as [found i'] eqn:Htest.
    destruct found; [discriminate Ht|].
    assert (Hi' : i' = O).
    { pose proof (test_global_miss re i content Hg) as H.
      rewrite Htest in H. specialize (H eq_refl). by injection H. }
    destruct (testPatterns ps li content) as [rest hit] eqn:Hrest.
    injection Ht as <- ->. cbn [zeros map]. f_equal; [exact Hi'|].
    apply (IH li); [exact Hgs|by injection Hlen|exact Hrest].
Qed.

(** X16.  Whatever state the shared expressions are in, a validation
    that accepts leaves every one of them at the start again. *)
Theorem validateContent_accept_resets lastIndex content lastIndex' :
  length lastIndex = length suspiciousPatterns ->
  validateContent lastIndex content = (lastIndex', true) ->
  lastIndex' = fresh.
Proof.
  intros Hlen. unfold validateContent.
  destruct content as [| | | |text|]; try discriminate.
  destruct (String.eqb text ""); [discriminate|].
  destruct (10000 <? _); [discriminate|].
  destruct (testPatterns suspiciousPatterns lastIndex text)
    as [li hit] eqn:Ht.
  destruct hit; [discriminate|].
  destruct (existsb _ maliciousDomains); [discriminate|].
  intros [= <-].
  apply (testPatterns_accept _ _ _ _ suspiciousPatterns_global Hlen Ht).
Qed.

Lemma validateContent_accept_resets_witness :
  validateContent [0; 11; 0; 0; 0; 0; 0; 0; 0]%nat (JString "javascript:x")
  = (fresh, true).
Proof.
  assert (Haccepted :
    exists lastIndex',
      validateContent [0; 11; 0; 0; 0; 0; 0; 0; 0]%nat
                      (JString "javascript:x") = (lastIndex', true)).
  { eexists. vm_compute. reflexivity. }
  destruct Haccepted as [lastIndex' Haccepted].
  rewrite Haccepted. f_equal.
  exact (validateContent_accept_resets
           [0; 11; 0; 0; 0; 0; 0; 0; 0]%nat (JString "javascript:x")
           lastIndex' eq_refl Haccepted).
Defined.

(** *** Content that matches one expression once *)

Lemma suspiciousPatterns_need_content :
  Forall (fun re => searchFrom re None 0 "" = None) suspiciousPatterns.
Proof. repeat (constructor; [vm_compute; reflexivity|]). constructor. Qed.

Lemma tripsOnce_nonempty content before re after e :
  tripsOnce content before re after e -> content <> "".
Proof.
  intros (Hsplit & _ & [b Hhit] & _) ->.
  pose proof suspiciousPatterns_need_content as Hall.
  rewrite Hsplit in Hall. apply Forall_app in Hall as [_ Hall].
  apply Forall_cons in Hall as [Hre _]. congruence.
Qed.

Lemma tripsOnce_fresh content before re after e :
  tripsOnce content before re after e ->
  fresh = zeros before ++ O :: zeros after.
Proof.
  intros (Hsplit & _). unfold fresh. rewrite Hsplit.
  unfold zeros. by rewrite map_app.
Qed.

Lemma testPatterns_trips content before re after e :
  tripsOnce content before re after e ->
  testPatterns suspiciousPatterns fresh content
  = (zeros before ++ e :: zeros after, true)
  /\ testPatterns suspiciousPatterns (zeros before ++ e :: zeros after)
                  content
     = (fresh, false).
Proof.
  intros Htrips. pose proof (tripsOnce_fresh _ _ _ _ _ Htrips) as Hfresh.
  destruct Htrips as (Hsplit & Hmiss & [b Hhit] & Hagain).
  pose proof suspiciousPatterns_global as Hg. rewrite Hsplit in Hg.
  apply Forall_app in Hmiss as [Hb Ha].
  assert (Hga : Forall (fun re => global re = true) after).
  { apply Forall_app in Hg as [_ Hg]. by apply Forall_cons in Hg as [_ Hg]. }
  rewrite Hsplit. split.
  - rewrite Hfresh, (testPatterns_app _ _ _ _ _ _ Hg Hb).
    cbn [searchAfter]. by rewrite Hhit.
  - rewrite (testPatterns_app _ _ _ _ _ _ Hg Hb), Hagain.
    rewrite (testPatterns_miss after content Hga Ha). by rewrite Hfresh.
Qed.

Lemma validateContent_unfold lastIndex content :
  content <> "" ->
  Z.of_nat (String.length content) <= 10000 ->
  validateContent lastIndex (JString content)
  = let '(lastIndex', hit) :=
      testPatterns suspiciousPatterns lastIndex content in
    if hit then (lastIndex', false)
    else if existsb (fun domain => includes (toLowerCase content) domain)
                    maliciousDomains
         then (lastIndex', false) else (lastIndex', true).
Proof.
  intros Hne Hlen. unfold validateContent.
  apply String.eqb_neq in Hne. rewrite Hne.
  assert (Hl : (10000 <? Z.of_nat (String.length content)) = false)
    by (apply Z.ltb_ge; exact Hlen).
  by rewrite Hl.
Qed.

(** X17.  The validator answers differently to the same content from one
    call to the next.  A content of at most 10000 code units that
    matches one of the suspicious expressions, once, and names no
    malicious domain is refused by a validator whose expressions are at
    the start, which leaves the expression at the end of the match;
    validated again at once, the same content is accepted, and the
    expressions are at the start again. *)
Theorem validateContent_alternates content before re after e :
  tripsOnce content before re after e ->
  Z.of_nat (String.length content) <= 10000 ->
  existsb (fun domain => includes (toLowerCase content) domain)
          maliciousDomains = false ->
  let tripped := zeros before ++ e :: zeros after in
  validateContent fresh (JString content) = (tripped, false)
  /\ validateContent tripped (JString content) = (fresh, true).
Proof.
  intros Htrips Hlen Hdom. cbv zeta.
  pose proof (tripsOnce_nonempty _ _ _ _ _ Htrips) as Hne.
  destruct (testPatterns_trips _ _ _ _ _ Htrips) as [Hfirst Hsecond].
  rewrite !(validateContent_unfold _ content Hne Hlen).
  rewrite Hfirst, Hsecond, Hdom. by split.
Qed.

Lemma javascript_tripsOnce :
  tripsOnce "javascript:x" (firstn 1 suspiciousPatterns)
            (mkRegExp (Lit "javascript:") true true)
            (skipn 2 suspiciousPatterns) 11.
Proof.
  split; [reflexivity|]. split; [|split].
  - repeat (constructor; [vm_compute; reflexivity|]). constructor.
  - exists O. vm_compute. reflexivity.
  - vm_compute. reflexivity.
Defined.

Lemma validateContent_alternates_witness :
  validateContent fresh (JString "javascript:x")
  = ([0; 11; 0; 0; 0; 0; 0; 0; 0]%nat, false)
  /\ validateContent [0; 11; 0; 0; 0; 0; 0; 0; 0]%nat
                     (JString "javascript:x")
     = (fresh, true).
Proof.
  refine (validateContent_alternates "javascript:x" _ _ _ 11
            javascript_tripsOnce _ _).
  - vm_compute. discriminate.
  - vm_compute. reflexivity.
Defined.

(** X18.  The web API is served by one validator, so it answers a
    content of that kind in turns: posted twice in a row, the content is
    answered with status 400 the first time, the system left alone, and
    is taken for verification the second time. *)
Theorem api_verify_rejects_then_accepts this content before re after e
    userId sessionId uuid uuid' now now' :
  tripsOnce content before re after e ->
  Z.of_nat (String.length content) <= 10000 ->
  existsb (fun domain => includes (toLowerCase content) domain)
          maliciousDomains = false ->
  let first :=
    SharedValidator.api_verify fresh this (JString content) userId
                               sessionId uuid uuid' now in
  let second :=
    SharedValidator.api_verify (fst first) (fst (snd first))
                               (JString content) userId sessionId uuid
                               uuid' now' in
  snd first
  = (this, inl (Server.Status400
                  "Content contains potentially harmful elements"))
  /\ fst second = fresh
  /\ exists this' p,
       snd second = (this', inr (inr p))
       /\ Pending.content p = content
       /\ getTotalVerifications this' = getTotalVerifications this + 1.
Proof.
  intros Htrips Hlen Hdom. cbv zeta.
  pose proof (tripsOnce_nonempty _ _ _ _ _ Htrips) as Hne.
  destruct (testPatterns_trips _ _ _ _ _ Htrips) as [Hfirst Hsecond].
  unfold SharedValidator.api_verify.
  assert (Htruthy : truthy (JString content) = true).
  { cbn. apply negb_true_iff, String.eqb_neq, Hne. }
  rewrite Htruthy. cbn [negb orb typeof_string].
  rewrite !(validateContent_unfold _ content Hne Hlen).
  rewrite Hfirst. cbn [fst snd].
  unfold Server.api_verify at 1 2.
  rewrite Htruthy. cbn [negb orb typeof_string fst snd].
  rewrite Hsecond, Hdom. cbn [fst snd].
  split; [reflexivity|]. split; [reflexivity|].
  unfold Server.api_verify. rewrite Htruthy. cbn [negb orb typeof_string].
  rewrite verifyContent_call_string. cbn zeta.
  eexists _, _. split; [reflexivity|]. split; reflexivity.
Qed.

Lemma api_verify_rejects_then_accepts_witness :
  snd (SharedValidator.api_verify fresh initialize (JString "javascript:x")
         None None "uuid-1" "uuid-2" 0)
  = (initialize,
     inl (Server.Status400 "Content contains potentially harmful elements"))
  /\ exists this' p,
       snd (SharedValidator.api_verify
              [0; 11; 0; 0; 0; 0; 0; 0; 0]%nat initialize
              (JString "javascript:x") None None "uuid-1" "uuid-2" 1)
       = (this', inr (inr p))
       /\ Pending.content p = "javascript:x".
Proof.
  assert (Hlen : Z.of_nat (String.length "javascript:x") <= 10000)
    by (vm_compute; discriminate).
  destruct (api_verify_rejects_then_accepts
              initialize "javascript:x" _ _ _ 11 None None
              "uuid-1" "uuid-2" 0 1 javascript_tripsOnce Hlen eq_refl)
    as (Hfirst & _ & this' & p & Hsecond & Hcontent & _).
  split; [exact Hfirst|]. exists this', p. split; [exact Hsecond|].
  exact Hcontent.
Defined.

Lemma existsb_eqb_In x l : existsb (String.eqb x) l = true <-> In x l.
Proof.
  rewrite existsb_exists. split.
  - intros (y & Hy & Heq). apply String.eqb_eq in Heq. by subst.
  - intros Hx. exists x. split; [exact Hx|apply String.eqb_refl].
Qed.

Lemma forallb_listed l k :
  forallb (fun x => existsb (String.eqb x) k) l = true ->
  Forall (fun x => In x k) l.
Proof.
  intros H. rewrite forallb_forall in H. apply Forall_forall.
  intros x Hx. apply existsb_eqb_In, H. by apply list_elem_of_In.
Qed.

(** X19.  The report on a content of that kind contradicts itself: from
    expressions at the start, the validation inside the report refuses
    the content, and the search for suspicious expressions that follows
    finds none, so the report is invalid and carries no flag of a
    malicious pattern (its only flags are among the four the
    recommendations read). *)
Theorem generateSecurityReport_misses_pattern content before re after e :
  tripsOnce content before re after e ->
  Z.of_nat (String.length content) <= 10000 ->
  let outcome := generateSecurityReport fresh content in
  fst outcome = fresh
  /\ isValid (snd outcome) = false
  /\ ~ In "Potentially malicious pattern detected" (flags (snd outcome))
  /\ Forall (fun flag => In flag adviceFlags) (flags (snd outcome)).
Proof.
  intros Htrips Hlen. cbv zeta.
  pose proof (tripsOnce_nonempty _ _ _ _ _ Htrips) as Hne.
  destruct (testPatterns_trips _ _ _ _ _ Htrips) as [Hfirst Hsecond].
  unfold generateSecurityReport.
  rewrite (validateContent_unfold _ content Hne Hlen), Hfirst, Hsecond.
  cbn [fst snd isValid flags]. split; [reflexivity|]. split; [reflexivity|].
  unfold pushIf, adviceFlags.
  destruct (hasMultipleUrls content), (hasUrgencyIndicators content),
    (hasMoneyMentions content), (hasSuspiciousFormatting content);
    cbn [app];
    (split; [rewrite <- existsb_eqb_In; vm_compute; discriminate
            |apply forallb_listed; vm_compute; reflexivity]).
Qed.

Lemma generateSecurityReport_misses_pattern_witness :
  isValid (snd (generateSecurityReport fresh "javascript:x")) = false
  /\ flags (snd (generateSecurityReport fresh "javascript:x")) = [].
Proof.
  assert (Hlen : Z.of_nat (String.length "javascript:x") <= 10000)
    by (vm_compute; discriminate).
  destruct (generateSecurityReport_misses_pattern
              "javascript:x" _ _ _ 11 javascript_tripsOnce Hlen)
    as (_ & Hvalid & _ & _).
  split; [exact Hvalid|]. vm_compute. reflexivity.
Defined.

(** *** The matcher on the expressions of the validator *)

Lemma matchHere_Lit g l prev pos s :
  matchHere (mkRegExp (Lit l) false g) prev pos s
  = if startsWith s l then Some (pos + String.length l)%nat else None.
Proof.
  unfold matchHere. cbn [JsRegExp.ignoreCase pattern].
  revert prev pos s. induction l as [|p l IH]; intros prev pos s.
  - cbn. f_equal. lia.
  - cbn [Lit matchAt startsWith String.length]. destruct s as [|c s]; [done|].
    cbn [sameChar]. destruct (Ascii.eqb p c); [|done].
    cbn [andb]. rewrite IH. destruct (startsWith s l); [f_equal; lia|done].
Qed.

Lemma matchHere_Lit_ignoreCase g l prev pos s :
  Forall lowerStable (units l) ->
  matchHere (mkRegExp (Lit l) true g) prev pos s
  = if startsWith (toLowerCase s) l
    then Some (pos + String.length l)%nat else None.
Proof.
  unfold matchHere. cbn [JsRegExp.ignoreCase pattern].
  revert prev pos s. induction l as [|p l IH]; intros prev pos s Hl.
  - cbn. f_equal. lia.
  - cbn [units] in Hl. apply Forall_cons in Hl as [Hp Hl].
    cbn [Lit matchAt startsWith String.length]. destruct s as [|c s]; [done|].
    cbn [toLowerCase]. rewrite (Hp c).
    destruct (Ascii.eqb p (toLowerCase_unit c)); [|done].
    cbn [andb]. rewrite (IH _ _ _ Hl).
    destruct (startsWith (toLowerCase s) l); [f_equal; lia|done].
Qed.

Lemma searchFrom_anywhere re (here : string -> bool) :
  (forall prev pos s,
     matchHere re prev pos s = None <-> here s = false) ->
  forall s prev pos,
    searchFrom re prev pos s = None
    <-> (fix any (s : string) : bool :=
           here s || match s with
                     | EmptyString => false
                     | String _ s' => any s'
                     end) s = false.
Proof.
  intros Hhere. induction s as [|c s IH]; intros prev pos.
  - cbn [searchFrom]. specialize (Hhere prev pos EmptyString).
    destruct (matchHere re prev pos EmptyString) as [e|].
    + split; [done|]. intros H. apply orb_false_iff in H as [H _].
      apply Hhere in H. done.
    + split; [|done]. intros _. apply orb_false_iff. split; [|done].
      by apply Hhere.
  - cbn [searchFrom]. specialize (Hhere prev pos (String c s)).
    destruct (matchHere re prev pos (String c s)) as [e|].
    + split; [done|]. intros H. apply orb_false_iff in H as [H _].
      apply Hhere in H. done.
    + rewrite IH. split.
      * intros H. apply orb_false_iff. split; [by apply Hhere|exact H].
      * intros H. by apply orb_false_iff in H as [_ H].
Qed.

Lemma includes_anywhere s k :
  includes s k
  = (fix any (s : string) : bool :=
       startsWith s k || match s with
                         | EmptyString => false
                         | String _ s' => any s'
                         end) s.
Proof. induction s as [|c s IH]; cbn; [done|by rewrite IH]. Qed.

Lemma searchFrom_Lit g l prev pos s :
  searchFrom (mkRegExp (Lit l) false g) prev pos s = None
  <-> includes s l = false.
Proof.
  rewrite includes_anywhere.
  apply (searchFrom_anywhere _ (fun s => startsWith s l)).
  intros prev' pos' s'. rewrite matchHere_Lit.
  destruct (startsWith s' l); split; done.
Qed.

Lemma toLowerCase_anywhere (here : string -> bool) s :
  (fix any (s : string) : bool :=
     here (toLowerCase s) || match s with
                             | EmptyString => false
                             | String _ s' => any s'
                             end) s
  = (fix any (s : string) : bool :=
       here s || match s with
                 | EmptyString => false
                 | String _ s' => any s'
                 end) (toLowerCase s).
Proof. induction s as [|c s IH]; cbn; [done|by rewrite IH]. Qed.

Lemma searchFrom_Lit_ignoreCase g l prev pos s :
  Forall lowerStable (units l) ->
  searchFrom (mkRegExp (Lit l) true g) prev pos s = None
  <-> includes (toLowerCase s) l = false.
Proof.
  intros Hl. rewrite includes_anywhere.
  rewrite <- (toLowerCase_anywhere (fun s => startsWith s l)).
  apply (searchFrom_anywhere _ (fun s => startsWith (toLowerCase s) l)).
  intros prev' pos' s'. rewrite (matchHere_Lit_ignoreCase _ _ _ _ _ Hl).
  destruct (startsWith (toLowerCase s') l); split; done.
Qed.

Lemma matchHere_Class g items prev pos s :
  matchHere (mkRegExp (Class false items) false g) prev pos s
  = match s with
    | String c _ => if existsb (inItem c) items then Some (S pos) else None
    | EmptyString => None
    end.
Proof.
  unfold matchHere. cbn. destruct s as [|c s]; [done|].
  by destruct (existsb (inItem c) items).
Qed.

Lemma searchFrom_Class g items prev pos s :
  searchFrom (mkRegExp (Class false items) false g) prev pos s = None
  <-> Forall (fun c => existsb (inItem c) items = false) (units s).
Proof.
  revert prev pos. induction s as [|c s IH]; intros prev pos.
  - cbn. split; [constructor|done].
  - cbn [searchFrom units]. rewrite matchHere_Class.
    destruct (existsb (inItem c) items) eqn:Hc.
    + split; [done|]. intros H. apply Forall_cons in H as [H _]. congruence.
    + rewrite IH. split.
      * intros H. by constructor.
      * intros H. by apply Forall_cons in H as [_ H].
Qed.

Lemma inItem_chars c l :
  existsb (inItem c) (chars l) = false <-> ~ In c (units l).
Proof.
  unfold chars. induction (units l) as [|a u IH]; cbn; [tauto|].
  rewrite orb_false_iff, IH. rewrite Ascii.eqb_neq. tauto.
Qed.

Lemma javascript_lowerStable : Forall lowerStable (units "javascript:").
Proof.
  repeat constructor;
    intros [[] [] [] [] [] [] [] []]; vm_compute; reflexivity.
Qed.

Lemma existsb_false_Forall {A} (f : A -> bool) l :
  existsb f l = false -> Forall (fun x => f x = false) l.
Proof.
  induction l as [|x l IH]; cbn; [constructor|].
  intros H. apply orb_false_iff in H as [Hx Hl]. constructor; auto.
Qed.

Lemma testPatterns_zeros_miss patterns content lastIndex :
  Forall (fun re => global re = true) patterns ->
  testPatterns patterns (zeros patterns) content = (lastIndex, false) ->
  Forall (fun re => searchFrom re None 0 content = None) patterns.
Proof.
  revert lastIndex. induction patterns as [|re ps IH]; intros li Hg Ht.
  - constructor.
  - apply Forall_cons in Hg as [Hg Hgs]. cbn [zeros map testPatterns] in Ht.
    rewrite (test_global_zero re content Hg) in Ht. fold (zeros ps) in Ht.
    destruct (searchFrom re None 0 content) as [[b e]|] eqn:Hs;
      [discriminate|].
    destruct (testPatterns ps (zeros ps) content) as [rest hit] eqn:Hrest.
    destruct hit; [discriminate|].
    constructor; [exact Hs|]. by apply (IH rest).
Qed.

(** X20.  What a validator with its expressions at the start accepts is
    a string of 1 to 10000 code units that holds none of the characters
    of the command-injection class (semicolon, ampersand, bar, backtick,
    dollar, parentheses), no [../], no [javascript:] in any letter
    case, and none of the malicious domains. *)
Theorem validateContent_fresh_sound content lastIndex :
  validateContent fresh (JString content) = (lastIndex, true) ->
  content <> ""
  /\ Z.of_nat (String.length content) <= 10000
  /\ Forall (fun c => ~ In c (units ";&|`$()")) (units content)
  /\ includes content "../" = false
  /\ includes (toLowerCase content) "javascript:" = false
  /\ Forall (fun domain => includes (toLowerCase content) domain = false)
            maliciousDomains.
Proof.
  unfold validateContent.
  destruct (String.eqb content "") eqn:He; [discriminate|].
  destruct (10000 <? _) eqn:Hl; [discriminate|].
  destruct (testPatterns suspiciousPatterns fresh content)
    as [li hit] eqn:Ht.
  destruct hit; [discriminate|].
  destruct (existsb _ maliciousDomains) eqn:Hd; [discriminate|].
  intros _.
  apply (testPatterns_zeros_miss _ _ _ suspiciousPatterns_global) in Ht.
  split; [by apply String.eqb_neq|].
  split; [by apply Z.ltb_ge|].
  assert (Hm : forall re, In re suspiciousPatterns ->
                          searchFrom re None 0 content = None).
  { intros re Hre. rewrite Forall_forall in Ht. apply Ht.
    by apply list_elem_of_In. }
  split; [|split; [|split]].
  - pose proof (Hm (mkRegExp (Class false (chars ";&|`$()")) false true))
      as H.
    rewrite searchFrom_Class in H.
    eapply Forall_impl; [apply H; cbn; tauto|].
    intros c Hc. by apply inItem_chars.
  - apply (searchFrom_Lit true "../" None O). apply Hm. cbn. tauto.
  - apply (searchFrom_Lit_ignoreCase true "javascript:" None O);
      [exact javascript_lowerStable|].
    apply Hm. cbn. tauto.
  - by apply existsb_false_Forall in Hd.
Qed.

Lemma validateContent_fresh_sound_witness :
  validateContent fresh (JString Samples.nasa) = (fresh, true)
  /\ includes (toLowerCase Samples.nasa) "javascript:" = false.
Proof.
  assert (Haccepted :
    validateContent fresh (JString Samples.nasa) = (fresh, true))
    by (vm_compute; reflexivity).
  split; [exact Haccepted|].
  destruct (validateContent_fresh_sound Samples.nasa fresh Haccepted)
    as (_ & _ & _ & _ & Hscript & _).
  exact Hscript.
Defined.

(** *** Trimming, cutting and replacing *)

Lemma trimStart_sublist s : sublist (units (trimStart s)) (units s).
Proof.
  induction s as [|c s IH]; cbn; [constructor|].
  destruct (isRegexSpace c); [by apply sublist_cons|reflexivity].
Qed.

Lemma trimEnd_sublist s : sublist (units (trimEnd s)) (units s).
Proof.
  induction s as [|c s IH]; cbn [trimEnd units]; [constructor|].
  destruct (trimEnd s) as [|d t].
  - destruct (isRegexSpace c); cbn.
    + apply sublist_nil_l.
    + apply sublist_skip, sublist_nil_l.
  - cbn [units] in *. by apply sublist_skip.
Qed.

Lemma trim_sublist s : sublist (units (trim s)) (units s).
Proof.
  unfold trim. etransitivity; [apply trimEnd_sublist|apply trimStart_sublist].
Qed.

Lemma substring0_length n s : (String.length (substring0 n s) <= n)%nat.
Proof.
  revert s. induction n as [|n IH]; intros [|c s]; cbn; try lia.
  specialize (IH s). lia.
Qed.

Lemma substring0_5000 s :
  Z.of_nat (String.length (substring0 (Z.to_nat 5000) s)) <= 5000.
Proof. pose proof (substring0_length (Z.to_nat 5000) s). lia. Qed.

Lemma substring0_sublist n s : sublist (units (substring0 n s)) (units s).
Proof.
  revert s. induction n as [|n IH]; intros [|c s]; cbn;
    try apply sublist_nil_l.
  by apply sublist_skip.
Qed.

Lemma replace_empty_sublist re inside prev pos s :
  sublist (units (replaceFrom re EmptyString inside prev pos s)) (units s).
Proof.
  revert inside prev pos. induction s as [|c s IH]; intros inside prev pos.
  - destruct inside; cbn; [|constructor].
    destruct (matchHere re prev pos EmptyString); cbn; constructor.
  - destruct inside as [|inside]; cbn [replaceFrom units].
    + destruct (matchHere re prev pos (String c s)) as [e|].
      * change (String.append EmptyString ?x) with x.
        destruct (e <=? pos)%nat; cbn [units].
        -- apply sublist_skip, IH.
        -- apply sublist_cons, IH.
      * cbn [units]. apply sublist_skip, IH.
    + apply sublist_cons, IH.
Qed.

Lemma replace_Class_removes g items prev pos s :
  Forall (fun c => existsb (inItem c) items = false)
         (units (replaceFrom (mkRegExp (Class false items) false g)
                             EmptyString O prev pos s)).
Proof.
  revert prev pos. induction s as [|c s IH]; intros prev pos.
  - cbn [replaceFrom]. rewrite matchHere_Class. constructor.
  - cbn [replaceFrom]. rewrite matchHere_Class.
    destruct (existsb (inItem c) items) eqn:Hc.
    + change (String.append EmptyString ?x) with x.
      replace (S pos <=? pos)%nat with false
        by (symmetry; apply Nat.leb_gt; lia).
      replace (S pos - pos - 1)%nat with O by lia. apply IH.
    + cbn [units]. constructor; [exact Hc|apply IH].
Qed.

(** X21.  The sanitizer only deletes: what it returns for a string is a
    subsequence of that string, has at most 5000 code units and holds
    no angle bracket. *)
Theorem sanitizeInput_deletes input :
  let output := sanitizeInput (JString input) in
  sublist (units output) (units input)
  /\ Z.of_nat (String.length output) <= 5000
  /\ Forall (fun c => c <> "<"%char /\ c <> ">"%char) (units output).
Proof.
  cbv zeta. unfold sanitizeInput.
  destruct (String.eqb input "").
  { cbn [units String.length]. split; [apply sublist_nil_l|].
    split; [lia|constructor]. }
  set (re1 := mkRegExp (Class false (chars "<>")) false true).
  set (re2 := mkRegExp (Lit "javascript:") true true).
  set (re3 := mkRegExp _ true true).
  unfold replace.
  set (s1 := replaceFrom re1 EmptyString O None O (trim input)).
  assert (H23 : sublist
                  (units (substring0 (Z.to_nat 5000)
                            (replaceFrom re3 EmptyString O None O
                               (replaceFrom re2 EmptyString O None O s1))))
                  (units s1)).
  { etransitivity; [apply substring0_sublist|].
    etransitivity; apply replace_empty_sublist. }
  split; [|split].
  - etransitivity; [exact H23|].
    etransitivity; [apply replace_empty_sublist|apply trim_sublist].
  - apply substring0_5000.
  - eapply sublist_Forall; [exact H23|].
    eapply Forall_impl; [apply replace_Class_removes|].
    intros c Hc. apply inItem_chars in Hc. cbn in Hc. split; intros ->; tauto.
Qed.

(** *** Normalising white space *)

Lemma starLoop_spaces fuel prev pos s :
  (String.length s <= fuel)%nat ->
  starLoop (matchAt false (Class false [Space])) (fun _ e _ => Some e)
           fuel prev pos s
  = Some (pos + leadingSpaces s)%nat.
Proof.
  revert prev pos s. induction fuel as [|fuel IH]; intros prev pos s Hf.
  - destruct s; [|cbn in Hf; lia]. cbn. f_equal. lia.
  - cbn [starLoop matchAt]. destruct s as [|c s].
    + cbn. f_equal. lia.
    + cbn [xorb inClass existsb inItem leadingSpaces]. rewrite orb_false_r.
      destruct (isRegexSpace c).
      * replace (pos <? S pos)%nat with true
          by (symmetry; apply Nat.ltb_lt; lia).
        rewrite IH by (cbn in Hf; lia). f_equal. lia.
      * f_equal. lia.
Qed.

Lemma matchHere_spaces prev pos s :
  matchHere spaces prev pos s
  = match s with
    | String c s' =>
        if isRegexSpace c then Some (S pos + leadingSpaces s')%nat else None
    | EmptyString => None
    end.
Proof.
  unfold matchHere, spaces, Plus.
  cbn [JsRegExp.ignoreCase pattern matchAt].
  destruct s as [|c s]; [done|].
  cbn [xorb inClass existsb inItem]. rewrite orb_false_r.
  destruct (isRegexSpace c); [|done].
  by rewrite starLoop_spaces.
Qed.

Lemma replace_spaces_head inside prev pos s :
  leadingSpaces s = inside ->
  startsWithSpace (replaceFrom spaces " " inside prev pos s) = false.
Proof.
  revert inside prev pos. induction s as [|c s IH]; intros inside prev pos.
  - cbn [leadingSpaces]. intros <-. cbn [replaceFrom].
    by rewrite matchHere_spaces.
  - cbn [leadingSpaces]. destruct (isRegexSpace c) eqn:Hc; intros <-.
    + cbn [replaceFrom]. by apply IH.
    + cbn [replaceFrom]. rewrite matchHere_spaces, Hc. cbn. exact Hc.
Qed.

Lemma replace_spaces_normalised inside prev pos s :
  (inside <= leadingSpaces s)%nat ->
  normalised (replaceFrom spaces " " inside prev pos s) = true.
Proof.
  revert inside prev pos. induction s as [|c s IH]; intros inside prev pos.
  - cbn [leadingSpaces]. intros Hi. replace inside with O by lia.
    cbn [replaceFrom]. by rewrite matchHere_spaces.
  - cbn [leadingSpaces]. intros Hi. destruct inside as [|inside].
    + cbn [replaceFrom]. rewrite matchHere_spaces.
      destruct (isRegexSpace c) eqn:Hc.
      * replace (S pos + leadingSpaces s <=? pos)%nat with false
          by (symmetry; apply Nat.leb_gt; lia).
        replace (S pos + leadingSpaces s - pos - 1)%nat
          with (leadingSpaces s) by lia.
        match goal with
        | |- context [String.append " " ?x] =>
            change (String.append " " x) with (String " "%char x)
        end.
        cbn [normalised]. rewrite replace_spaces_head by done.
        rewrite IH by done. reflexivity.
      * cbn [normalised]. rewrite Hc. cbn [andb]. apply IH. lia.
    + destruct (isRegexSpace c); [|lia]. cbn [replaceFrom].
      apply IH. lia.
Qed.

Lemma trimEnd_head s :
  startsWithSpace s = false -> startsWithSpace (trimEnd s) = false.
Proof.
  destruct s as [|c s]; [done|]. cbn [startsWithSpace trimEnd]. intros Hc.
  destruct (trimEnd s); [rewrite Hc|]; cbn; done.
Qed.

Lemma trimStart_head s : startsWithSpace (trimStart s) = false.
Proof.
  induction s as [|c s IH]; cbn; [done|].
  destruct (isRegexSpace c) eqn:Hc; [exact IH|exact Hc].
Qed.

Lemma substring0_head n s :
  startsWithSpace s = false -> startsWithSpace (substring0 n s) = false.
Proof. destruct n, s; cbn; done. Qed.

Lemma substring0_normalised n s :
  normalised s = true -> normalised (substring0 n s) = true.
Proof.
  revert s. induction n as [|n IH]; intros [|c s]; cbn; try done.
  intros H. apply andb_true_iff in H as [Hc Hs].
  rewrite (IH s Hs), andb_true_r.
  destruct (isRegexSpace c); [|done].
  apply andb_true_iff in Hc as [-> Hc]. cbn.
  apply negb_true_iff in Hc. by rewrite substring0_head.
Qed.

Lemma replace_spaces_keeps_head s :
  startsWithSpace s = false ->
  startsWithSpace (replaceFrom spaces " " O None O s) = false.
Proof.
  destruct s as [|c s]; cbn [replaceFrom startsWithSpace].
  - by rewrite matchHere_spaces.
  - intros Hc. rewrite matchHere_spaces, Hc. cbn. exact Hc.
Qed.

Lemma trimStart_nonSpaces s : nonSpaces (trimStart s) = nonSpaces s.
Proof.
  unfold nonSpaces. induction s as [|c s IH]; [done|].
  cbn [trimStart]. destruct (isRegexSpace c) eqn:Hc; [|done].
  cbn [units List.filter]. by rewrite Hc.
Qed.

Lemma trimEnd_nonSpaces s : nonSpaces (trimEnd s) = nonSpaces s.
Proof.
  unfold nonSpaces. induction s as [|c s IH]; [done|].
  cbn [trimEnd]. destruct (trimEnd s) as [|d t].
  - cbn [units List.filter] in *. rewrite <- IH.
    destruct (isRegexSpace c) eqn:Hc; cbn; by rewrite ?Hc.
  - cbn [units List.filter] in *. by rewrite IH.
Qed.

Lemma replace_spaces_nonSpaces inside prev pos s :
  (inside <= leadingSpaces s)%nat ->
  nonSpaces (replaceFrom spaces " " inside prev pos s) = nonSpaces s.
Proof.
  unfold nonSpaces.
  revert inside prev pos. induction s as [|c s IH]; intros inside prev pos.
  - cbn [leadingSpaces]. intros Hi. replace inside with O by lia.
    cbn [replaceFrom]. by rewrite matchHere_spaces.
  - cbn [leadingSpaces]. intros Hi. destruct inside as [|inside].
    + cbn [replaceFrom]. rewrite matchHere_spaces.
      destruct (isRegexSpace c) eqn:Hc.
      * replace (S pos + leadingSpaces s <=? pos)%nat with false
          by (symmetry; apply Nat.leb_gt; lia).
        replace (S pos + leadingSpaces s - pos - 1)%nat
          with (leadingSpaces s) by lia.
        match goal with
        | |- context [String.append " " ?x] =>
            change (String.append " " x) with (String " "%char x)
        end.
        cbn [units List.filter]. rewrite Hc.
        change (negb (isRegexSpace " ")) with false. cbn [negb].
        by apply IH.
      * cbn [units List.filter]. rewrite Hc. cbn [negb]. f_equal.
        apply IH. lia.
    + destruct (isRegexSpace c) eqn:Hc; [|lia]. cbn [replaceFrom].
      cbn [units List.filter]. rewrite Hc. cbn [negb]. apply IH. lia.
Qed.

Lemma substring0_nonSpaces n s :
  exists rest, nonSpaces s = nonSpaces (substring0 n s) ++ rest.
Proof.
  unfold nonSpaces. revert s. induction n as [|n IH]; intros [|c s];
    cbn [substring0 units List.filter]; try by eexists.
  destruct (IH s) as [rest Hrest]. exists rest.
  destruct (negb (isRegexSpace c)); cbn; by rewrite <- Hrest.
Qed.

(** X22.  What is prepared for analysis has at most 5000 code units,
    starts with no white space and holds no white space but single
    blanks; white space apart it is the content, or the front of it. *)
Theorem prepareContentForAnalysis_normalises content :
  let prepared := prepareContentForAnalysis content in
  Z.of_nat (String.length prepared) <= 5000
  /\ startsWithSpace prepared = false
  /\ normalised prepared = true
  /\ exists rest, nonSpaces content = nonSpaces prepared ++ rest.
Proof.
  cbv zeta. unfold prepareContentForAnalysis.
  destruct (String.eqb content "") eqn:He.
  { apply String.eqb_eq in He as ->. cbn [String.length].
    split; [lia|]. repeat split. by exists []. }
  fold spaces. unfold replace. split; [apply substring0_5000|].
  split; [|split].
  - apply substring0_head, replace_spaces_keeps_head, trimEnd_head,
      trimStart_head.
  - apply substring0_normalised, replace_spaces_normalised, Nat.le_0_l.
  - destruct (substring0_nonSpaces (Z.to_nat 5000)
                (replaceFrom spaces " " O None O (trim content)))
      as [rest Hrest].
    exists rest. rewrite <- Hrest.
    rewrite replace_spaces_nonSpaces by apply Nat.le_0_l.
    unfold trim. by rewrite trimEnd_nonSpaces, trimStart_nonSpaces.
Qed.

(** *** Risk assessment *)

Lemma fold_keywords weight lowerContent keywords acc :
  fold_left (fun riskScore keyword =>
               if includes lowerContent keyword
               then riskScore + weight else riskScore)
            keywords acc
  = acc + weight
          * Z.of_nat (length (List.filter (includes lowerContent) keywords)).
Proof.
  revert acc. induction keywords as [|k ks IH]; intros acc;
    cbn [fold_left List.filter]; [cbn; lia|].
  rewrite IH. destruct (includes lowerContent k); cbn [length]; lia.
Qed.

Lemma keywordScore_nonneg weight lowerContent keywords :
  0 <= weight -> 0 <= keywordScore weight lowerContent keywords.
Proof. intros Hw. unfold keywordScore. rewrite fold_keywords. nia. Qed.

Lemma keywordScore_hit weight lowerContent keywords keyword :
  0 <= weight -> In keyword keywords ->
  includes lowerContent keyword = true ->
  weight <= keywordScore weight lowerContent keywords.
Proof.
  intros Hw Hin Hk. unfold keywordScore. rewrite fold_keywords.
  assert (Hf : In keyword (List.filter (includes lowerContent) keywords))
    by (apply filter_In; by split).
  destruct (List.filter (includes lowerContent) keywords); [destruct Hf|].
  cbn [length]. nia.
Qed.

Lemma keywordScore_zero weight lowerContent keywords :
  0 < weight ->
  keywordScore weight lowerContent keywords = 0
  <-> Forall (fun keyword => includes lowerContent keyword = false) keywords.
Proof.
  intros Hw. unfold keywordScore. rewrite fold_keywords.
  induction keywords as [|k ks IH]; cbn [List.filter].
  - split; [intros _; apply List.Forall_nil|intros _; cbn; lia].
  - destruct (includes lowerContent k) eqn:Hk; cbn [length].
    + split; [nia|]. intros H. apply Forall_cons in H as [H _]. congruence.
    + rewrite IH. split.
      * intros H. by constructor.
      * intros H. by apply Forall_cons in H as [_ H].
Qed.

Lemma riskScore_nonneg content : 0 <= riskScore content.
Proof.
  unfold riskScore.
  pose proof (keywordScore_nonneg 3 (toLowerCase content) riskKeywords_high).
  pose proof (keywordScore_nonneg 2 (toLowerCase content) riskKeywords_medium).
  pose proof (keywordScore_nonneg 1 (toLowerCase content) riskKeywords_low).
  destruct (hasMultipleUrls content), (hasUrgencyIndicators content),
    (hasMoneyMentions content), (hasSuspiciousFormatting content); lia.
Qed.

Lemma includes_empty_content keyword :
  keyword <> "" -> includes EmptyString keyword = false.
Proof. destruct keyword; [done|reflexivity]. Qed.

(** X23.  Two phrases alone make a content one that requires additional
    verification: [urgent action required] and [limited time offer],
    in any letter case, each count as a high-risk keyword and as an
    urgency indicator, which together reach the level HIGH. *)
Theorem urgent_phrases_require_verification content :
  includes (toLowerCase content) "urgent action required" = true
  \/ includes (toLowerCase content) "limited time offer" = true ->
  requiresAdditionalVerification content = true
  /\ (assessRiskLevel content = "HIGH"
      \/ assessRiskLevel content = "CRITICAL").
Proof.
  intros Hphrase.
  assert (Hne : content <> "").
  { intros ->. cbn in Hphrase. destruct Hphrase; discriminate. }
  assert (Hhigh : 3 <= keywordScore 3 (toLowerCase content) riskKeywords_high).
  { destruct Hphrase as [H|H];
      (eapply keywordScore_hit; [lia| |exact H]); cbn; tauto. }
  assert (Hurgent : hasUrgencyIndicators content = true).
  { unfold hasUrgencyIndicators. cbv zeta. apply existsb_exists.
    destruct Hphrase as [H|H].
    - exists "urgent". split; [cbn; tauto|].
      apply (includes_app _ "urgent" " action required"), H.
    - exists "limited time". split; [cbn; tauto|].
      apply (includes_app _ "limited time" " offer"), H. }
  assert (Hscore : 5 <= riskScore content).
  { unfold riskScore. rewrite Hurgent.
    pose proof (keywordScore_nonneg 2 (toLowerCase content)
                  riskKeywords_medium).
    pose proof (keywordScore_nonneg 1 (toLowerCase content)
                  riskKeywords_low).
    destruct (hasMultipleUrls content), (hasMoneyMentions content),
      (hasSuspiciousFormatting content); lia. }
  unfold requiresAdditionalVerification, assessRiskLevel. cbv zeta.
  apply String.eqb_neq in Hne. rewrite Hne.
  destruct (8 <=? riskScore content); [split; [reflexivity|by right]|].
  replace (5 <=? riskScore content) with true
    by (symmetry; apply Z.leb_le; exact Hscore).
  split; [reflexivity|by left].
Qed.

Lemma urgent_phrases_require_verification_witness :
  requiresAdditionalVerification "URGENT action required" = true
  /\ (assessRiskLevel "URGENT action required" = "HIGH"
      \/ assessRiskLevel "URGENT action required" = "CRITICAL").
Proof.
  refine (urgent_phrases_require_verification "URGENT action required" _).
  left. vm_compute. reflexivity.
Defined.

(** X24.  The level MINIMAL means that nothing was found: a content gets
    it exactly when it is not empty, shows none of the risk keywords of
    any weight, and none of the four further risk factors applies. *)
Theorem minimal_risk_means_nothing_found content :
  assessRiskLevel content = "MINIMAL"
  <-> content <> ""
      /\ Forall (fun keyword =>
                   includes (toLowerCase content) keyword = false)
                (riskKeywords_high ++ riskKeywords_medium
                 ++ riskKeywords_low)
      /\ hasMultipleUrls content = false
      /\ hasUrgencyIndicators content = false
      /\ hasMoneyMentions content = false
      /\ hasSuspiciousFormatting content = false.
Proof.
  assert (Hlevel : assessRiskLevel content = "MINIMAL"
                   <-> content <> "" /\ riskScore content = 0).
  { unfold assessRiskLevel. cbv zeta.
    pose proof (riskScore_nonneg content) as Hnonneg.
    destruct (String.eqb_spec content "") as [->|Hne].
    - split; [discriminate|]. by intros [? _].
    - destruct (Z.leb_spec 8 (riskScore content));
        [split; [discriminate|intros [_ ?]; lia]|].
      destruct (Z.leb_spec 5 (riskScore content));
        [split; [discriminate|intros [_ ?]; lia]|].
      destruct (Z.leb_spec 3 (riskScore content));
        [split; [discriminate|intros [_ ?]; lia]|].
      destruct (Z.leb_spec 1 (riskScore content));
        [split; [discriminate|intros [_ ?]; lia]|].
      split; [intros _; split; [exact Hne|lia]|reflexivity]. }
  rewrite Hlevel. rewrite !Forall_app.
  rewrite <- (keywordScore_zero 3) by lia.
  rewrite <- (keywordScore_zero 2) by lia.
  rewrite <- (keywordScore_zero 1) by lia.
  unfold riskScore.
  pose proof (keywordScore_nonneg 3 (toLowerCase content) riskKeywords_high).
  pose proof (keywordScore_nonneg 2 (toLowerCase content) riskKeywords_medium).
  pose proof (keywordScore_nonneg 1 (toLowerCase content) riskKeywords_low).
  destruct (hasMultipleUrls content), (hasUrgencyIndicators content),
    (hasMoneyMentions content), (hasSuspiciousFormatting content);
    intuition (try discriminate; try lia).
Qed.

(** *** Recommendations *)

(** X25.  The recommendations read the risk level and four flags of a
    report and nothing else: reports that agree on these get the same
    recommendations, whether they are valid or not and whether they
    carry the flag of a malicious pattern or not.  There is always at
    least one recommendation. *)
Theorem recommendations_ignore_validity securityReport securityReport' :
  riskLevel securityReport = riskLevel securityReport' ->
  Forall (fun flag => flagged securityReport flag
                      = flagged securityReport' flag) adviceFlags ->
  generateSecurityRecommendations securityReport
  = generateSecurityRecommendations securityReport'
  /\ generateSecurityRecommendations securityReport <> [].
Proof.
  intros Hrisk Hflags. unfold adviceFlags in Hflags.
  apply Forall_cons in Hflags as [H1 Hflags].
  apply Forall_cons in Hflags as [H2 Hflags].
  apply Forall_cons in Hflags as [H3 Hflags].
  apply Forall_cons in Hflags as [H4 _].
  unfold generateSecurityRecommendations. cbv zeta.
  rewrite Hrisk, H1, H2, H3, H4. split; [reflexivity|].
  destruct (_ || _), (flagged securityReport' "Multiple URLs detected"),
    (flagged securityReport' "Urgency indicators present"),
    (flagged securityReport' "Financial content detected"),
    (flagged securityReport' "Suspicious formatting patterns");
    discriminate.
Qed.

Lemma recommendations_ignore_validity_witness :
  generateSecurityRecommendations
    (mkReport 25 "MINIMAL" false ["Potentially malicious pattern detected"])
  = generateSecurityRecommendations (mkReport 25 "MINIMAL" true [])
  /\ generateSecurityRecommendations
       (mkReport 25 "MINIMAL" false
                 ["Potentially malicious pattern detected"])
     <> [].
Proof.
  refine (recommendations_ignore_validity
            (mkReport 25 "MINIMAL" false
                      ["Potentially malicious pattern detected"])
            (mkReport 25 "MINIMAL" true []) eq_refl _).
  repeat constructor.
Defined.

(** *** Rate limiting *)

Lemma filter_filter_nil requests userId timeWindow now :
  List.filter (fun req => strictEq (userIdOf req) userId)
    (List.filter (fun timestamp => js_lt (elapsed now timestamp) timeWindow)
                 requests) = [].
Proof.
  induction requests as [|[t|u t] rs IH]; cbn; [done| |done].
  destruct (now - t <? timeWindow); cbn; exact IH.
Qed.

(** X26.  The rate limiter never refuses: its first filter keeps only
    the requests that are numbers, its second only those that are
    objects with the user's identifier, so no request passes both and
    the answer is yes for every positive limit, however many requests
    the user has made. *)
Theorem shouldAllowRequest_never_denies userId requests maxRequests
    timeWindow now :
  0 < maxRequests ->
  shouldAllowRequest userId requests maxRequests timeWindow now = true.
Proof.
  intros Hmax. unfold shouldAllowRequest. rewrite filter_filter_nil.
  cbn. by apply Z.ltb_lt.
Qed.

Lemma shouldAllowRequest_never_denies_witness :
  shouldAllowRequest 7 [Entry 7 990; Entry 7 995; Stamp 999] 1 60000 1000
  = true.
Proof. apply shouldAllowRequest_never_denies. lia. Defined.

End SecurityFacts.

(** ** The chat handlers *)

Section ChatFacts.

Import JsText.
Import ChatHandlers.

Lemma trimStart_length s :
  (String.length (trimStart s) <= String.length s)%nat.
Proof.
  induction s as [|c s IH]; cbn; [lia|].
  destruct (isRegexSpace c); cbn; lia.
Qed.

Lemma trimEnd_length s : (String.length (trimEnd s) <= String.length s)%nat.
Proof.
  induction s as [|c s IH]; cbn [trimEnd]; [cbn; lia|].
  destruct (trimEnd s) as [|d t].
  - destruct (isRegexSpace c); cbn in *; lia.
  - cbn in *. lia.
Qed.

Lemma trim_length s : (String.length (trim s) <= String.length s)%nat.
Proof.
  unfold trim. pose proof (trimEnd_length (trimStart s)).
  pose proof (trimStart_length s). lia.
Qed.

Lemma trimStart_fixed s : startsWithSpace s = false -> trimStart s = s.
Proof. destruct s as [|c s]; cbn; [done|]. by intros ->. Qed.

Lemma trimEnd_idem s : trimEnd (trimEnd s) = trimEnd s.
Proof.
  induction s as [|c s IH]; [done|]. cbn [trimEnd].
  destruct (trimEnd s) as [|d t] eqn:Ht.
  - destruct (isRegexSpace c) eqn:Hc; [done|]. cbn. by rewrite Hc.
  - change (trimEnd (String c (String d t)))
      with (match trimEnd (String d t) with
            | EmptyString => if isRegexSpace c then EmptyString
                             else String c EmptyString
            | u => String c u
            end).
    by rewrite IH.
Qed.

Lemma trim_idem s : trim (trim s) = trim s.
Proof.
  unfold trim.
  rewrite (trimStart_fixed (trimEnd (trimStart s)))
    by apply trimEnd_head, trimStart_head.
  apply trimEnd_idem.
Qed.

Lemma nonSpaces_nil s : nonSpaces s = [] -> trim s = "".
Proof.
  intros H. unfold trim. rewrite <- trimStart_nonSpaces in H.
  pose proof (trimStart_head s) as Hh.
  destruct (trimStart s) as [|c t]; [done|].
  cbn in Hh. unfold nonSpaces in H. cbn in H. rewrite Hh in H. done.
Qed.

(** X27.  What [/verify] hands on to the verification is trimmed, has at
    most 5000 code units and holds more than white space. *)
Theorem handleVerify_content content passed :
  handleVerify content = Verify passed ->
  trim passed = passed
  /\ Z.of_nat (String.length passed) <= 5000
  /\ nonSpaces passed <> [].
Proof.
  unfold handleVerify. destruct content as [content|]; [|done].
  destruct (String.eqb content ""); [done|].
  destruct (String.length (trim content) =? 0)%nat eqn:Hz; [done|].
  cbn [orb]. destruct (5000 <? _) eqn:Hl; [done|].
  intros [= <-]. split; [apply trim_idem|]. split.
  - apply Z.ltb_ge in Hl. pose proof (trim_length content). lia.
  - intros Hn. apply nonSpaces_nil in Hn. rewrite trim_idem in Hn.
    rewrite Hn in Hz. done.
Qed.

Lemma handleVerify_content_witness :
  handleVerify (Some "  Is this true?  ") = Verify "Is this true?"
  /\ trim "Is this true?" = "Is this true?"
  /\ Z.of_nat (String.length "Is this true?") <= 5000
  /\ nonSpaces "Is this true?" <> [].
Proof.
  assert (Hpassed :
    handleVerify (Some "  Is this true?  ") = Verify "Is this true?")
    by (vm_compute; reflexivity).
  split; [exact Hpassed|].
  exact (handleVerify_content (Some "  Is this true?  ") "Is this true?"
           Hpassed).
Defined.

(** X28.  What a plain message hands on to the verification is the text
    as it came, of 3 to 5000 code units, not all of them white space. *)
Theorem handleTextMessage_content text passed :
  handleTextMessage text = Verify passed ->
  text = Some passed
  /\ 3 <= Z.of_nat (String.length passed) <= 5000
  /\ nonSpaces passed <> [].
Proof.
  unfold handleTextMessage. destruct text as [text|]; [|done].
  destruct (String.eqb text ""); [done|].
  destruct (String.length (trim text) <? 3)%nat eqn:Hz; [done|].
  cbn [orb]. destruct (5000 <? _) eqn:Hl; [done|].
  intros [= <-]. split; [done|].
  apply Nat.ltb_ge in Hz. apply Z.ltb_ge in Hl.
  pose proof (trim_length text).
  split; [lia|].
  intros Hn. apply nonSpaces_nil in Hn. rewrite Hn in Hz. cbn in Hz. lia.
Qed.

Lemma handleTextMessage_content_witness :
  handleTextMessage (Some " ok? ") = Verify " ok? "
  /\ 3 <= Z.of_nat (String.length " ok? ") <= 5000
  /\ nonSpaces " ok? " <> [].
Proof.
  assert (Hpassed : handleTextMessage (Some " ok? ") = Verify " ok? ")
    by (vm_compute; reflexivity).
  split; [exact Hpassed|].
  exact (proj2 (handleTextMessage_content (Some " ok? ") " ok? " Hpassed)).
Defined.

(** *** What the message handler announces *)

Lemma selected_by_keyword content id keyword :
  existsb (fun agent =>
             String.eqb (Agent.id agent) id
             && existsb (fun k => String.eqb (toLowerCase k) keyword)
                        (Agent.keywords agent))
          loadAgents = true ->
  includes (toLowerCase content) keyword = true ->
  In id (map Agent.id (selectAgents loadAgents content)).
Proof.
  intros Hlisted Hk.
  apply existsb_exists in Hlisted as (agent & Hagent & Hlisted).
  apply andb_true_iff in Hlisted as [Hid Hkeyword].
  apply String.eqb_eq in Hid as <-.
  apply existsb_exists in Hkeyword as (k & Hin & Heq).
  apply String.eqb_eq in Heq as <-.
  assert (Hfiltered :
    In agent (List.filter (hasKeyword (toLowerCase content)) loadAgents)).
  { apply filter_In. split; [exact Hagent|].
    unfold hasKeyword. apply existsb_exists. by exists k. }
  apply in_map.
  destruct (selectAgents_cases content) as [[_ Hsel]|[Hnil _]].
  - cbv zeta in Hsel. by rewrite Hsel.
  - rewrite Hnil in Hfiltered. destruct Hfiltered.
Qed.

(** X29.  When the message handler announces an analysis of news, of
    scientific claims or of financial scams on account of a keyword
    that the analyzers know too, the analyzer announced is among the
    selected ones: news unless the keyword was [exclusive], fact unless
    it was [clinical trial], scam unless it was [investment] or
    [bitcoin]. *)
Theorem announced_analyzer_is_selected isURL text :
  let kind := detectContentType isURL text in
  let lowerText := toLowerCase text in
  let selected := map Agent.id (selectAgents loadAgents text) in
  (kind = "news" -> includes lowerText "exclusive" = false ->
   In "news" selected)
  /\ (kind = "scientific" -> includes lowerText "clinical trial" = false ->
      In "fact" selected)
  /\ (kind = "financial" -> includes lowerText "investment" = false ->
      includes lowerText "bitcoin" = false -> In "scam" selected).
Proof.
  cbv zeta. unfold detectContentType. cbv zeta.
  destruct (isURL text || includes text "http" || includes text "www.");
    [repeat split; discriminate|].
  destruct (existsb _ ["breaking"; _; _; _; _; _]) eqn:Hnews.
  { split; [|split; discriminate]. intros _ Hex.
    cbn [existsb] in Hnews. rewrite Hex in Hnews.
    repeat (apply orb_true_iff in Hnews as [Hnews|Hnews]);
      first [discriminate Hnews
            |eapply selected_by_keyword; [|exact Hnews]; reflexivity]. }
  destruct (existsb _ ["study"; _; _; _; _; _]) eqn:Hscience.
  { split; [discriminate|]. split; [|discriminate]. intros _ Hex.
    cbn [existsb] in Hscience. rewrite Hex in Hscience.
    repeat (apply orb_true_iff in Hscience as [Hscience|Hscience]);
      first [discriminate Hscience
            |eapply selected_by_keyword; [|exact Hscience]; reflexivity]. }
  destruct (existsb _ ["money"; _; _; _; _; _]) eqn:Hmoney.
  { split; [discriminate|]. split; [discriminate|]. intros _ Hex1 Hex2.
    cbn [existsb] in Hmoney. rewrite Hex1, Hex2 in Hmoney.
    repeat (apply orb_true_iff in Hmoney as [Hmoney|Hmoney]);
      first [discriminate Hmoney
            |eapply selected_by_keyword; [|exact Hmoney]; reflexivity]. }
  repeat split; discriminate.
Qed.

End ChatFacts.

(** ** The retention sweep in any state *)

(** X30.  In every state the system can reach, the sweep examines the
    sessions in the order of their creation up to the first record
    without a creation time, at which it throws.  It removes a session
    exactly when it is among those examined and was created more than
    one hour before the sweep, whatever its status, and leaves every
    other session as it was; it ends normally exactly when every record
    carries its creation time. *)
Theorem sweep_removes_the_expired_it_examines w now :
  reachable w ->
  let this := object w in
  let this' := fst (cleanupOldVerifications this now) in
  let thrown := snd (cleanupOldVerifications this now) in
  let swept id v :=
    In (id, v) (examined (activeVerifications this))
    /\ expired (now - 60 * 60 * 1000) v = true in
  (thrown = None
   <-> Forall (fun kv => is_Some (Verification.startTime (snd kv)))
              (activeVerifications this))
  /\ (forall id, getVerification this id = None ->
                 getVerification this' id = None)
  /\ (forall id v,
        getVerification this id = Some v ->
        (getVerification this' id = None <-> swept id v)
        /\ (getVerification this' id = Some v <-> ~ swept id v)).
Proof.
  intros [actions ->]. cbv zeta.
  pose proof (run_NoDup_keys actions start (NoDup_nil_2 : NoDup []))
    as Hnd.
  set (this := object (run actions start)) in *.
  unfold cleanupOldVerifications, getVerification.
  pose proof (sweepEntries_examined (now - 60 * 60 * 1000)
                (activeVerifications this) (activeVerifications this))
    as Hget.
  pose proof (sweepEntries_thrown (now - 60 * 60 * 1000)
                (activeVerifications this) (activeVerifications this))
    as Hthrown.
  destruct (sweepEntries _ _ _) as [m thrown].
  cbn [fst snd withVerifications activeVerifications] in *.
  split; [exact Hthrown|]. split.
  - intros id Hnone. rewrite Hget, Hnone. by destruct (existsb _ _).
  - intros id v Hv. rewrite Hget, Hv.
    pose proof (examined_expired (activeVerifications this)
                  (now - 60 * 60 * 1000) id v Hnd Hv) as Hex.
    destruct (existsb _ _).
    + assert (Hs : In (id, v) (examined (activeVerifications this))
                   /\ expired (now - 60 * 60 * 1000) v = true)
        by (by apply Hex).
      split; [split; [intros _; exact Hs|done]|].
      split; [discriminate|intros Hn; by destruct Hn].
    + assert (Hs : ~ (In (id, v) (examined (activeVerifications this))
                      /\ expired (now - 60 * 60 * 1000) v = true)).
      { intros H. apply Hex in H. discriminate H. }
      split; [split; [discriminate|intros H; by destruct Hs]|].
      split; [intros _; exact Hs|done].
Qed.

(** Two sessions, 61 and 59 minutes old. *)
Lemma sweep_removes_the_expired_it_examines_witness :
  reachable Samples.agedWorld
  /\ snd (cleanupOldVerifications (object Samples.agedWorld) 3660000) = None
  /\ getVerification
       (fst (cleanupOldVerifications (object Samples.agedWorld) 3660000))
       "old" = None
  /\ getVerification
       (fst (cleanupOldVerifications (object Samples.agedWorld) 3660000))
       "young"
     = getVerification (object Samples.agedWorld) "young"
  /\ getVerification (object Samples.agedWorld) "young" <> None.
Proof.
  assert (Hreach : reachable Samples.agedWorld) by (eexists; reflexivity).
  split; [exact Hreach|].
  destruct (sweep_removes_the_expired_it_examines Samples.agedWorld 3660000
              Hreach) as (Hthrown & _ & Hget).
  destruct (getVerification (object Samples.agedWorld) "old")
    as [old|] eqn:Hold; [|vm_compute in Hold; discriminate Hold].
  destruct (getVerification (object Samples.agedWorld) "young")
    as [young|] eqn:Hyoung; [|vm_compute in Hyoung; discriminate Hyoung].
  destruct (Hget "old" old Hold) as [Hgone _].
  destruct (Hget "young" young Hyoung) as [_ Hkept].
  split; [|split; [|split; [|discriminate]]].
  - apply Hthrown. repeat constructor; eexists; reflexivity.
  - apply Hgone. vm_compute in Hold. injection Hold as <-.
    split; [vm_compute; auto|reflexivity].
  - apply Hkept. vm_compute in Hyoung. injection Hyoung as <-.
    intros [_ Hexp]. vm_compute in Hexp. discriminate Hexp.
Defined.
